(** * dfcompy: key-aligned comparison of two data frames

    A shallow embedding of [dfcompy/core.py]: the two cell comparators
    ([NumberComparator], [StringComparator]) and [DataFrameComparator],
    which aligns the rows of two frames on key columns and sorts them into
    deleted, inserted, updated and unchanged rows.

    Numbers are IEEE 754 binary64 values, as Python floats are: the
    operations are those of [SpecFloat] at precision 53 and maximal exponent
    1024, the specification the primitive floats of Rocq are stated against. *)

From Stdlib Require Import ZArith List String Ascii Bool Lia PeanoNat.
From Stdlib Require Import Floats.SpecFloat.
Import ListNotations.
Local Open Scope string_scope.
Local Open Scope list_scope.

Set Implicit Arguments.

(** ** Binary64 arithmetic *)

Definition float := spec_float.

Definition b64_prec : Z := 53.
Definition b64_emax : Z := 1024.

Definition fzero : float := S754_zero false.
Definition fnan : float := S754_nan.
Definition fsub (x y : float) : float := SFsub b64_prec b64_emax x y.
Definition fdiv (x y : float) : float := SFdiv b64_prec b64_emax x y.
Definition fabs (x : float) : float := SFabs x.
Definition flt (x y : float) : bool := SFltb x y.
Definition feq (x y : float) : bool := SFeqb x y.

(** The double nearest to an integer, and to a quotient of two integers
    (decimal literals such as 20.2 are written [float_of_ratio 202 10]). *)
Definition float_of_Z (z : Z) : float := binary_normalize b64_prec b64_emax z 0 false.
Definition float_of_ratio (n d : Z) : float := fdiv (float_of_Z n) (float_of_Z d).


(** [q * 2^n] on positive numbers, for [n >= 0]. *)
Definition shl (q : positive) (n : Z) : positive :=
  match n with
  | Zpos d => Pos.iter xO q d
  | _ => q
  end.

(** The binary64 representation of the number [z * 2^e] when [|z| < 2^53]
    and [2^e] is in the range of the normal numbers: the sign of [z], a
    mantissa of 53 bits that is [|z|] shifted left, and the exponent that
    makes up for the shift. No rounding is involved. *)
Definition exact_double (z e : Z) : float :=
  match z with
  | Z0 => S754_zero false
  | Zpos q =>
      S754_finite false (shl q (53 - Zpos (digits2_pos q)))
                  (e + Zpos (digits2_pos q) - 53)
  | Zneg q =>
      S754_finite true (shl q (53 - Zpos (digits2_pos q)))
                  (e + Zpos (digits2_pos q) - 53)
  end.

Definition is_nan (x : float) : bool :=
  match x with S754_nan => true | _ => false end.

Definition is_zero (x : float) : bool :=
  match x with S754_zero _ => true | _ => false end.

Definition is_finite (x : float) : bool :=
  match x with S754_zero _ | S754_finite _ _ _ => true | _ => false end.

(** A float whose sign bit is clear, or NaN: what [abs] and a [max] of
    absolute values return. *)
Definition nonneg_or_nan (y : float) : bool :=
  match y with
  | S754_zero s | S754_infinity s | S754_finite s _ _ => negb s
  | S754_nan => true
  end.

(** ** Exceptions and results

    A call either returns, raises one of the Python exceptions that occur in
    the module, or leaves the fragment of pandas that this development
    models ([OutOfModel]): frames that are not rectangular or carry a column
    label twice, a key or subset list that names a column twice, and a
    scalar access [.at] whose row label occurs several times in the index
    (pandas then hands back a Series instead of a scalar). *)

Inductive exn : Type :=
| AssertionError
| KeyError
| ValueError
| TypeError
| AttributeError
| ZeroDivisionError
| IndexError.

Inductive result (A : Type) : Type :=
| Ok (a : A)
| Raise (e : exn)
| OutOfModel.

Arguments Ok {A} a.
Arguments Raise {A} e.
Arguments OutOfModel {A}.

Definition bind {A B : Type} (r : result A) (k : A -> result B) : result B :=
  match r with
  | Ok a => k a
  | Raise e => Raise e
  | OutOfModel => OutOfModel
  end.

Notation "x <- r ;; k" := (bind r (fun x => k))
  (at level 61, r at next level, right associativity).

(** [for x in l: ys.append(f(x))], stopping at the first exception. *)
Fixpoint mapM {A B : Type} (f : A -> result B) (l : list A) : result (list B) :=
  match l with
  | [] => Ok []
  | x :: l' => y <- f x ;; ys <- mapM f l' ;; Ok (y :: ys)
  end.

(** ** Cell values

    A cell of a frame holds a float, a string or [None]. (An integer cell is
    read by [float()] as the double of the same value and is written as that
    double here.) *)

Inductive value : Type :=
| VFloat (f : float)
| VStr (s : string)
| VNone.

(** ** Frames

    A [DataFrame] is a list of column labels and a list of rows, each row
    holding one cell per column. *)

Record DataFrame : Type := {
  columns : list string;
  data : list (list value)
}.

(** Sets of column labels ([set(...)], [issubset], [intersection], [-]). *)
Definition mem (c : string) (s : list string) : bool := existsb (String.eqb c) s.
Definition issubset (a b : list string) : bool := forallb (fun c => mem c b) a.
Definition intersection (a b : list string) : list string := filter (fun c => mem c b) a.
Definition difference (a b : list string) : list string :=
  filter (fun c => negb (mem c b)) a.

Fixpoint nodupb (l : list string) : bool :=
  match l with
  | [] => true
  | c :: l' => negb (mem c l') && nodupb l'
  end.

(** The frames the model covers: distinct column labels, one cell per
    column in every row. *)
Definition rectangular (df : DataFrame) : bool :=
  nodupb (columns df)
  && forallb (fun row => Nat.eqb (List.length row) (List.length (columns df))) (data df).

(** Position of a label among the columns, and the cell of a row under a
    label. *)
Fixpoint position (c : string) (cols : list string) : nat :=
  match cols with
  | [] => 0
  | c' :: cols' => if String.eqb c c' then 0 else S (position c cols')
  end.

Definition cell (cols : list string) (row : list value) (c : string) : value :=
  nth (position c cols) row VNone.

(** A frame after [set_index]: every row carries its key, the tuple of its
    key cells, as row label. *)
Definition key : Type := list value.
Definition indexed : Type := list (key * list value).

Definition keys (df : indexed) : list key := map fst df.

(** Matching of row labels as the index does it: floats by value (so 0.0
    matches -0.0) with NaN matching NaN, strings by content. *)
Definition value_eqb (a b : value) : bool :=
  match a, b with
  | VFloat f, VFloat g => feq f g || (is_nan f && is_nan g)
  | VStr s, VStr t => String.eqb s t
  | VNone, VNone => true
  | _, _ => false
  end.

Fixpoint key_eqb (k1 k2 : key) : bool :=
  match k1, k2 with
  | [], [] => true
  | a :: k1', b :: k2' => value_eqb a b && key_eqb k1' k2'
  | _, _ => false
  end.

(** Two floats that the index takes for the same label. *)
Definition float_same (x y : float) : Prop :=
  match x, y with
  | S754_zero _, S754_zero _ => True
  | S754_infinity s1, S754_infinity s2 => s1 = s2
  | S754_nan, S754_nan => True
  | S754_finite s1 m1 e1, S754_finite s2 m2 e2 => s1 = s2 /\ m1 = m2 /\ e1 = e2
  | _, _ => False
  end.

(** [k in index] and [index.isin(other_index)]. *)
Definition contains (idx : list key) (k : key) : bool := existsb (key_eqb k) idx.
Definition isin (idx other_idx : list key) : list bool := map (contains other_idx) idx.

(** No two rows of the frame have matching keys. *)
Fixpoint unique_keys (idx : list key) : bool :=
  match idx with
  | [] => true
  | k :: idx' => negb (contains idx' k) && unique_keys idx'
  end.

(** [df.set_index(on)]: the key columns leave the frame and become the row
    label; a missing key column is a [KeyError]. The result is paired with
    the labels of the columns that remain. *)
Definition set_index (df : DataFrame) (on : list string)
  : result (list string * indexed) :=
  if issubset on (columns df)
  then
    let rest := difference (columns df) on in
    Ok (rest,
        map (fun row => (map (cell (columns df) row) on,
                         map (cell (columns df) row) rest)) (data df))
  else Raise KeyError.

(** [frame[subset]]: the listed columns in the listed order. *)
Definition getitem (frame : list string * indexed) (subset : list string)
  : result indexed :=
  if issubset subset (fst frame)
  then Ok (map (fun r => (fst r, map (cell (fst frame) (snd r)) subset)) (snd frame))
  else Raise KeyError.

(** [frame[col]] of a frame whose columns are [subset]: column number [i]. *)
Definition column (df : indexed) (i : nat) : list value :=
  map (fun r => nth i (snd r) VNone) df.

(** The rows of a frame that carry the label [l]. *)
Definition rows_labelled (df : indexed) (l : key) : indexed :=
  filter (fun r => key_eqb l (fst r)) df.

(** [df.at[idx, col]]: the cell of the one row labelled [idx]. *)
Definition at_ (df : indexed) (idx : key) (i : nat) : result value :=
  match rows_labelled df idx with
  | [] => Raise KeyError
  | [r] => Ok (nth i (snd r) VNone)
  | _ :: _ :: _ => OutOfModel
  end.

(** [df.loc[mask]] with a boolean mask, on a frame and on an index. *)
Definition loc_mask {A : Type} (rows : list A) (mask : list bool) : list A :=
  map fst (filter snd (combine rows mask)).

(** A missing value, as pandas sees it: [None] or NaN. *)
Definition isna (v : value) : bool :=
  match v with
  | VNone => true
  | VFloat f => is_nan f
  | VStr _ => false
  end.

(** A label of a single-level index that is a missing value, and one that
    is [None]. (A key of several cells is a label of a [MultiIndex].) *)
Definition missing_label (k : key) : bool :=
  match k with
  | [v] => isna v
  | _ => false
  end.

Definition none_label (k : key) : bool :=
  match k with
  | [VNone] => true
  | _ => false
  end.

(** No cell of any key is a missing value. *)
Definition no_missing_key (idx : list key) : bool :=
  forallb (fun k => negb (existsb isna k)) idx.

(** [df.loc[labels]] with an index of row labels. [.loc] first asks whether
    [labels] is a boolean mask: a non-empty single-level index of object
    dtype whose labels are all missing values is taken for a mask with
    missing values and refused with [ValueError]. An index that holds a
    [None] is of object dtype; of one that holds NaN only the labels do not
    tell the dtype, and with it the outcome, which the model leaves open.
    In every other case [labels] are labels: for every label in turn the
    rows carrying it, and a label that is not in the index is a
    [KeyError]. *)
Definition loc_labels (df : indexed) (labels : list key) : result indexed :=
  match labels with
  | l0 :: _ =>
      if forallb missing_label labels
      then if existsb none_label labels then Raise ValueError else OutOfModel
      else
        rs <- mapM (fun l =>
                      match rows_labelled df l with
                      | [] => Raise KeyError
                      | r :: rs' => Ok (r :: rs')
                      end) labels ;;
        Ok (List.concat rs)
  | [] => Ok []
  end.

(** The keys of a frame under the key columns [on], and the frame that
    [set_index(on)[subset]] makes of it. *)
Definition table_keys (df : DataFrame) (on : list string) : list key :=
  map (fun row => map (cell (columns df) row) on) (data df).

Definition prepared (df : DataFrame) (on subset : list string) : indexed :=
  map (fun row => (map (cell (columns df) row) on,
                   map (cell (columns df) row) subset)) (data df).

Definition enumerate {A : Type} (l : list A) : list (nat * A) :=
  combine (seq 0 (List.length l)) l.

(** The two comparator classes a column can be given. *)
Inductive comparator : Type :=
| NumberComparatorClass
| StringComparatorClass.

Definition is_number_class (c : comparator) : bool :=
  match c with
  | NumberComparatorClass => true
  | StringComparatorClass => false
  end.

(** ** Sample built-ins

    A [str.lower] and a [float(str)] for the concrete runs: they agree with
    Python on the strings that occur there, ASCII words that are no float
    literal and strings of decimal digits. *)

Definition lower_ascii (c : ascii) : ascii :=
  let n := nat_of_ascii c in
  if Nat.leb 65 n && Nat.leb n 90 then ascii_of_nat (n + 32) else c.

Fixpoint sample_lower (s : string) : string :=
  match s with
  | EmptyString => EmptyString
  | String c s' => String (lower_ascii c) (sample_lower s')
  end.

Fixpoint digits_value (s : string) (acc : Z) : option Z :=
  match s with
  | EmptyString => Some acc
  | String c s' =>
      let n := Z.of_nat (nat_of_ascii c) in
      if Z.leb 48 n && Z.leb n 57
      then digits_value s' (10 * acc + (n - 48))%Z
      else None
  end.

Definition sample_float_of_str (s : string) : option float :=
  match s with
  | EmptyString => None
  | String _ _ => option_map float_of_Z (digits_value s 0%Z)
  end.

(** ** Sample frames

    The two frames of [test/sample1.py], and small frames for the corner
    cases. *)

Definition num (z : Z) : value := VFloat (float_of_Z z).

Definition sample_old : DataFrame :=
  {| columns := ["ID"; "Name"; "Age"];
     data := [ [num 1; VStr "Alice"; num 25];
               [num 2; VStr "Bob"; num 30];
               [num 3; VStr "Charlie"; num 35];
               [num 4; VStr "David"; num 40] ] |}.

Definition sample_new : DataFrame :=
  {| columns := ["ID"; "Name"; "Age"; "NewCol"];
     data := [ [num 2; VStr "Bob"; num 30; num 1];
               [num 3; VStr "Charlie"; num 36; num 312];
               [num 4; VStr "Dave"; num 40; num 1];
               [num 5; VStr "Eve"; num 45; num 41] ] |}.

Definition default_tolerance : float := float_of_ratio 1 1000.

(** One row, compared against itself under tolerance 0. *)
Definition single_row : DataFrame :=
  {| columns := ["key"; "val"]; data := [ [num 2; num 20] ] |}.

(** The key 1 twice in the old table, and not in the new one. *)
Definition repeated_old : DataFrame :=
  {| columns := ["key"; "val"];
     data := [ [num 1; num 10]; [num 1; num 11]; [num 2; num 20] ] |}.

Definition repeated_new : DataFrame :=
  {| columns := ["key"; "val"];
     data := [ [num 2; num 20]; [num 3; num 30] ] |}.

(** One row whose compared cell is NaN, the missing value of a float
    column. *)
Definition missing_value : DataFrame :=
  {| columns := ["key"; "val"]; data := [ [num 2; VFloat fnan] ] |}.

(** A numeric column of the old table that holds a word in the new one. *)
Definition drift_old : DataFrame :=
  {| columns := ["ID"; "Age"]; data := [ [num 2; num 30]; [num 3; num 35] ] |}.

Definition drift_new : DataFrame :=
  {| columns := ["ID"; "Age"];
     data := [ [num 2; num 30]; [num 3; VStr "unknown"] ] |}.

(** An old table with a missing age, as [None] in an object column. *)
Definition gap_old : DataFrame :=
  {| columns := ["ID"; "Age"]; data := [ [num 2; VNone]; [num 3; num 35] ] |}.

(** A new table that shares no key with [single_row], and holds a word
    where [single_row] holds a number. *)
Definition apart_new : DataFrame :=
  {| columns := ["key"; "val"]; data := [ [num 3; VStr "thirty" ] ] |}.

(** One row whose key is [None], and the same row with another value. *)
Definition unlabelled : DataFrame :=
  {| columns := ["key"; "val"]; data := [ [VNone; num 20] ] |}.

Definition unlabelled_new : DataFrame :=
  {| columns := ["key"; "val"]; data := [ [VNone; num 21] ] |}.

(** A name that is missing in the new table, in the column before an age
    that holds a word there. *)
Definition nameless_old : DataFrame :=
  {| columns := ["ID"; "Name"; "Age"];
     data := [ [num 2; VStr "Bob"; num 30] ] |}.

Definition nameless_new : DataFrame :=
  {| columns := ["ID"; "Name"; "Age"];
     data := [ [num 2; VFloat fnan; VStr "unknown"] ] |}.

Section Comparators.

(** The two built-ins of Python the module relies on: the grammar of
    [float(str)] and [str.lower]. Every statement below holds for any
    choice of them. *)
Variable float_of_str : string -> option float.
Variable lower : string -> string.

(** [float(v)]: [ValueError] for a string that is no number, [TypeError]
    for [None]. *)
Definition py_float (v : value) : result float :=
  match v with
  | VFloat f => Ok f
  | VStr s =>
      match float_of_str s with
      | Some f => Ok f
      | None => Raise ValueError
      end
  | VNone => Raise TypeError
  end.

(** [max(x, y)] on floats: the second argument wins only when it compares
    greater than the first. *)
Definition py_max (x y : float) : float := if flt x y then y else x.

(** [x / y] on floats: any zero divisor raises. *)
Definition py_truediv (x y : float) : result float :=
  if feq y fzero then Raise ZeroDivisionError else Ok (fdiv x y).

(** ** NumberComparator *)

Record NumberComparator : Type := {
  nc_one : value;
  nc_other : value;
  tol_mode : string;
  tolerance : float
}.

Definition absolutely_compare (one_value other_value tolerance : float) : bool :=
  flt (fabs (fsub one_value other_value)) tolerance.

Definition relatively_compare (one_value other_value tolerance : float) : result bool :=
  if feq other_value one_value && feq one_value fzero then Ok true
  else
    q <- py_truediv (fsub one_value other_value)
                    (py_max (fabs one_value) (fabs other_value)) ;;
    Ok (flt (fabs q) tolerance).

Definition NumberComparator_compare (self : NumberComparator) : result bool :=
  one_value <- py_float (nc_one self) ;;
  other_value <- py_float (nc_other self) ;;
  if String.eqb (tol_mode self) "relative"
  then relatively_compare one_value other_value (tolerance self)
  else Ok (absolutely_compare one_value other_value (tolerance self)).

(** ** StringComparator *)

Record StringComparator : Type := {
  sc_one : value;
  sc_other : value;
  sc_ignore_case : bool
}.

(** [v.lower()]: only strings have the method. *)
Definition py_lower (v : value) : result string :=
  match v with
  | VStr s => Ok (lower s)
  | _ => Raise AttributeError
  end.

(** [a == b] on cell values. *)
Definition py_eq (a b : value) : bool :=
  match a, b with
  | VFloat f, VFloat g => feq f g
  | VStr s, VStr t => String.eqb s t
  | VNone, VNone => true
  | _, _ => false
  end.

Definition StringComparator_compare (self : StringComparator) : result bool :=
  if sc_ignore_case self
  then
    a <- py_lower (sc_one self) ;;
    b <- py_lower (sc_other self) ;;
    Ok (String.eqb a b)
  else Ok (py_eq (sc_one self) (sc_other self)).

(** ** DataFrameComparator *)

(** The frame [comparison] of [_compare]: its row labels and, per compared
    column, the verdicts of the cells of that column. *)
Record Comparison : Type := {
  cmp_index : list key;
  cmp_columns : list (list bool)
}.

Record DataFrameComparator : Type := {
  one : DataFrame;
  other : DataFrame;
  on : list string;
  subset : list string;
  number_mode : string;
  number_tolerance : float;
  ignore_case : bool;
  _one : indexed;
  _other : indexed;
  comparators : list comparator;
  _comparison : Comparison;
  _mask : list bool
}.

(** [_check_subset] reads the column labels of the two frames, [self.on]
    and [self.subset], and returns the value [self.subset] has afterwards.
    [set(self.subset)] comes before the test [self.subset is None], so a
    missing subset is a [TypeError] there. *)
Definition _check_subset (one_columns other_columns on : list string)
    (self_subset : option (list string)) : result (list string) :=
  let join_columns := intersection one_columns other_columns in
  let ons := on in
  subset <- match self_subset with
            | Some l => Ok l
            | None => Raise TypeError
            end ;;
  if negb (Nat.ltb 0 (List.length on)
           && negb (issubset ons subset)
           && issubset ons join_columns)
  then Raise AssertionError
  else
    let except_on_columns := difference join_columns ons in
    if Nat.eqb (List.length except_on_columns) 0 then Raise KeyError
    else
      match self_subset with
      | None => Ok except_on_columns
      | Some l =>
          if negb (issubset subset except_on_columns) then Raise KeyError
          else Ok l
      end.

(** [_prepare_data]: both frames indexed by the key columns and cut down
    to the compared columns. *)
Definition _prepare_data (one other : DataFrame) (on subset : list string)
  : result (indexed * indexed) :=
  if rectangular one && rectangular other && nodupb on && nodupb subset
  then
    a <- (f <- set_index one on ;; getitem f subset) ;;
    b <- (f <- set_index other on ;; getitem f subset) ;;
    Ok (a, b)
  else OutOfModel.

(** [series.astype("float64")]: every cell through [float()], except that
    [None] becomes NaN. *)
Definition astype_float64 (col : list value) : result (list float) :=
  mapM (fun v => match v with
                 | VNone => Ok fnan
                 | _ => py_float v
                 end) col.

(** The [try] of [_prepare_comparators] for one column: a column that
    converts to float64 gets the number comparator, one that raises
    [ValueError] the string comparator; any other exception passes. *)
Definition column_class (col : list value) : result comparator :=
  match astype_float64 col with
  | Ok _ => Ok NumberComparatorClass
  | Raise ValueError => Ok StringComparatorClass
  | Raise e => Raise e
  | OutOfModel => OutOfModel
  end.

Definition _prepare_comparators (_one : indexed) (subset : list string)
  : result (list comparator) :=
  mapM (fun ic => column_class (column _one (fst ic))) (enumerate subset).

(** Whether a column converts to float64. *)
Definition numeric_column (col : list value) : bool :=
  match astype_float64 col with
  | Ok _ => true
  | _ => false
  end.

(** The class [_prepare_comparators] gives column number [fst ic]. *)
Definition class_of (df : indexed) (ic : nat * string) : comparator :=
  if numeric_column (column df (fst ic))
  then NumberComparatorClass else StringComparatorClass.

(** The comparator built for one cell, and its verdict. *)
Definition cell_verdict (number_mode : string) (number_tolerance : float)
    (ignore_case is_numeric : bool) (one_val other_val : value) : result bool :=
  if is_numeric
  then NumberComparator_compare
         {| nc_one := one_val; nc_other := other_val;
            tol_mode := number_mode; tolerance := number_tolerance |}
  else StringComparator_compare
         {| sc_one := one_val; sc_other := other_val;
            sc_ignore_case := ignore_case |}.

(** The body of the inner loop of [_compare] for column number [i] and row
    label [idx]. *)
Definition compare_cell (_one _other : indexed) (number_mode : string)
    (number_tolerance : float) (ignore_case is_numeric : bool)
    (i : nat) (idx : key) : result bool :=
  one_val <- at_ _one idx i ;;
  other_val <- (if contains (keys _other) idx then at_ _other idx i else Ok VNone) ;;
  cell_verdict number_mode number_tolerance ignore_case is_numeric one_val other_val.

(** The row [j] of the comparison frame, and [all] of it. *)
Definition comparison_row (cols : list (list bool)) (j : nat) : list bool :=
  map (fun col => nth j col false) cols.

Definition py_all (l : list bool) : bool := forallb (fun b => b) l.

(** The body of the outer loop: the verdicts of column number [fst ic]
    over the rows of the comparison frame. *)
Definition compare_column (comparators : list comparator)
    (_one _other : indexed) (number_mode : string) (number_tolerance : float)
    (ignore_case : bool) (index : list key) (ic : nat * string)
  : result (list bool) :=
  cls <- match nth_error comparators (fst ic) with
         | Some c => Ok c
         | None => Raise IndexError
         end ;;
  let is_numeric := is_number_class cls in
  mapM (compare_cell _one _other number_mode number_tolerance
                     ignore_case is_numeric (fst ic)) index.

Definition _compare (subset : list string) (comparators : list comparator)
    (_one _other : indexed) (number_mode : string) (number_tolerance : float)
    (ignore_case : bool) : result (Comparison * list bool) :=
  let common_indexes := isin (keys _one) (keys _other) in
  let index := loc_mask (keys _one) common_indexes in
  cols <- mapM (compare_column comparators _one _other number_mode
                               number_tolerance ignore_case index)
               (enumerate subset) ;;
  let mask := map (fun j => py_all (comparison_row cols j))
                  (seq 0 (List.length index)) in
  Ok ({| cmp_index := index; cmp_columns := cols |}, mask).

(** [subset or one.columns.tolist()]: an omitted subset and an empty one
    alike give way to all the columns of the old frame. *)
Definition subset_or_columns (subset : option (list string)) (one : DataFrame)
  : list string :=
  match subset with
  | Some (c :: l) => c :: l
  | Some [] | None => columns one
  end.

Definition DataFrameComparator_init (one other : DataFrame) (on : list string)
    (subset : option (list string)) (number_mode : string)
    (number_tolerance : float) (ignore_case : bool)
  : result DataFrameComparator :=
  let self_subset := subset_or_columns subset one in
  checked <- _check_subset (columns one) (columns other) on (Some self_subset) ;;
  prepared <- _prepare_data one other on checked ;;
  cmps <- _prepare_comparators (fst prepared) checked ;;
  cm <- _compare checked cmps (fst prepared) (snd prepared)
                 number_mode number_tolerance ignore_case ;;
  Ok {| one := one; other := other; on := on; subset := checked;
        number_mode := number_mode; number_tolerance := number_tolerance;
        ignore_case := ignore_case;
        _one := fst prepared; _other := snd prepared;
        comparators := cmps; _comparison := fst cm; _mask := snd cm |}.

(** The five row partitions. *)
Definition rows_deleted (self : DataFrameComparator) : indexed :=
  loc_mask (_one self) (map negb (isin (keys (_one self)) (keys (_other self)))).

Definition rows_inserted (self : DataFrameComparator) : indexed :=
  loc_mask (_other self) (map negb (isin (keys (_other self)) (keys (_one self)))).

Definition rows_in_common (self : DataFrameComparator) : result indexed :=
  let mask := loc_mask (cmp_index (_comparison self)) (_mask self) in
  loc_labels (_one self) mask.

Definition rows_before_update (self : DataFrameComparator) : result indexed :=
  let mask := loc_mask (cmp_index (_comparison self)) (map negb (_mask self)) in
  loc_labels (_one self) mask.

Definition rows_after_update (self : DataFrameComparator) : result indexed :=
  let mask := loc_mask (cmp_index (_comparison self)) (map negb (_mask self)) in
  loc_labels (_other self) mask.

(** Whether a frame has a row whose key matches [k]. *)
Definition has_key (df : indexed) (k : key) : bool := contains (keys df) k.

(** Every compared cell of a frame is judged equal to itself by the
    comparator of its column. *)
Definition self_equal_cells (df : DataFrame) (sub : list string)
    (number_mode : string) (number_tolerance : float) (ignore_case : bool)
  : Prop :=
  forall (i : nat) (c : string) (row : list value),
    nth_error sub i = Some c ->
    In row (data df) ->
    cell_verdict number_mode number_tolerance ignore_case
      (numeric_column (map (fun r => cell (columns df) r c) (data df)))
      (cell (columns df) row c) (cell (columns df) row c)
    = Ok true.

(** The exceptions a cell comparison can end with: a failed [float()]
    in a number column, [.lower()] on a cell that is no string when case is
    ignored, and the division of the relative mode. *)
Definition conversion_error (e : exn) : Prop := e = ValueError \/ e = TypeError.

Definition cell_exception (number_mode : string) (ignore_case : bool) (e : exn)
  : Prop :=
  conversion_error e
  \/ (ignore_case = true /\ e = AttributeError)
  \/ (number_mode = "relative" /\ e = ZeroDivisionError).

(** Every compared cell of the old row [r1] and of the new row [r2] is
    judged equal by the comparator of its column. *)
Definition cells_all_equal (self : DataFrameComparator)
    (r1 r2 : key * list value) : Prop :=
  forall (i : nat) (c : string),
    nth_error (subset self) i = Some c ->
    cell_verdict (number_mode self) (number_tolerance self) (ignore_case self)
      (numeric_column (column (_one self) i))
      (nth i (snd r1) VNone) (nth i (snd r2) VNone)
    = Ok true.

(** The dict [data] that [abstract] builds, entry by entry in the order of
    the source. (Its rendering, [DataFrame(data).to_markdown()], is the work
    of pandas and tabulate and is not modelled.) *)
Record Abstract : Type := {
  abstract_old : nat;
  abstract_new : nat;
  abstract_deleted : nat;
  abstract_updated : nat;
  abstract_inserted : nat;
  abstract_common : nat
}.

Definition abstract_data (self : DataFrameComparator) : result Abstract :=
  let old := List.length (data (one self)) in
  let new := List.length (data (other self)) in
  let deleted := List.length (rows_deleted self) in
  updated <- rows_after_update self ;;
  let inserted := List.length (rows_inserted self) in
  common <- rows_in_common self ;;
  Ok {| abstract_old := old; abstract_new := new; abstract_deleted := deleted;
        abstract_updated := List.length updated;
        abstract_inserted := inserted;
        abstract_common := List.length common |}.

(** The compared cells of two table rows under column [c] of number [i]
    can be compared: the comparator of the column returns a verdict. *)
Definition cell_pair_returns (one other : DataFrame) (number_mode : string)
    (number_tolerance : float) (ignore_case : bool) (c : string)
    (row1 row2 : list value) : Prop :=
  exists v : bool,
    cell_verdict number_mode number_tolerance ignore_case
      (numeric_column (map (fun r => cell (columns one) r c) (data one)))
      (cell (columns one) row1 c) (cell (columns other) row2 c)
    = Ok v.

(** A cell that holds a float. *)
Definition is_float (v : value) : bool :=
  match v with
  | VFloat _ => true
  | _ => false
  end.

(** The two conditions [_check_subset] tests, as conditions on the column
    labels: the keys are acceptable, and so is the subset. *)
Definition common_column (c1 c2 : list string) (c : string) : Prop :=
  In c c1 /\ In c c2.

Definition keys_acceptable (c1 c2 on l : list string) : Prop :=
  on <> []
  /\ (forall c, In c on -> common_column c1 c2 c)
  /\ ~ (forall c, In c on -> In c l).

Definition subset_acceptable (c1 c2 on l : list string) : Prop :=
  (exists c, common_column c1 c2 c /\ ~ In c on)
  /\ (forall c, In c l -> common_column c1 c2 c /\ ~ In c on).

(** A cell that holds a string, and a cell that [astype("float64")] takes:
    a float, [None], or a string that [float()] reads. *)
Definition is_str (v : value) : bool :=
  match v with
  | VStr _ => true
  | _ => false
  end.

Definition converts (v : value) : bool :=
  match v with
  | VStr s => match float_of_str s with Some _ => true | None => false end
  | VFloat _ | VNone => true
  end.

(** * Properties *)

(** ** Float comparisons *)

Lemma feq_true_not_flt (x y : float) : feq x y = true -> flt x y = false.
Proof.
  unfold feq, flt, SFeqb, SFltb.
  destruct (SFcompare x y) as [[ | | ] | ]; intros H; try discriminate H; reflexivity.
Qed.

Lemma flt_irrefl (x : float) : flt x x = false.
Proof.
  unfold flt, SFltb.
  destruct x as [s | s | | s m e]; simpl.
  - reflexivity.
  - destruct s; reflexivity.
  - reflexivity.
  - destruct s; rewrite Z.compare_refl, Pos.compare_cont_refl; reflexivity.
Qed.

(** The guard of the relative comparison lets a zero divisor through in
    exactly one situation: the old value is a zero and the new one is NaN. *)
Lemma py_max_abs_zero (a b : float) :
  feq (py_max (fabs a) (fabs b)) fzero = true ->
  is_zero a = true /\ (is_zero b = true \/ is_nan b = true).
Proof.
  unfold py_max, flt, feq, fzero.
  destruct a as [sa | sa | | sa ma ea], b as [sb | sb | | sb mb eb];
    cbn; try (intros H; discriminate H); auto.
  destruct (ea ?= eb)%Z; try (intros H; discriminate H).
  destruct (Pos.compare_cont Eq ma mb); intros H; discriminate H.
Qed.

(** [abs(x / y)] is [abs(x) / y] for a divisor that is not negative. *)
Lemma binary_round_aux_abs (s : bool) (m e : Z) (l : location) :
  SFabs (binary_round_aux b64_prec b64_emax s m e l)
  = binary_round_aux b64_prec b64_emax false m e l.
Proof.
  unfold binary_round_aux.
  destruct (shr_fexp b64_prec b64_emax m e l) as [mrs' e'].
  destruct (shr_fexp b64_prec b64_emax _ e' loc_Exact) as [mrs'' e''].
  destruct (shr_m mrs''); try reflexivity.
  destruct (Z.leb e'' _); reflexivity.
Qed.

Lemma fabs_fdiv (x y : float) :
  nonneg_or_nan y = true -> fabs (fdiv x y) = fdiv (fabs x) y.
Proof.
  unfold fabs, fdiv, SFdiv.
  destruct x as [sx | sx | | sx mx ex], y as [sy | sy | | sy my ey];
    cbn [nonneg_or_nan SFabs]; try reflexivity;
    intros Hy; apply negb_true_iff in Hy; subst sy;
    rewrite ?xorb_false_r; try reflexivity.
  destruct (SFdiv_core_binary _ _ _ _ _ _) as [[mz ez] lz].
  apply binary_round_aux_abs.
Qed.

Lemma py_max_abs_nonneg (a b : float) :
  nonneg_or_nan (py_max (fabs a) (fabs b)) = true.
Proof.
  unfold py_max. destruct (flt (fabs a) (fabs b)); [destruct b | destruct a]; reflexivity.
Qed.

Lemma guard_both_zero (a b : float) :
  feq b a && feq a fzero = is_zero a && is_zero b.
Proof.
  destruct a as [sa | sa | | sa ma ea], b as [sb | sb | | sb mb eb];
    try destruct sa; try destruct sb; try reflexivity;
    cbn; apply andb_false_r.
Qed.

(** Away from a zero against NaN the relative comparison returns, and its
    verdict is: equal for two zeros, otherwise the test
    [|a - b| / max(|a|, |b|) < tolerance]. *)
Lemma relatively_compare_returns (a b t : float) :
  is_zero a && is_nan b = false ->
  relatively_compare a b t =
  Ok (if is_zero a && is_zero b then true
      else flt (fdiv (fabs (fsub a b)) (py_max (fabs a) (fabs b))) t).
Proof.
  intros Hdom. unfold relatively_compare. rewrite guard_both_zero.
  destruct (is_zero a && is_zero b) eqn:Hguard; [reflexivity | ].
  unfold py_truediv.
  destruct (feq (py_max (fabs a) (fabs b)) fzero) eqn:Hdiv.
  - exfalso. apply py_max_abs_zero in Hdiv. destruct Hdiv as [Ha [Hb | Hb]].
    + rewrite Ha, Hb in Hguard. discriminate Hguard.
    + rewrite Ha, Hb in Hdom. discriminate Hdom.
  - cbn [bind]. rewrite fabs_fdiv by apply py_max_abs_nonneg. reflexivity.
Qed.

Lemma relatively_compare_zero_nan (a b t : float) :
  is_zero a = true -> is_nan b = true ->
  relatively_compare a b t = Raise ZeroDivisionError.
Proof.
  destruct a, b; try discriminate; reflexivity.
Qed.

(** ** The number comparator *)

(** *** Numbers that binary64 holds exactly *)

Local Open Scope Z_scope.

Lemma shl_Zpos (q : positive) (n : Z) : 0 <= n -> Zpos (shl q n) = Zpos q * 2 ^ n.
Proof.
  intros Hn. destruct n as [ | d | d]; cbn [shl]; [lia | | lia].
  revert q. induction d as [ | d IH] using Pos.peano_ind; intros q.
  - cbn. lia.
  - rewrite Pos.iter_succ. rewrite Pos2Z.inj_xO, IH, Pos2Z.inj_succ, Z.pow_succ_r by lia. lia.
Qed.








Lemma digits2_log2 (q : positive) : Zpos (digits2_pos q) = Z.log2 (Zpos q) + 1.
Proof.
  assert (Hsize : forall p, digits2_pos p = Pos.size p).
  { induction p as [p IH | p IH | ]; cbn; rewrite ?IH; reflexivity. }
  destruct q as [q | q | ]; cbn [digits2_pos Z.log2]; rewrite ?Hsize; lia.
Qed.

Lemma digits2_bound (q : positive) : Zpos q < 2 ^ 53 -> Zpos (digits2_pos q) <= 53.
Proof.
  intros H. rewrite digits2_log2.
  apply Z.log2_lt_pow2 in H; lia.
Qed.

Lemma digits2_mono (p q : positive) :
  (p <= q)%positive -> Zpos (digits2_pos p) <= Zpos (digits2_pos q).
Proof.
  intros H. rewrite !digits2_log2.
  assert (Z.log2 (Zpos p) <= Z.log2 (Zpos q)) by (apply Z.log2_le_mono; lia). lia.
Qed.

Lemma digits2_lt (p q : positive) :
  Zpos (digits2_pos p) < Zpos (digits2_pos q) -> (p < q)%positive.
Proof.
  intros H. destruct (Pos.lt_total p q) as [Hlt | [Heq | Hgt]]; [exact Hlt | | ].
  - subst q. lia.
  - assert (Zpos (digits2_pos q) <= Zpos (digits2_pos p)).
    { apply digits2_mono. lia. }
    lia.
Qed.











Lemma exact_double_value (z e : Z) (s : bool) (m : positive) (ex : Z) :
  Z.abs z < 2 ^ 53 ->
  exact_double z e = S754_finite s m ex ->
  s = (z <? 0) /\ ex <= e /\ Zpos m = Z.abs z * 2 ^ (e - ex).
Proof.
  intros Hz H.
  destruct z as [ | q | q]; unfold exact_double in H; [discriminate H | | ];
    assert (Hm : m = shl q (53 - Zpos (digits2_pos q))) by congruence;
    assert (Hex : ex = e + Zpos (digits2_pos q) - 53) by congruence;
    [assert (Hs : s = false) by congruence | assert (Hs : s = true) by congruence];
    clear H; subst s m ex;
    pose proof (@digits2_bound q ltac:(lia)) as HD;
    (split; [reflexivity | ]); (split; [lia | ]);
    rewrite shl_Zpos by lia; cbn [Z.abs]; f_equal; f_equal; lia.
Qed.


Local Close Scope Z_scope.

(** C7. In relative mode, with the old value a zero and the new value NaN,
    the guard for two zeros does not fire, [max(|0.0|, |nan|)] is 0.0 and
    the division raises [ZeroDivisionError]: whatever the tolerance, the
    comparator returns no verdict. *)
Theorem relative_mode_zero_against_nan (s : bool) (t : float) :
  NumberComparator_compare
    {| nc_one := VFloat (S754_zero s); nc_other := VFloat fnan;
       tol_mode := "relative"; tolerance := t |}
  = Raise ZeroDivisionError.
Proof.
  unfold NumberComparator_compare. cbn [nc_one nc_other tol_mode tolerance py_float bind].
  rewrite String.eqb_refl. apply relatively_compare_zero_nan; reflexivity.
Qed.

(** ** Sets of column labels *)

Lemma mem_In (c : string) (s : list string) : mem c s = true <-> In c s.
Proof.
  unfold mem. rewrite existsb_exists. split.
  - intros [x [Hin Heq]]. apply String.eqb_eq in Heq. subst x. exact Hin.
  - intros Hin. exists c. split; [exact Hin | apply String.eqb_refl].
Qed.

Lemma issubset_spec (a b : list string) :
  issubset a b = true <-> (forall c, In c a -> In c b).
Proof.
  unfold issubset. rewrite forallb_forall. split; intros H c Hc.
  - apply mem_In. exact (H c Hc).
  - apply mem_In. exact (H c Hc).
Qed.

Lemma In_intersection (c : string) (a b : list string) :
  In c (intersection a b) <-> In c a /\ In c b.
Proof.
  unfold intersection. rewrite filter_In, mem_In. reflexivity.
Qed.

Lemma In_difference (c : string) (a b : list string) :
  In c (difference a b) <-> In c a /\ ~ In c b.
Proof.
  unfold difference. rewrite filter_In, negb_true_iff, <- not_true_iff_false, mem_In.
  reflexivity.
Qed.

(** ** The subset check *)

(** With all the columns of the old frame as the subset the assertion of
    [_check_subset] cannot hold: key columns that are common to both frames
    are columns of the old frame, hence inside the subset. *)
Lemma check_subset_all_columns (one_columns other_columns on : list string) :
  _check_subset one_columns other_columns on (Some one_columns)
  = Raise AssertionError.
Proof.
  unfold _check_subset, bind.
  destruct (Nat.ltb 0 (List.length on)); [ | reflexivity].
  destruct (issubset on one_columns) eqn:Hsub; [reflexivity | ].
  destruct (issubset on (intersection one_columns other_columns)) eqn:Hj;
    [ | reflexivity].
  exfalso. apply not_true_iff_false in Hsub. apply Hsub.
  apply issubset_spec. intros c Hc.
  rewrite issubset_spec in Hj. apply Hj in Hc.
  apply In_intersection in Hc. tauto.
Qed.

Lemma init_check_raises (one other : DataFrame) (on : list string)
    (subset : option (list string)) (mode : string) (tol : float) (ic : bool)
    (e : exn) :
  _check_subset (columns one) (columns other) on
                (Some (subset_or_columns subset one)) = Raise e ->
  DataFrameComparator_init one other on subset mode tol ic = Raise e.
Proof.
  intros H. unfold DataFrameComparator_init. rewrite H. reflexivity.
Qed.

Lemma init_default_subset (one other : DataFrame) (on : list string)
    (subset : option (list string)) (mode : string) (tol : float) (ic : bool) :
  subset_or_columns subset one = columns one ->
  DataFrameComparator_init one other on subset mode tol ic = Raise AssertionError.
Proof.
  intros H. apply init_check_raises. rewrite H. apply check_subset_all_columns.
Qed.

(** What a successful construction went through. *)
Lemma init_Ok_inv (one other : DataFrame) (on : list string)
    (subset : option (list string)) (mode : string) (tol : float) (ic : bool)
    (st : DataFrameComparator) :
  DataFrameComparator_init one other on subset mode tol ic = Ok st ->
  _check_subset (columns one) (columns other) on
                (Some (subset_or_columns subset one)) = Ok (Comparators.subset st)
  /\ _prepare_data one other on (Comparators.subset st) = Ok (_one st, _other st)
  /\ _prepare_comparators (_one st) (Comparators.subset st) = Ok (comparators st)
  /\ _compare (Comparators.subset st) (comparators st) (_one st) (_other st) mode tol ic
     = Ok (_comparison st, _mask st).
Proof.
  unfold DataFrameComparator_init.
  destruct (_check_subset _ _ _ _) as [checked | | ] eqn:H1; cbn; try discriminate.
  destruct (_prepare_data _ _ _ _) as [[a b] | | ] eqn:H2; cbn; try discriminate.
  destruct (_prepare_comparators _ _) as [cmps | | ] eqn:H3; cbn; try discriminate.
  destruct (_compare _ _ _ _ _ _ _) as [[cmp mask] | | ] eqn:H4; cbn; try discriminate.
  intros H. injection H as H. subst st. cbn in *. auto.
Qed.

(** C4. When a column of the given compared subset is also a key column,
    construction raises: [_check_subset], which reads only the column
    labels of the two frames, raises [AssertionError] (every key column is
    in the subset, or the key list is empty or not common) or [KeyError]
    (invalid subset elements, or no common column besides the keys), and
    the constructor passes that exception on before it touches a row. *)
Theorem overlapping_subset_rejected
    (one other : DataFrame) (on l : list string) (mode : string) (tol : float)
    (ic : bool) (c : string) :
  In c l -> In c on ->
  exists e : exn,
    (e = AssertionError \/ e = KeyError)
    /\ _check_subset (columns one) (columns other) on (Some l) = Raise e
    /\ DataFrameComparator_init one other on (Some l) mode tol ic = Raise e.
Proof.
  intros Hl Hon.
  assert (Hsub : subset_or_columns (Some l) one = l).
  { destruct l; [destruct Hl | reflexivity]. }
  assert (Hc : exists e, (e = AssertionError \/ e = KeyError)
             /\ _check_subset (columns one) (columns other) on (Some l) = Raise e).
  { unfold _check_subset, bind.
    destruct (negb _); [exists AssertionError; auto | ].
    destruct (Nat.eqb _ 0); [exists KeyError; auto | ].
    destruct (issubset l _) eqn:Hs; [ | exists KeyError; auto].
    exfalso. rewrite issubset_spec in Hs. apply Hs in Hl.
    apply In_difference in Hl. tauto. }
  destruct Hc as [e [He Hc]]. exists e. split; [exact He | ]. split; [exact Hc | ].
  apply init_check_raises. rewrite Hsub. exact Hc.
Qed.

(** C10. With the subset omitted and a non-empty key list drawn from the
    columns of the old frame, the default subset is the list of all columns
    of the old frame, it contains every key column, and the subset check
    raises [AssertionError]: construction fails. *)
Theorem omitted_subset_rejected
    (one other : DataFrame) (on : list string) (mode : string) (tol : float)
    (ic : bool) :
  on <> [] ->
  (forall c, In c on -> In c (columns one)) ->
  subset_or_columns None one = columns one
  /\ issubset on (subset_or_columns None one) = true
  /\ _check_subset (columns one) (columns other) on
                   (Some (subset_or_columns None one)) = Raise AssertionError
  /\ DataFrameComparator_init one other on None mode tol ic = Raise AssertionError.
Proof.
  intros _ Hon. split; [reflexivity | ]. split.
  - apply issubset_spec. exact Hon.
  - split.
    + apply check_subset_all_columns.
    + apply init_default_subset. reflexivity.
Qed.

Lemma init_subset_nonempty (one other : DataFrame) (on : list string)
    (sub : option (list string)) (mode : string) (tol : float) (ic : bool)
    (st : DataFrameComparator) :
  DataFrameComparator_init one other on sub mode tol ic = Ok st ->
  Comparators.subset st <> [].
Proof.
  intros Hst Hempty.
  destruct (init_Ok_inv _ _ _ _ _ _ _ Hst) as [Hcheck _].
  rewrite Hempty in Hcheck.
  assert (Hdef : subset_or_columns sub one = columns one \/
                 exists c l, subset_or_columns sub one = c :: l).
  { destruct sub as [[ | c l] | ]; cbn; eauto. }
  destruct Hdef as [Hdef | [c [l Hdef]]].
  - rewrite Hdef, check_subset_all_columns in Hcheck. discriminate Hcheck.
  - rewrite Hdef in Hcheck. unfold _check_subset, bind in Hcheck.
    destruct (negb _); [discriminate Hcheck | ].
    destruct (Nat.eqb _ 0); [discriminate Hcheck | ].
    destruct (issubset (c :: l) _); discriminate Hcheck.
Qed.

(** C3, as the code has it. An empty subset is not a comparison of no
    columns: [subset or one.columns.tolist()] replaces it by all the columns
    of the old frame, so construction does exactly what it does with the
    subset omitted, and a comparator that was constructed always compares at
    least one column. *)
Theorem empty_subset_is_omitted_subset
    (one other : DataFrame) (on : list string) (mode : string) (tol : float)
    (ic : bool) :
  subset_or_columns (Some []) one = columns one
  /\ DataFrameComparator_init one other on (Some []) mode tol ic
     = DataFrameComparator_init one other on None mode tol ic
  /\ (forall (sub : option (list string)) (st : DataFrameComparator),
        DataFrameComparator_init one other on sub mode tol ic = Ok st ->
        Comparators.subset st <> []).
Proof.
  split; [reflexivity | ]. split; [reflexivity | ].
  intros sub st. apply init_subset_nonempty.
Qed.

(** ** Matching of row labels is an equivalence *)

Lemma float_match_same (x y : float) :
  feq x y || (is_nan x && is_nan y) = true <-> float_same x y.
Proof.
  unfold feq, SFeqb.
  destruct x as [s1 | s1 | | s1 m1 e1], y as [s2 | s2 | | s2 m2 e2];
    try destruct s1; try destruct s2; cbn;
    try tauto;
    try (split; [discriminate | tauto]);
    try (split; [discriminate | intros [H _]; discriminate H]);
    try (split; [discriminate | intros H; discriminate H]);
    change (Pos.compare_cont Eq m1 m2) with (Pos.compare m1 m2);
    destruct (Z.compare_spec e1 e2) as [He | He | He];
    destruct (Pos.compare_spec m1 m2) as [Hm | Hm | Hm]; cbn; subst;
    split; try discriminate; try tauto;
    intros [_ [Hm' He']]; subst; lia.
Qed.

Lemma float_same_refl (x : float) : float_same x x.
Proof. destruct x; cbn; auto. Qed.

Lemma float_same_sym (x y : float) : float_same x y -> float_same y x.
Proof. destruct x, y; cbn; intuition congruence. Qed.

Lemma float_same_trans (x y z : float) :
  float_same x y -> float_same y z -> float_same x z.
Proof. destruct x, y, z; cbn; intuition congruence. Qed.

Lemma value_eqb_refl (a : value) : value_eqb a a = true.
Proof.
  destruct a as [f | s | ]; cbn.
  - apply float_match_same, float_same_refl.
  - apply String.eqb_refl.
  - reflexivity.
Qed.

Lemma value_eqb_sym (a b : value) : value_eqb a b = true -> value_eqb b a = true.
Proof.
  destruct a as [f | s | ], b as [g | t | ]; cbn; try discriminate; auto.
  - rewrite !float_match_same. apply float_same_sym.
  - rewrite String.eqb_sym. auto.
Qed.

Lemma value_eqb_trans (a b c : value) :
  value_eqb a b = true -> value_eqb b c = true -> value_eqb a c = true.
Proof.
  destruct a as [f | s | ], b as [g | t | ], c as [h | u | ]; cbn;
    try discriminate; auto.
  - rewrite !float_match_same. apply float_same_trans.
  - rewrite !String.eqb_eq. congruence.
Qed.

Lemma key_eqb_refl (k : key) : key_eqb k k = true.
Proof.
  induction k as [ | a k IH]; cbn; [reflexivity | ].
  rewrite value_eqb_refl. exact IH.
Qed.

Lemma key_eqb_sym (k1 k2 : key) : key_eqb k1 k2 = true -> key_eqb k2 k1 = true.
Proof.
  revert k2. induction k1 as [ | a k1 IH]; intros [ | b k2]; cbn; try discriminate; auto.
  rewrite !andb_true_iff. intros [H1 H2]. split.
  - apply value_eqb_sym. exact H1.
  - apply IH. exact H2.
Qed.

Lemma key_eqb_trans (k1 k2 k3 : key) :
  key_eqb k1 k2 = true -> key_eqb k2 k3 = true -> key_eqb k1 k3 = true.
Proof.
  revert k2 k3.
  induction k1 as [ | a k1 IH]; intros [ | b k2] [ | c k3]; cbn; try discriminate; auto.
  rewrite !andb_true_iff. intros [H1 H2] [H3 H4]. split.
  - exact (value_eqb_trans _ _ _ H1 H3).
  - exact (IH _ _ H2 H4).
Qed.

Lemma key_eqb_congr (k1 k2 k : key) :
  key_eqb k1 k2 = true -> key_eqb k1 k = key_eqb k2 k.
Proof.
  intros H. destruct (key_eqb k2 k) eqn:H2.
  - exact (key_eqb_trans _ _ _ H H2).
  - destruct (key_eqb k1 k) eqn:H1; [ | reflexivity].
    rewrite <- H2. symmetry.
    exact (key_eqb_trans _ _ _ (key_eqb_sym _ _ H) H1).
Qed.

Lemma contains_spec (idx : list key) (k : key) :
  contains idx k = true <-> exists k', In k' idx /\ key_eqb k k' = true.
Proof. unfold contains. apply existsb_exists. Qed.

Lemma contains_congr (idx : list key) (k1 k2 : key) :
  key_eqb k1 k2 = true -> contains idx k1 = contains idx k2.
Proof.
  intros H. unfold contains. induction idx as [ | a idx IH]; cbn; [reflexivity | ].
  rewrite IH, (key_eqb_congr _ _ _ H). reflexivity.
Qed.

Lemma contains_In (idx : list key) (k : key) : In k idx -> contains idx k = true.
Proof.
  intros H. apply contains_spec. exists k. split; [exact H | apply key_eqb_refl].
Qed.

Lemma contains_app (l1 l2 : list key) (k : key) :
  contains (l1 ++ l2) k = contains l1 k || contains l2 k.
Proof. unfold contains. apply existsb_app. Qed.

Lemma contains_incl (l1 l2 : list key) (k : key) :
  incl l1 l2 -> contains l1 k = true -> contains l2 k = true.
Proof.
  intros Hincl. rewrite !contains_spec. intros [k' [Hin Hk]].
  exists k'. split; [apply Hincl; exact Hin | exact Hk].
Qed.

(** ** Loops and selections *)

Lemma mapM_Ok_Forall2 {A B : Type} (f : A -> result B) (l : list A) (r : list B) :
  mapM f l = Ok r -> Forall2 (fun x y => f x = Ok y) l r.
Proof.
  revert r. induction l as [ | x l IH]; cbn; intros r H.
  - injection H as H. subst r. constructor.
  - destruct (f x) as [y | | ] eqn:Hx; cbn in H; try discriminate H.
    destruct (mapM f l) as [ys | | ]; cbn in H; try discriminate H.
    injection H as H. subst r. constructor; [exact Hx | apply IH; reflexivity].
Qed.

Lemma mapM_Ok_length {A B : Type} (f : A -> result B) (l : list A) (r : list B) :
  mapM f l = Ok r -> List.length r = List.length l.
Proof.
  intros H. apply mapM_Ok_Forall2 in H. symmetry. exact (Forall2_length H).
Qed.

Lemma mapM_map {A B : Type} (f : A -> result B) (g : A -> B) (l : list A) :
  (forall x, In x l -> f x = Ok (g x)) -> mapM f l = Ok (map g l).
Proof.
  induction l as [ | x l IH]; cbn; intros H; [reflexivity | ].
  rewrite (H x (or_introl eq_refl)). cbn. rewrite IH; [reflexivity | ].
  intros y Hy. apply H. right. exact Hy.
Qed.

(** A loop in which some step raises, and no step leaves the model, ends
    with the exception of one of its steps. *)
Lemma mapM_raises {A B : Type} (f : A -> result B) (l : list A) :
  (forall x, In x l -> f x <> OutOfModel) ->
  (exists x e, In x l /\ f x = Raise e) ->
  exists x e, In x l /\ f x = Raise e /\ mapM f l = Raise e.
Proof.
  induction l as [ | x l IH]; intros Hm [x0 [e0 [Hin Hx0]]]; [destruct Hin | ].
  cbn. destruct (f x) as [y | e | ] eqn:Hx.
  - destruct Hin as [Heq | Hin]; [subst x0; congruence | ].
    destruct IH as [x1 [e1 [Hin1 [Hf1 Hm1]]]].
    + intros z Hz. apply Hm. right. exact Hz.
    + exists x0, e0. auto.
    + exists x1, e1. split; [right; exact Hin1 | ]. split; [exact Hf1 | ].
      cbn. rewrite Hm1. reflexivity.
  - exists x, e. split; [left; reflexivity | ]. split; [exact Hx | reflexivity].
  - exfalso. apply (Hm x (or_introl eq_refl)). exact Hx.
Qed.

Lemma loc_mask_map {A : Type} (f : A -> bool) (l : list A) :
  loc_mask l (map f l) = filter f l.
Proof.
  unfold loc_mask. induction l as [ | x l IH]; cbn; [reflexivity | ].
  destruct (f x); cbn; rewrite IH; reflexivity.
Qed.

Lemma loc_mask_incl {A : Type} (l : list A) (m : list bool) :
  incl (loc_mask l m) l.
Proof.
  unfold loc_mask. revert m. induction l as [ | x l IH]; intros [ | b m]; cbn;
    try (intros y Hy; destruct Hy).
  destruct b; cbn.
  - intros y [Hy | Hy]; [left; exact Hy | right; exact (IH m y Hy)].
  - intros y Hy. right. exact (IH m y Hy).
Qed.

Lemma rows_deleted_filter (st : DataFrameComparator) :
  rows_deleted st
  = filter (fun r => negb (contains (keys (_other st)) (fst r))) (_one st).
Proof.
  unfold rows_deleted, isin, keys. rewrite !map_map. apply loc_mask_map.
Qed.

Lemma rows_inserted_filter (st : DataFrameComparator) :
  rows_inserted st
  = filter (fun r => negb (contains (keys (_one st)) (fst r))) (_other st).
Proof.
  unfold rows_inserted, isin, keys. rewrite !map_map. apply loc_mask_map.
Qed.

Lemma keys_filter (f : key -> bool) (df : indexed) :
  keys (filter (fun r => f (fst r)) df) = filter f (keys df).
Proof.
  unfold keys. induction df as [ | r df IH]; cbn; [reflexivity | ].
  destruct (f (fst r)); cbn; rewrite IH; reflexivity.
Qed.

Lemma contains_filter (f : key -> bool) (idx : list key) (k : key) :
  (forall k1 k2, key_eqb k1 k2 = true -> f k1 = f k2) ->
  contains (filter f idx) k = contains idx k && f k.
Proof.
  intros Hf. unfold contains. induction idx as [ | a idx IH]; cbn; [reflexivity | ].
  destruct (key_eqb k a) eqn:Hka.
  - rewrite <- (Hf _ _ Hka). destruct (f k); cbn.
    + rewrite Hka. reflexivity.
    + rewrite IH, andb_false_r. reflexivity.
  - destruct (f a); cbn; [rewrite Hka | ]; exact IH.
Qed.

(** The labels selected by a mask and by its complement split the index:
    when no two labels of the index match, a label that matches one in the
    index is found under exactly one of the two. *)
Lemma loc_mask_contains (idx : list key) (m : list bool) (k : key) :
  contains (loc_mask idx m) k = true -> contains idx k = true.
Proof. apply contains_incl, loc_mask_incl. Qed.

Lemma loc_mask_cons {A : Type} (a : A) (l : list A) (b : bool) (m : list bool) :
  loc_mask (a :: l) (b :: m) = if b then a :: loc_mask l m else loc_mask l m.
Proof. destruct b; reflexivity. Qed.

Lemma contains_cons (a : key) (l : list key) (k : key) :
  contains (a :: l) k = key_eqb k a || contains l k.
Proof. reflexivity. Qed.

Lemma loc_mask_split (idx : list key) (m : list bool) (k : key) :
  List.length m = List.length idx ->
  unique_keys idx = true ->
  contains idx k = true ->
  contains (loc_mask idx m) k = negb (contains (loc_mask idx (map negb m)) k).
Proof.
  revert m. induction idx as [ | a idx IH]; intros [ | b m] Hlen Huniq Hk;
    try discriminate Hlen; try discriminate Hk.
  injection Hlen as Hlen.
  cbn [unique_keys] in Huniq. apply andb_true_iff in Huniq.
  destruct Huniq as [Ha Huniq]. apply negb_true_iff in Ha.
  assert (Hnot : key_eqb k a = true -> forall m', contains (loc_mask idx m') k = false).
  { intros Hka m'. apply not_true_iff_false. intros Hc.
    apply loc_mask_contains in Hc. rewrite (contains_congr idx _ _ Hka) in Hc.
    congruence. }
  rewrite contains_cons in Hk. cbn [map]. rewrite !loc_mask_cons.
  destruct b; cbn [negb]; rewrite contains_cons;
    destruct (key_eqb k a) eqn:Hka; cbn [orb negb] in *.
  - rewrite (Hnot eq_refl). reflexivity.
  - apply IH; assumption.
  - rewrite (Hnot eq_refl). reflexivity.
  - apply IH; assumption.
Qed.

Lemma key_eqb_comm (k1 k2 : key) : key_eqb k1 k2 = key_eqb k2 k1.
Proof.
  destruct (key_eqb k1 k2) eqn:H12, (key_eqb k2 k1) eqn:H21; try reflexivity.
  - apply key_eqb_sym in H12. congruence.
  - apply key_eqb_sym in H21. congruence.
Qed.

Lemma keys_rows_labelled (df : indexed) (l : key) :
  keys (rows_labelled df l) = filter (key_eqb l) (keys df).
Proof. unfold rows_labelled. apply keys_filter. Qed.

Lemma rows_labelled_nonempty (df : indexed) (l : key) :
  contains (keys df) l = true -> rows_labelled df l <> [].
Proof.
  intros Hc Hnil. apply contains_spec in Hc. destruct Hc as [k' [Hin Hk]].
  unfold keys in Hin. apply in_map_iff in Hin. destruct Hin as [r [Hr Hin]].
  assert (Hf : In r (rows_labelled df l)).
  { unfold rows_labelled. apply filter_In. split; [exact Hin | ].
    rewrite Hr. exact Hk. }
  rewrite Hnil in Hf. destruct Hf.
Qed.

Lemma contains_rows_labelled (df : indexed) (l k : key) :
  contains (keys df) l = true ->
  contains (keys (rows_labelled df l)) k = key_eqb k l.
Proof.
  intros Hl. rewrite keys_rows_labelled, contains_filter.
  - rewrite (key_eqb_comm l k). destruct (key_eqb k l) eqn:Hkl.
    + rewrite (contains_congr _ _ _ Hkl), Hl. reflexivity.
    + apply andb_false_r.
  - intros k1 k2 H. rewrite !(key_eqb_comm l). apply key_eqb_congr. exact H.
Qed.

(** Selecting rows by labels that all occur in the index succeeds, and the
    keys selected are those that match one of the labels. *)
Lemma no_missing_key_label (idx : list key) (l : key) :
  no_missing_key idx = true -> In l idx -> missing_label l = false.
Proof.
  unfold no_missing_key. rewrite forallb_forall. intros H Hl.
  specialize (H l Hl). apply negb_true_iff in H.
  destruct l as [ | v [ | w l]]; try reflexivity.
  cbn in H. apply orb_false_iff in H. apply H.
Qed.

Lemma loc_labels_Ok (df : indexed) (labels : list key) :
  (forall l, In l labels -> missing_label l = false) ->
  (forall l, In l labels -> contains (keys df) l = true) ->
  loc_labels df labels = Ok (flat_map (rows_labelled df) labels).
Proof.
  intros Hm H. unfold loc_labels.
  destruct labels as [ | l0 labels]; [reflexivity | ].
  assert (Hno : forallb missing_label (l0 :: labels) = false).
  { cbn [forallb]. rewrite (Hm l0) by (left; reflexivity). reflexivity. }
  rewrite Hno.
  rewrite (mapM_map _ (rows_labelled df)).
  - cbn [bind]. rewrite flat_map_concat_map. reflexivity.
  - intros l Hl. pose proof (rows_labelled_nonempty df l (H l Hl)) as Hne.
    destruct (rows_labelled df l); [congruence | reflexivity].
Qed.

Lemma contains_flat_map_rows (df : indexed) (labels : list key) (k : key) :
  (forall l, In l labels -> contains (keys df) l = true) ->
  contains (keys (flat_map (rows_labelled df) labels)) k = contains labels k.
Proof.
  induction labels as [ | l labels IH]; intros H; [reflexivity | ].
  cbn [flat_map]. unfold keys in *. rewrite map_app, contains_app, contains_cons.
  rewrite IH.
  - fold (keys (rows_labelled df l)). rewrite contains_rows_labelled; [reflexivity | ].
    apply H. left. reflexivity.
  - intros l' Hl'. apply H. right. exact Hl'.
Qed.

(** ** What [_prepare_data] and [_compare] return *)

Lemma cell_map (f : string -> value) (rest : list string) (c : string) :
  In c rest -> cell rest (map f rest) c = f c.
Proof.
  unfold cell. induction rest as [ | c' rest IH]; intros Hin; [destruct Hin | ].
  cbn. destruct (String.eqb c c') eqn:Hc.
  - apply String.eqb_eq in Hc. subst c'. reflexivity.
  - apply IH. destruct Hin as [Heq | Hin]; [ | exact Hin].
    subst c'. rewrite String.eqb_refl in Hc. discriminate Hc.
Qed.

Lemma set_index_getitem (df : DataFrame) (on sub : list string) (a : indexed) :
  (f <- set_index df on ;; getitem f sub) = Ok a -> a = prepared df on sub.
Proof.
  unfold set_index, getitem, bind.
  destruct (issubset on (columns df)); [ | discriminate].
  cbn [fst snd]. destruct (issubset sub _) eqn:Hsub; [ | discriminate].
  intros H. injection H as H. subst a. unfold prepared. rewrite map_map.
  apply map_ext. intros row. cbn [fst snd]. f_equal.
  apply map_ext_in. intros c Hc. apply cell_map.
  rewrite issubset_spec in Hsub. apply Hsub. exact Hc.
Qed.

Lemma prepare_data_Ok_inv (one other : DataFrame) (on sub : list string)
    (a b : indexed) :
  _prepare_data one other on sub = Ok (a, b) ->
  a = prepared one on sub /\ b = prepared other on sub.
Proof.
  unfold _prepare_data.
  destruct (rectangular one && rectangular other && nodupb on && nodupb sub);
    [ | discriminate].
  destruct (f <- set_index one on ;; getitem f sub) as [a' | | ] eqn:Ha;
    cbn [bind]; try discriminate.
  destruct (f <- set_index other on ;; getitem f sub) as [b' | | ] eqn:Hb;
    cbn [bind]; try discriminate.
  intros H. injection H as H1 H2. subst a' b'.
  split; apply set_index_getitem; assumption.
Qed.

Lemma keys_prepared (df : DataFrame) (on sub : list string) :
  keys (prepared df on sub) = table_keys df on.
Proof. unfold keys, prepared, table_keys. rewrite map_map. reflexivity. Qed.

Lemma compare_Ok_inv (sub : list string) (cmps : list comparator)
    (a b : indexed) (mode : string) (tol : float) (ic : bool)
    (cmp : Comparison) (mask : list bool) :
  _compare sub cmps a b mode tol ic = Ok (cmp, mask) ->
  cmp_index cmp = filter (contains (keys b)) (keys a)
  /\ mask = map (fun j => py_all (comparison_row (cmp_columns cmp) j))
                (seq 0 (List.length (cmp_index cmp)))
  /\ mapM (compare_column cmps a b mode tol ic (cmp_index cmp)) (enumerate sub)
     = Ok (cmp_columns cmp).
Proof.
  unfold _compare, isin. rewrite loc_mask_map.
  destruct (mapM _ (enumerate sub)) as [cols | | ] eqn:Hcols; cbn [bind];
    try discriminate.
  intros H. injection H as H1 H2. subst cmp mask. cbn. auto.
Qed.

(** ** The constructed comparator *)

Lemma seq_map_length {A : Type} (f : nat -> A) (n : nat) :
  List.length (map f (seq 0 n)) = n.
Proof. rewrite length_map, length_seq. reflexivity. Qed.

Lemma init_state (one other : DataFrame) (on : list string)
    (subset : option (list string)) (mode : string) (tol : float) (ic : bool)
    (st : DataFrameComparator) :
  DataFrameComparator_init one other on subset mode tol ic = Ok st ->
  _one st = prepared one on (Comparators.subset st)
  /\ _other st = prepared other on (Comparators.subset st)
  /\ keys (_one st) = table_keys one on
  /\ keys (_other st) = table_keys other on
  /\ cmp_index (_comparison st)
     = filter (contains (keys (_other st))) (keys (_one st))
  /\ List.length (_mask st) = List.length (cmp_index (_comparison st)).
Proof.
  intros H. destruct (init_Ok_inv _ _ _ _ _ _ _ H) as [_ [Hp [_ Hc]]].
  apply prepare_data_Ok_inv in Hp. destruct Hp as [Ha Hb].
  apply compare_Ok_inv in Hc. destruct Hc as [Hidx [Hmask _]].
  repeat split; try assumption.
  - rewrite Ha. apply keys_prepared.
  - rewrite Hb. apply keys_prepared.
  - rewrite Hmask. apply seq_map_length.
Qed.

Lemma contains_filter_contains (idx other_idx : list key) (k : key) :
  contains (filter (contains other_idx) idx) k
  = contains idx k && contains other_idx k.
Proof. apply contains_filter. intros k1 k2. apply contains_congr. Qed.

Lemma contains_filter_absent (idx other_idx : list key) (k : key) :
  contains (filter (fun k' => negb (contains other_idx k')) idx) k
  = contains idx k && negb (contains other_idx k).
Proof.
  apply (contains_filter (fun k' => negb (contains other_idx k'))).
  intros k1 k2 H. rewrite (contains_congr _ _ _ H). reflexivity.
Qed.

Lemma has_key_rows_deleted (st : DataFrameComparator) (k : key) :
  has_key (rows_deleted st) k
  = contains (keys (_one st)) k && negb (contains (keys (_other st)) k).
Proof.
  unfold has_key. rewrite rows_deleted_filter.
  rewrite (keys_filter (fun k' => negb (contains (keys (_other st)) k'))).
  apply contains_filter_absent.
Qed.

Lemma has_key_rows_inserted (st : DataFrameComparator) (k : key) :
  has_key (rows_inserted st) k
  = contains (keys (_other st)) k && negb (contains (keys (_one st)) k).
Proof.
  unfold has_key. rewrite rows_inserted_filter.
  rewrite (keys_filter (fun k' => negb (contains (keys (_one st)) k'))).
  apply contains_filter_absent.
Qed.

Lemma unique_keys_filter (f : key -> bool) (idx : list key) :
  unique_keys idx = true -> unique_keys (filter f idx) = true.
Proof.
  induction idx as [ | a idx IH]; cbn; [reflexivity | ].
  rewrite andb_true_iff, negb_true_iff. intros [Ha Hu].
  destruct (f a); cbn; [ | exact (IH Hu)].
  rewrite (IH Hu), andb_true_r, negb_true_iff.
  apply not_true_iff_false. intros Hc.
  apply contains_incl with (l2 := idx) in Hc; [congruence | apply incl_filter].
Qed.

(** The labels under which the three common partitions are read are labels
    of the comparison frame, hence keys of both prepared frames. *)
Lemma comparison_labels (st : DataFrameComparator) (m : list bool) (l : key) :
  cmp_index (_comparison st)
  = filter (contains (keys (_other st))) (keys (_one st)) ->
  In l (loc_mask (cmp_index (_comparison st)) m) ->
  contains (keys (_one st)) l = true /\ contains (keys (_other st)) l = true.
Proof.
  intros Hidx Hl. apply loc_mask_incl in Hl. rewrite Hidx in Hl.
  apply filter_In in Hl. destruct Hl as [Hin Hc].
  split; [apply contains_In; exact Hin | exact Hc].
Qed.

Lemma common_partitions (st : DataFrameComparator) :
  cmp_index (_comparison st)
  = filter (contains (keys (_other st))) (keys (_one st)) ->
  no_missing_key (keys (_one st)) = true ->
  rows_in_common st
  = Ok (flat_map (rows_labelled (_one st))
                 (loc_mask (cmp_index (_comparison st)) (_mask st)))
  /\ rows_before_update st
     = Ok (flat_map (rows_labelled (_one st))
                    (loc_mask (cmp_index (_comparison st)) (map negb (_mask st))))
  /\ rows_after_update st
     = Ok (flat_map (rows_labelled (_other st))
                    (loc_mask (cmp_index (_comparison st)) (map negb (_mask st)))).
Proof.
  intros Hidx Hkeys. unfold rows_in_common, rows_before_update, rows_after_update.
  repeat split; apply loc_labels_Ok; intros l Hl;
    try apply (comparison_labels st _ l Hidx Hl);
    apply (@no_missing_key_label (keys (_one st)) l Hkeys);
    apply loc_mask_incl in Hl; rewrite Hidx in Hl;
    apply filter_In in Hl; apply Hl.
Qed.

Lemma has_key_selected (st : DataFrameComparator) (df : indexed) (m : list bool)
    (k : key) :
  cmp_index (_comparison st)
  = filter (contains (keys (_other st))) (keys (_one st)) ->
  df = _one st \/ df = _other st ->
  has_key (flat_map (rows_labelled df) (loc_mask (cmp_index (_comparison st)) m)) k
  = contains (loc_mask (cmp_index (_comparison st)) m) k.
Proof.
  intros Hidx Hdf. unfold has_key. apply contains_flat_map_rows.
  intros l Hl. destruct (comparison_labels st _ l Hidx Hl) as [H1 H2].
  destruct Hdf; subst df; assumption.
Qed.

Lemma selected_is_common (st : DataFrameComparator) (m : list bool) (k : key) :
  cmp_index (_comparison st)
  = filter (contains (keys (_other st))) (keys (_one st)) ->
  contains (loc_mask (cmp_index (_comparison st)) m) k = true ->
  contains (keys (_one st)) k = true /\ contains (keys (_other st)) k = true.
Proof.
  intros Hidx Hc. apply loc_mask_contains in Hc.
  rewrite Hidx, contains_filter_contains in Hc.
  apply andb_true_iff in Hc. exact Hc.
Qed.

(** For two tables with unique keys, no key cell of the old table being a
    missing value, a constructed comparator sorts the
    keys into disjoint partitions: a key of the old table only is in
    [rows_deleted] and in no other partition, a key of the new table only
    is in [rows_inserted] and in no other partition, and a key of both is in
    neither of these, is in [rows_before_update] exactly when it is in
    [rows_after_update], and is in [rows_in_common] exactly when it is not
    in the updated pair. No key occurs twice among the deleted or among the
    inserted rows. *)
Theorem keys_are_partitioned
    (one other : DataFrame) (on : list string) (subset : option (list string))
    (mode : string) (tol : float) (ic : bool) (st : DataFrameComparator) :
  unique_keys (table_keys one on) = true ->
  unique_keys (table_keys other on) = true ->
  no_missing_key (table_keys one on) = true ->
  DataFrameComparator_init one other on subset mode tol ic = Ok st ->
  exists common before after : indexed,
    rows_in_common st = Ok common
    /\ rows_before_update st = Ok before
    /\ rows_after_update st = Ok after
    /\ unique_keys (keys (rows_deleted st)) = true
    /\ unique_keys (keys (rows_inserted st)) = true
    /\ forall k : key,
         (contains (table_keys one on) k = true ->
          contains (table_keys other on) k = false ->
          has_key (rows_deleted st) k = true
          /\ has_key (rows_inserted st) k = false
          /\ has_key common k = false
          /\ has_key before k = false
          /\ has_key after k = false)
         /\ (contains (table_keys other on) k = true ->
             contains (table_keys one on) k = false ->
             has_key (rows_inserted st) k = true
             /\ has_key (rows_deleted st) k = false
             /\ has_key common k = false
             /\ has_key before k = false
             /\ has_key after k = false)
         /\ (contains (table_keys one on) k = true ->
             contains (table_keys other on) k = true ->
             has_key (rows_deleted st) k = false
             /\ has_key (rows_inserted st) k = false
             /\ has_key before k = has_key after k
             /\ has_key common k = negb (has_key before k)).
Proof.
  intros Hu1 Hu2 Hkeys Hinit.
  destruct (init_state _ _ _ _ _ _ _ Hinit) as [_ [_ [Hk1 [Hk2 [Hidx Hlen]]]]].
  rewrite <- Hk1, <- Hk2 in *.
  destruct (common_partitions st Hidx Hkeys) as [Hcom [Hbef Haft]].
  eexists _, _, _. split; [exact Hcom | ]. split; [exact Hbef | ].
  split; [exact Haft | ].
  split.
  { rewrite rows_deleted_filter.
    rewrite (keys_filter (fun k' => negb (contains (keys (_other st)) k'))).
    apply unique_keys_filter. exact Hu1. }
  split.
  { rewrite rows_inserted_filter.
    rewrite (keys_filter (fun k' => negb (contains (keys (_one st)) k'))).
    apply unique_keys_filter. exact Hu2. }
  intros k.
  rewrite has_key_rows_deleted, has_key_rows_inserted.
  rewrite !(@has_key_selected st _ _ k Hidx) by auto.
  assert (Hsel : forall m,
             contains (keys (_one st)) k && contains (keys (_other st)) k = false ->
             contains (loc_mask (cmp_index (_comparison st)) m) k = false).
  { intros m Hnot. apply not_true_iff_false. intros Hc.
    destruct (@selected_is_common st _ k Hidx Hc) as [H1 H2].
    rewrite H1, H2 in Hnot. discriminate Hnot. }
  split; [ | split]; intros Ha Hb.
  - repeat split; try (rewrite Ha, Hb; reflexivity);
      apply Hsel; rewrite Ha, Hb; reflexivity.
  - repeat split; try (rewrite Ha, Hb; reflexivity);
      apply Hsel; rewrite Ha, Hb; reflexivity.
  - repeat split; try (rewrite Ha, Hb; reflexivity).
    apply loc_mask_split.
    + exact Hlen.
    + rewrite Hidx. apply unique_keys_filter. exact Hu1.
    + rewrite Hidx, contains_filter_contains, Ha, Hb. reflexivity.
Qed.

(** ** The updated pair *)

Lemma mapM_Ok_In {A B : Type} (f : A -> result B) (l : list A) (r : list B) (x : A) :
  mapM f l = Ok r -> In x l -> exists y, f x = Ok y.
Proof.
  intros H. apply mapM_Ok_Forall2 in H.
  induction H as [ | x' y' l' r' Hxy _ IH]; intros Hin; [destruct Hin | ].
  destruct Hin as [Heq | Hin]; [subst x'; eauto | exact (IH Hin)].
Qed.

Lemma at_Ok_single (df : indexed) (idx : key) (i : nat) (v : value) :
  at_ df idx i = Ok v ->
  exists r, rows_labelled df idx = [r] /\ v = nth i (snd r) VNone.
Proof.
  unfold at_. destruct (rows_labelled df idx) as [ | r [ | r' rs]]; try discriminate.
  intros H. injection H as H. eauto.
Qed.

Lemma compare_cell_Ok_single (a b : indexed) (mode : string) (tol : float)
    (ic isnum : bool) (i : nat) (idx : key) (v : bool) :
  compare_cell a b mode tol ic isnum i idx = Ok v ->
  contains (keys b) idx = true ->
  (exists r, rows_labelled a idx = [r]) /\ (exists r, rows_labelled b idx = [r]).
Proof.
  unfold compare_cell. intros H Hc. rewrite Hc in H.
  destruct (at_ a idx i) as [v1 | | ] eqn:H1; cbn [bind] in H; try discriminate H.
  destruct (at_ b idx i) as [v2 | | ] eqn:H2; cbn [bind] in H; try discriminate H.
  apply at_Ok_single in H1. apply at_Ok_single in H2.
  destruct H1 as [r1 [H1 _]]. destruct H2 as [r2 [H2 _]]. eauto.
Qed.

(** Construction reads every label of the comparison frame with [.at] in
    both frames, so after it each such label names one row in each. *)
Lemma init_single_rows (one other : DataFrame) (on : list string)
    (subset : option (list string)) (mode : string) (tol : float) (ic : bool)
    (st : DataFrameComparator) (l : key) :
  DataFrameComparator_init one other on subset mode tol ic = Ok st ->
  In l (cmp_index (_comparison st)) ->
  (exists r, rows_labelled (_one st) l = [r])
  /\ (exists r, rows_labelled (_other st) l = [r]).
Proof.
  intros Hinit Hl.
  pose proof (init_subset_nonempty _ _ _ _ _ _ _ Hinit) as Hne.
  destruct (init_Ok_inv _ _ _ _ _ _ _ Hinit) as [_ [_ [_ Hc]]].
  apply compare_Ok_inv in Hc. destruct Hc as [Hidx [_ Hcols]].
  destruct (Comparators.subset st) as [ | c sub]; [congruence | ].
  apply mapM_Ok_In with (x := (0, c)) in Hcols; [ | left; reflexivity].
  destruct Hcols as [col Hcol]. unfold compare_column in Hcol.
  destruct (nth_error (comparators st) (fst (0, c))); cbn [bind] in Hcol;
    [ | discriminate Hcol].
  destruct (mapM_Ok_In _ _ l Hcol Hl) as [v Hv].
  apply compare_cell_Ok_single in Hv; [exact Hv | ].
  rewrite Hidx in Hl. apply filter_In in Hl. tauto.
Qed.

Lemma rows_labelled_In (df : indexed) (l : key) (r : key * list value) :
  In r (rows_labelled df l) -> key_eqb l (fst r) = true.
Proof. unfold rows_labelled. intros H. apply filter_In in H. tauto. Qed.

Lemma selected_rows_aligned (a b : indexed) (labels : list key) :
  (forall l, In l labels ->
     (exists r, rows_labelled a l = [r]) /\ (exists r, rows_labelled b l = [r])) ->
  Forall2 (fun x y => key_eqb (fst x) (fst y) = true)
          (flat_map (rows_labelled a) labels) (flat_map (rows_labelled b) labels).
Proof.
  induction labels as [ | l labels IH]; intros H; [constructor | ].
  destruct (H l (or_introl eq_refl)) as [[r1 H1] [r2 H2]].
  cbn [flat_map]. rewrite H1, H2. cbn [app]. constructor.
  - assert (K1 : key_eqb l (fst r1) = true).
    { apply (rows_labelled_In a). rewrite H1. left. reflexivity. }
    assert (K2 : key_eqb l (fst r2) = true).
    { apply (rows_labelled_In b). rewrite H2. left. reflexivity. }
    exact (key_eqb_trans _ _ _ (key_eqb_sym _ _ K1) K2).
  - apply IH. intros l' Hl'. apply H. right. exact Hl'.
Qed.

Lemma In_loc_mask (idx : list key) (m : list bool) (l : key) :
  In l (loc_mask idx m) <->
  exists j, nth_error idx j = Some l /\ nth_error m j = Some true.
Proof.
  revert m. induction idx as [ | a idx IH]; intros m.
  - split; [intros [] | intros [j [H _]]]. rewrite nth_error_nil in H. discriminate H.
  - destruct m as [ | b m].
    + split; [intros [] | intros [j [_ H]]]. rewrite nth_error_nil in H. discriminate H.
    + rewrite loc_mask_cons. split.
      * intros H. destruct b.
        -- destruct H as [H | H]; [exists 0; subst; auto | ].
           apply IH in H. destruct H as [j Hj]. exists (S j). exact Hj.
        -- apply IH in H. destruct H as [j Hj]. exists (S j). exact Hj.
      * intros [[ | j] [H1 H2]]; cbn in H1, H2.
        -- injection H1 as H1. injection H2 as H2. subst. left. reflexivity.
        -- assert (Hin : In l (loc_mask idx m)) by (apply IH; eauto).
           destruct b; [right | ]; exact Hin.
Qed.

Lemma py_all_false (l : list bool) : py_all l = false <-> In false l.
Proof.
  unfold py_all. induction l as [ | b l IH]; cbn.
  - split; [discriminate | intros []].
  - destruct b; cbn.
    + rewrite IH. split; [auto | intros [H | H]; [discriminate H | exact H]].
    + split; auto.
Qed.

(** ** When construction goes through *)

Lemma check_subset_Ok_inv (c1 c2 on l checked : list string) :
  _check_subset c1 c2 on (Some l) = Ok checked ->
  checked = l
  /\ issubset on (intersection c1 c2) = true
  /\ issubset l (difference (intersection c1 c2) on) = true.
Proof.
  unfold _check_subset, bind.
  destruct (Nat.ltb 0 (List.length on)); cbn [andb negb]; [ | discriminate].
  destruct (issubset on l); cbn [andb negb]; [discriminate | ].
  destruct (issubset on (intersection c1 c2)); cbn [andb negb]; [ | discriminate].
  destruct (Nat.eqb _ 0); [discriminate | ].
  destruct (issubset l _); cbn [negb]; [ | discriminate].
  intros H. injection H as H. auto.
Qed.

Lemma issubset_trans (a b c : list string) :
  issubset a b = true -> (forall x, In x b -> In x c) -> issubset a c = true.
Proof.
  rewrite !issubset_spec. intros H1 H2 x Hx. apply H2, H1, Hx.
Qed.

Lemma set_index_getitem_Ok (df : DataFrame) (on sub : list string) :
  issubset on (columns df) = true ->
  issubset sub (difference (columns df) on) = true ->
  (f <- set_index df on ;; getitem f sub) = Ok (prepared df on sub).
Proof.
  intros H1 H2.
  assert (H : exists a, (f <- set_index df on ;; getitem f sub) = Ok a).
  { unfold set_index, getitem, bind. rewrite H1. cbn [fst snd]. rewrite H2. eauto. }
  destruct H as [a Ha]. rewrite Ha. f_equal. apply set_index_getitem. exact Ha.
Qed.

Lemma prepare_data_Ok (one other : DataFrame) (on sub : list string) :
  rectangular one = true -> rectangular other = true ->
  nodupb on = true -> nodupb sub = true ->
  issubset on (intersection (columns one) (columns other)) = true ->
  issubset sub (difference (intersection (columns one) (columns other)) on) = true ->
  _prepare_data one other on sub = Ok (prepared one on sub, prepared other on sub).
Proof.
  intros R1 R2 N1 N2 Hon Hsub. unfold _prepare_data.
  rewrite R1, R2, N1, N2. cbn [andb].
  rewrite !set_index_getitem_Ok; [reflexivity | | | | ].
  - eapply issubset_trans; [exact Hon | ]. intros x Hx.
    apply In_intersection in Hx. tauto.
  - eapply issubset_trans; [exact Hsub | ]. intros x Hx.
    apply In_difference in Hx. rewrite In_intersection in Hx.
    apply In_difference. tauto.
  - eapply issubset_trans; [exact Hon | ]. intros x Hx.
    apply In_intersection in Hx. tauto.
  - eapply issubset_trans; [exact Hsub | ]. intros x Hx.
    apply In_difference in Hx. rewrite In_intersection in Hx.
    apply In_difference. tauto.
Qed.

(** Converting a column never raises anything but [ValueError], so every
    column is given a class. *)
Lemma astype_outcome (col : list value) :
  (exists fs, astype_float64 col = Ok fs) \/ astype_float64 col = Raise ValueError.
Proof.
  unfold astype_float64. induction col as [ | v col IH]; cbn [mapM].
  - left. eauto.
  - destruct v as [f | s | ]; cbn [py_float bind].
    + destruct IH as [[fs Hfs] | Hr]; rewrite ?Hfs, ?Hr; cbn [bind]; eauto.
    + destruct (float_of_str s); cbn [bind]; [ | right; reflexivity].
      destruct IH as [[fs Hfs] | Hr]; rewrite ?Hfs, ?Hr; cbn [bind]; eauto.
    + destruct IH as [[fs Hfs] | Hr]; rewrite ?Hfs, ?Hr; cbn [bind]; eauto.
Qed.

Lemma column_class_numeric (col : list value) :
  column_class col
  = Ok (if numeric_column col then NumberComparatorClass else StringComparatorClass).
Proof.
  unfold column_class, numeric_column.
  destruct (astype_outcome col) as [[fs H] | H]; rewrite H; reflexivity.
Qed.

Lemma prepare_comparators_Ok (df : indexed) (sub : list string) :
  _prepare_comparators df sub = Ok (map (class_of df) (enumerate sub)).
Proof.
  unfold _prepare_comparators. apply mapM_map. intros ic _.
  apply column_class_numeric.
Qed.

Lemma nth_error_combine_seq {A : Type} (l : list A) (s i : nat) :
  nth_error (combine (seq s (List.length l)) l) i
  = option_map (fun c => (s + i, c)) (nth_error l i).
Proof.
  revert s i. induction l as [ | a l IH]; intros s i; cbn.
  - destruct i; reflexivity.
  - destruct i as [ | i]; cbn.
    + rewrite Nat.add_0_r. reflexivity.
    + rewrite IH. rewrite Nat.add_succ_r. reflexivity.
Qed.

Lemma nth_error_enumerate {A : Type} (l : list A) (i : nat) :
  nth_error (enumerate l) i = option_map (fun c => (i, c)) (nth_error l i).
Proof. unfold enumerate. apply nth_error_combine_seq. Qed.

Lemma In_enumerate {A : Type} (l : list A) (i : nat) (c : A) :
  In (i, c) (enumerate l) <-> nth_error l i = Some c.
Proof.
  split.
  - intros H. apply In_nth_error in H. destruct H as [j Hj].
    rewrite nth_error_enumerate in Hj.
    destruct (nth_error l j) as [c' | ] eqn:Hc; cbn in Hj; [ | discriminate Hj].
    injection Hj as H1 H2. subst. exact Hc.
  - intros H. apply nth_error_In with (n := i).
    rewrite nth_error_enumerate, H. reflexivity.
Qed.

Lemma prepared_class (df : indexed) (sub : list string) (i : nat) (c : string) :
  nth_error sub i = Some c ->
  nth_error (map (class_of df) (enumerate sub)) i = Some (class_of df (i, c)).
Proof.
  intros H. rewrite nth_error_map, nth_error_enumerate, H. reflexivity.
Qed.

(** ** A frame against itself *)

Lemma rows_labelled_absent (df : indexed) (k : key) :
  contains (keys df) k = false -> rows_labelled df k = [].
Proof.
  unfold rows_labelled, contains, keys.
  induction df as [ | r df IH]; cbn; [reflexivity | ].
  rewrite orb_false_iff. intros [H1 H2]. rewrite H1. exact (IH H2).
Qed.

Lemma rows_labelled_unique (df : indexed) (r : key * list value) :
  unique_keys (keys df) = true -> In r df -> rows_labelled df (fst r) = [r].
Proof.
  induction df as [ | x df IH]; intros Hu Hin; [destruct Hin | ].
  cbn in Hu. apply andb_true_iff in Hu. destruct Hu as [Hx Hu].
  apply negb_true_iff in Hx. unfold rows_labelled. cbn [filter].
  destruct Hin as [Heq | Hin].
  - subst x. rewrite key_eqb_refl. f_equal.
    apply rows_labelled_absent. exact Hx.
  - destruct (key_eqb (fst r) (fst x)) eqn:Hrx.
    + exfalso. apply not_true_iff_false in Hx. apply Hx.
      apply contains_spec. exists (fst r). split.
      * unfold keys. apply in_map. exact Hin.
      * apply key_eqb_sym. exact Hrx.
    + apply IH; assumption.
Qed.

Lemma at_unique (df : indexed) (r : key * list value) (i : nat) :
  unique_keys (keys df) = true -> In r df ->
  at_ df (fst r) i = Ok (nth i (snd r) VNone).
Proof.
  intros Hu Hin. unfold at_. rewrite (rows_labelled_unique df r Hu Hin). reflexivity.
Qed.

Lemma flat_map_rows_labelled (df l : indexed) :
  unique_keys (keys df) = true -> incl l df ->
  flat_map (rows_labelled df) (keys l) = l.
Proof.
  intros Hu. induction l as [ | r l IH]; intros Hincl; [reflexivity | ].
  cbn. rewrite (rows_labelled_unique df r Hu); [ | apply Hincl; left; reflexivity].
  cbn. f_equal. apply IH. intros x Hx. apply Hincl. right. exact Hx.
Qed.

Lemma prepared_cell (cols sub : list string) (row : list value) (i : nat) (c : string) :
  nth_error sub i = Some c ->
  nth i (map (cell cols row) sub) VNone = cell cols row c.
Proof.
  intros H. apply nth_error_nth. apply map_nth_error. exact H.
Qed.

Lemma column_prepared (df : DataFrame) (on sub : list string) (i : nat) (c : string) :
  nth_error sub i = Some c ->
  column (prepared df on sub) i = map (fun row => cell (columns df) row c) (data df).
Proof.
  intros H. unfold column, prepared. rewrite map_map. apply map_ext.
  intros row. cbn [snd]. apply prepared_cell. exact H.
Qed.

Lemma filter_all {A : Type} (f : A -> bool) (l : list A) :
  (forall x, In x l -> f x = true) -> filter f l = l.
Proof.
  induction l as [ | a l IH]; intros H; cbn; [reflexivity | ].
  rewrite (H a (or_introl eq_refl)). f_equal. apply IH.
  intros x Hx. apply H. right. exact Hx.
Qed.

Lemma filter_none {A : Type} (f : A -> bool) (l : list A) :
  (forall x, In x l -> f x = false) -> filter f l = [].
Proof.
  induction l as [ | a l IH]; intros H; cbn; [reflexivity | ].
  rewrite (H a (or_introl eq_refl)). apply IH.
  intros x Hx. apply H. right. exact Hx.
Qed.

Lemma loc_mask_all_true {A : Type} (l : list A) (s : nat) :
  loc_mask l (map (fun _ => true) (seq s (List.length l))) = l
  /\ loc_mask l (map negb (map (fun _ => true) (seq s (List.length l)))) = [].
Proof.
  revert s. induction l as [ | a l IH]; intros s; cbn [List.length seq map].
  - split; reflexivity.
  - rewrite !loc_mask_cons. cbn [negb]. destruct (IH (S s)) as [H1 H2].
    rewrite H1, H2. split; reflexivity.
Qed.

Lemma py_all_const {A : Type} (l : list A) :
  py_all (map (fun _ => true) l) = true.
Proof. unfold py_all. induction l; cbn; auto. Qed.

Lemma nth_const_true {A : Type} (l : list A) (j : nat) :
  j < List.length l -> nth j (map (fun _ => true) l) false = true.
Proof.
  revert j. induction l as [ | a l IH]; intros j Hj; cbn in Hj; [lia | ].
  destruct j as [ | j]; cbn; [reflexivity | ]. apply IH. lia.
Qed.

(** The comparison of a prepared frame with itself, when every cell is
    judged equal to itself: every label of the frame is a row of the
    comparison frame and the mask is true throughout. *)
Lemma compare_self (df : DataFrame) (on sub : list string) (mode : string)
    (tol : float) (ic : bool) :
  let P := prepared df on sub in
  unique_keys (table_keys df on) = true ->
  self_equal_cells df sub mode tol ic ->
  exists cols,
    _compare sub (map (class_of P) (enumerate sub)) P P mode tol ic
    = Ok ({| cmp_index := keys P; cmp_columns := cols |},
          map (fun _ => true) (seq 0 (List.length (keys P)))).
Proof.
  intros P Hu Hcells.
  assert (HuP : unique_keys (keys P) = true).
  { unfold P. rewrite keys_prepared. exact Hu. }
  unfold _compare, isin. rewrite loc_mask_map.
  rewrite (filter_all (contains (keys P))) by (intros k Hk; apply contains_In; exact Hk).
  exists (map (fun _ => map (fun _ => true) (keys P)) (enumerate sub)).
  rewrite (mapM_map _ (fun _ => map (fun _ => true) (keys P))).
  - cbn [bind]. f_equal. f_equal. apply map_ext_in. intros j Hj.
    apply in_seq in Hj. unfold comparison_row. rewrite map_map.
    rewrite (map_ext _ (fun _ => true)).
    + apply py_all_const.
    + intros _. apply nth_const_true. lia.
  - intros [i c] Hic. apply In_enumerate in Hic.
    unfold compare_column. cbn [fst]. rewrite (prepared_class P sub i Hic).
    cbn [bind]. apply mapM_map. intros idx Hidx.
    unfold keys in Hidx. apply in_map_iff in Hidx. destruct Hidx as [r [Hr Hin]].
    subst idx. unfold compare_cell.
    rewrite (at_unique P r i HuP Hin). cbn [bind].
    rewrite (contains_In (keys P) (fst r)) by (unfold keys; apply in_map; exact Hin).
    cbn [bind].
    unfold class_of. cbn [fst]. unfold P at 1. rewrite (column_prepared df on sub i Hic).
    unfold P, prepared in Hin. apply in_map_iff in Hin.
    destruct Hin as [row [Hrow Hin]]. subst r. cbn [snd].
    rewrite (@prepared_cell (columns df) sub row i c Hic).
    destruct (numeric_column _) eqn:Hnum; cbn [is_number_class];
      pose proof (Hcells i c row Hic Hin) as Hv; rewrite Hnum in Hv; exact Hv.
Qed.

(** Cells that are judged equal to themselves: finite numbers under a
    tolerance above zero, in either mode, and strings. *)
Lemma fsub_diag (f : float) : is_finite f = true -> fsub f f = fzero.
Proof.
  destruct f as [s | s | | s m e]; try discriminate; intros _.
  - destruct s; reflexivity.
  - unfold fsub, SFsub, shl_align. rewrite Z.min_id, Z.sub_diag. cbn [fst].
    reflexivity.
Qed.

Lemma number_self_equal (v : value) (f t : float) (mode : string) :
  py_float v = Ok f ->
  is_finite f = true ->
  flt fzero t = true ->
  NumberComparator_compare
    {| nc_one := v; nc_other := v; tol_mode := mode; tolerance := t |} = Ok true.
Proof.
  intros Hv Hf Ht. unfold NumberComparator_compare. cbn [nc_one nc_other tol_mode tolerance].
  rewrite Hv. cbn [bind]. destruct (String.eqb mode "relative").
  - unfold relatively_compare, py_truediv, py_max. rewrite flt_irrefl, fsub_diag by exact Hf.
    destruct f as [s | s | | s m e]; try discriminate Hf.
    + reflexivity.
    + assert (Hg : feq (S754_finite s m e) (S754_finite s m e)
                   && feq (S754_finite s m e) fzero = false).
      { apply andb_false_iff. right. destruct s; reflexivity. }
      rewrite Hg. cbn [fabs SFabs]. cbn [bind feq SFeqb SFcompare fzero].
      cbn [fdiv SFdiv xorb SFabs]. f_equal. exact Ht.
  - unfold absolutely_compare. rewrite fsub_diag by exact Hf. f_equal. exact Ht.
Qed.

Lemma string_self_equal (s : string) (ic : bool) :
  StringComparator_compare
    {| sc_one := VStr s; sc_other := VStr s; sc_ignore_case := ic |} = Ok true.
Proof.
  unfold StringComparator_compare. cbn. destruct ic; cbn; rewrite String.eqb_refl; reflexivity.
Qed.

(** C5, as the code has it. A rectangular table with unique keys, none of
    them a missing value, compared against itself under a configuration
    that passes the subset check and repeats no label in the key list or
    in the subset, is reported as unchanged throughout (nothing deleted,
    inserted or updated, and [rows_in_common] the whole prepared table)
    provided every compared cell is judged equal to itself by the
    comparator of its column. Not every cell is: in absolute mode under
    tolerance 0 no number is equal to itself, the comparison being
    strict. *)
Theorem self_comparison_all_common
    (df : DataFrame) (on : list string) (subset : option (list string))
    (mode : string) (tol : float) (ic : bool) (checked : list string) :
  _check_subset (columns df) (columns df) on
                (Some (subset_or_columns subset df)) = Ok checked ->
  rectangular df = true ->
  nodupb on = true ->
  nodupb checked = true ->
  unique_keys (table_keys df on) = true ->
  no_missing_key (table_keys df on) = true ->
  self_equal_cells df checked mode tol ic ->
  exists st : DataFrameComparator,
    DataFrameComparator_init df df on subset mode tol ic = Ok st
    /\ _one st = prepared df on checked
    /\ rows_deleted st = []
    /\ rows_inserted st = []
    /\ rows_before_update st = Ok []
    /\ rows_after_update st = Ok []
    /\ rows_in_common st = Ok (_one st).
Proof.
  intros Hcheck Hrect Hon Hsub Hu Hkeys Hcells.
  pose proof Hcheck as Hinv. apply check_subset_Ok_inv in Hinv.
  destruct Hinv as [Hchecked [Hj Hs]]. rewrite <- Hchecked in Hs.
  destruct (@compare_self df on checked mode tol ic Hu Hcells) as [cols Hc].
  unfold DataFrameComparator_init. rewrite Hcheck. cbn [bind].
  rewrite (@prepare_data_Ok df df on checked Hrect Hrect Hon Hsub Hj Hs).
  cbn [bind fst snd].
  rewrite prepare_comparators_Ok. cbn [bind]. rewrite Hc. cbn [bind fst snd].
  eexists. split; [reflexivity | ].
  set (P := prepared df on checked).
  assert (HuP : unique_keys (keys P) = true).
  { unfold P. rewrite keys_prepared. exact Hu. }
  assert (Hall : forall r, In r P -> negb (contains (keys P) (fst r)) = false).
  { intros r Hr. apply negb_false_iff. apply contains_In.
    unfold keys. apply in_map. exact Hr. }
  split; [reflexivity | ].
  split; [rewrite rows_deleted_filter; apply filter_none; exact Hall | ].
  split; [rewrite rows_inserted_filter; apply filter_none; exact Hall | ].
  unfold rows_before_update, rows_after_update, rows_in_common.
  cbn [_comparison _mask _one _other cmp_index].
  destruct (loc_mask_all_true (keys P) 0) as [Ht Hf]. rewrite Ht, Hf.
  assert (Hempty : loc_labels P [] = Ok []) by reflexivity.
  rewrite !Hempty.
  split; [reflexivity | ]. split; [reflexivity | ].
  rewrite loc_labels_Ok.
  - f_equal. apply flat_map_rows_labelled; [exact HuP | apply incl_refl].
  - intros l Hl. apply (@no_missing_key_label (keys P) l); [ | exact Hl].
    unfold P. rewrite keys_prepared. exact Hkeys.
  - intros l Hl. apply contains_In. exact Hl.
Qed.

(** ** Exceptions of a cell comparison *)

Lemma py_float_outcome (v : value) :
  (exists f, py_float v = Ok f)
  \/ (exists e, conversion_error e /\ py_float v = Raise e).
Proof.
  unfold conversion_error.
  destruct v as [f | s | ]; cbn; eauto.
  destruct (float_of_str s); eauto.
Qed.

Lemma number_compare_unparseable (one_val other_val : value) (mode : string)
    (t : float) (e0 : exn) :
  py_float other_val = Raise e0 ->
  exists e, conversion_error e
    /\ NumberComparator_compare
         {| nc_one := one_val; nc_other := other_val;
            tol_mode := mode; tolerance := t |} = Raise e.
Proof.
  intros H. unfold NumberComparator_compare. cbn [nc_one nc_other].
  destruct (py_float_outcome one_val) as [[f Hf] | [e [He Hf]]]; rewrite Hf; cbn [bind].
  - destruct (py_float_outcome other_val) as [[g Hg] | [e [He Hg]]]; [congruence | ].
    rewrite Hg. cbn [bind]. eauto.
  - eauto.
Qed.

Lemma number_compare_unparseable_one (one_val other_val : value) (mode : string)
    (t : float) (e0 : exn) :
  py_float one_val = Raise e0 ->
  exists e, conversion_error e
    /\ NumberComparator_compare
         {| nc_one := one_val; nc_other := other_val;
            tol_mode := mode; tolerance := t |} = Raise e.
Proof.
  intros H. unfold NumberComparator_compare. cbn [nc_one nc_other].
  destruct (py_float_outcome one_val) as [[f Hf] | [e [He Hf]]]; [congruence | ].
  rewrite Hf. cbn [bind]. eauto.
Qed.

Lemma cell_verdict_outcome (mode : string) (tol : float) (ic isnum : bool)
    (v1 v2 : value) :
  (exists b, cell_verdict mode tol ic isnum v1 v2 = Ok b)
  \/ (exists e, cell_exception mode ic e
        /\ cell_verdict mode tol ic isnum v1 v2 = Raise e).
Proof.
  unfold cell_verdict, cell_exception. destruct isnum.
  - unfold NumberComparator_compare. cbn [nc_one nc_other tol_mode tolerance].
    destruct (py_float_outcome v1) as [[f Hf] | [e [He Hf]]]; rewrite Hf; cbn [bind];
      [ | right; exists e; split; [left; exact He | reflexivity]].
    destruct (py_float_outcome v2) as [[g Hg] | [e [He Hg]]]; rewrite Hg; cbn [bind];
      [ | right; exists e; split; [left; exact He | reflexivity]].
    destruct (String.eqb mode "relative") eqn:Hmode;
      [ | left; eexists; reflexivity].
    apply String.eqb_eq in Hmode.
    unfold relatively_compare, py_truediv.
    destruct (feq g f && feq f fzero); [left; eexists; reflexivity | ].
    destruct (feq (py_max (fabs f) (fabs g)) fzero); cbn [bind];
      [ | left; eexists; reflexivity].
    right. exists ZeroDivisionError. split; [ | reflexivity]. right. right. auto.
  - unfold StringComparator_compare. cbn [sc_one sc_other sc_ignore_case].
    destruct ic; [ | left; eexists; reflexivity].
    assert (Hattr : forall r : result bool, r = Raise AttributeError ->
              (exists b, r = Ok b)
              \/ (exists e, (conversion_error e
                             \/ (true = true /\ e = AttributeError)
                             \/ (mode = "relative" /\ e = ZeroDivisionError))
                            /\ r = Raise e)).
    { intros r Hr. right. exists AttributeError. split; [ | exact Hr]. right. left. auto. }
    destruct v1 as [f | s | ]; cbn [py_lower bind]; try (apply Hattr; reflexivity).
    destruct v2 as [g | t | ]; cbn [py_lower bind]; try (apply Hattr; reflexivity).
    left. eexists. reflexivity.
Qed.

Lemma rows_labelled_congr (df : indexed) (k k' : key) :
  key_eqb k k' = true -> rows_labelled df k = rows_labelled df k'.
Proof.
  intros H. unfold rows_labelled. apply filter_ext. intros r.
  apply key_eqb_congr. exact H.
Qed.

Lemma at_matching (df : indexed) (idx : key) (i : nat) :
  unique_keys (keys df) = true ->
  contains (keys df) idx = true ->
  exists r, In r df /\ key_eqb idx (fst r) = true
            /\ at_ df idx i = Ok (nth i (snd r) VNone).
Proof.
  intros Hu Hc. apply contains_spec in Hc. destruct Hc as [k' [Hin Hk]].
  unfold keys in Hin. apply in_map_iff in Hin. destruct Hin as [r [Hr Hin]].
  subst k'. exists r. split; [exact Hin | ]. split; [exact Hk | ].
  unfold at_. rewrite (rows_labelled_congr df _ _ Hk).
  rewrite (rows_labelled_unique df r Hu Hin). reflexivity.
Qed.

(** With unique keys every cell of a common key is compared inside the
    model, and ends with a verdict or one of the cell exceptions. *)
Lemma compare_cell_outcome (a b : indexed) (mode : string) (tol : float)
    (ic isnum : bool) (i : nat) (idx : key) :
  unique_keys (keys a) = true ->
  unique_keys (keys b) = true ->
  contains (keys a) idx = true ->
  contains (keys b) idx = true ->
  (exists v, compare_cell a b mode tol ic isnum i idx = Ok v)
  \/ (exists e, cell_exception mode ic e
        /\ compare_cell a b mode tol ic isnum i idx = Raise e).
Proof.
  intros Hua Hub Ha Hb. unfold compare_cell.
  destruct (at_matching a idx i Hua Ha) as [r1 [_ [_ H1]]].
  destruct (at_matching b idx i Hub Hb) as [r2 [_ [_ H2]]].
  rewrite H1, Hb, H2. cbn [bind]. apply cell_verdict_outcome.
Qed.

Lemma mapM_outcome {A B : Type} (f : A -> result B) (l : list A) (Q : exn -> Prop) :
  (forall x, In x l ->
     (exists y, f x = Ok y) \/ (exists e, Q e /\ f x = Raise e)) ->
  (exists r, mapM f l = Ok r) \/ (exists e, Q e /\ mapM f l = Raise e).
Proof.
  induction l as [ | x l IH]; intros H; cbn [mapM]; [eauto | ].
  destruct (H x (or_introl eq_refl)) as [[y Hy] | [e [He Hy]]]; rewrite Hy; cbn [bind];
    [ | eauto].
  destruct IH as [[r Hr] | [e [He Hr]]].
  - intros z Hz. apply H. right. exact Hz.
  - rewrite Hr. cbn [bind]. eauto.
  - rewrite Hr. cbn [bind]. eauto.
Qed.

Lemma mapM_not_Ok {A B : Type} (f : A -> result B) (l : list A) (x : A) (e : exn)
    (r : list B) :
  In x l -> f x = Raise e -> mapM f l <> Ok r.
Proof.
  intros Hin Hx Hr. destruct (mapM_Ok_In _ _ x Hr Hin) as [y Hy]. congruence.
Qed.

Lemma compare_column_outcome (a b : indexed) (sub : list string)
    (mode : string) (tol : float) (ic : bool) (x : nat * string) :
  unique_keys (keys a) = true ->
  unique_keys (keys b) = true ->
  In x (enumerate sub) ->
  (exists col,
     compare_column (map (class_of a) (enumerate sub)) a b mode tol ic
                    (filter (contains (keys b)) (keys a)) x = Ok col)
  \/ (exists e, cell_exception mode ic e
        /\ compare_column (map (class_of a) (enumerate sub)) a b mode tol ic
                          (filter (contains (keys b)) (keys a)) x = Raise e).
Proof.
  intros Hua Hub Hx. destruct x as [j c']. apply In_enumerate in Hx.
  unfold compare_column. cbn [fst]. rewrite (@prepared_class a sub j c' Hx).
  cbn [bind]. apply mapM_outcome. intros idx Hidx.
  apply filter_In in Hidx. destruct Hidx as [Hin Hc].
  apply compare_cell_outcome; try assumption. apply contains_In. exact Hin.
Qed.

(** C8. The number comparator raises [ValueError] or [TypeError] whenever
    one of its two values does not go through [float()], whatever the other
    one. So
    when a column is classified numeric from the old table and the new
    table holds, under a common key, a value that is no number, construction
    raises: no comparator is returned, nothing is coerced and the column is
    not classified again. The exception that leaves is the one of the first
    cell that fails: a conversion error, unless a cell before it failed on
    [.lower()] (case ignored) or on the division of the relative mode. *)
Theorem non_numeric_value_aborts
    (one other : DataFrame) (on : list string) (subset : option (list string))
    (mode : string) (tol : float) (ic : bool) (checked : list string)
    (i : nat) (c : string) (row : list value) (e0 : exn) :
  _check_subset (columns one) (columns other) on
                (Some (subset_or_columns subset one)) = Ok checked ->
  rectangular one = true -> rectangular other = true ->
  nodupb on = true -> nodupb checked = true ->
  unique_keys (table_keys one on) = true ->
  unique_keys (table_keys other on) = true ->
  nth_error checked i = Some c ->
  numeric_column (map (fun r => cell (columns one) r c) (data one)) = true ->
  In row (data other) ->
  contains (table_keys one on) (map (cell (columns other) row) on) = true ->
  py_float (cell (columns other) row c) = Raise e0 ->
  (forall (v : value) (t : float),
     (exists e, conversion_error e
        /\ NumberComparator_compare
             {| nc_one := v; nc_other := cell (columns other) row c;
                tol_mode := mode; tolerance := t |} = Raise e)
     /\ (exists e, conversion_error e
           /\ NumberComparator_compare
                {| nc_one := cell (columns other) row c; nc_other := v;
                   tol_mode := mode; tolerance := t |} = Raise e))
  /\ exists e,
       DataFrameComparator_init one other on subset mode tol ic = Raise e
       /\ cell_exception mode ic e
       /\ (ic = false -> mode <> "relative" -> conversion_error e).
Proof.
  intros Hcheck R1 R2 N1 N2 U1 U2 Hic Hnum Hrow Hcommon Hbad.
  split.
  { intros v t. split.
    - apply (@number_compare_unparseable v _ mode t e0 Hbad).
    - apply (@number_compare_unparseable_one _ v mode t e0 Hbad). }
  pose proof Hcheck as Hinv. apply check_subset_Ok_inv in Hinv.
  destruct Hinv as [Hchecked [Hj Hs]]. rewrite <- Hchecked in Hs.
  set (P1 := prepared one on checked). set (P2 := prepared other on checked).
  assert (HU1 : unique_keys (keys P1) = true) by (unfold P1; rewrite keys_prepared; exact U1).
  assert (HU2 : unique_keys (keys P2) = true) by (unfold P2; rewrite keys_prepared; exact U2).
  set (knew := map (cell (columns other) row) on : key).
  set (r2 := (knew, map (cell (columns other) row) checked) : key * list value).
  assert (Hr2 : In r2 P2).
  { unfold P2, prepared, r2, knew.
    apply (in_map (fun row0 => (map (cell (columns other) row0) on,
                                map (cell (columns other) row0) checked))).
    exact Hrow. }
  assert (Hc1 : contains (keys P1) knew = true).
  { unfold P1. rewrite keys_prepared. exact Hcommon. }
  destruct (at_matching P1 knew i HU1 Hc1) as [r1 [Hr1 [Hk1 _]]].
  set (k1 := fst r1).
  assert (Hk1in : In k1 (keys P1)) by (unfold keys, k1; apply in_map; exact Hr1).
  assert (Hk1c : contains (keys P2) k1 = true).
  { apply contains_spec. exists knew. split.
    - change knew with (fst r2). unfold keys. apply in_map. exact Hr2.
    - apply key_eqb_sym. exact Hk1. }
  assert (Hcell : exists e, conversion_error e
            /\ compare_cell P1 P2 mode tol ic true i k1 = Raise e).
  { destruct (@number_compare_unparseable (nth i (snd r1) VNone) _ mode tol e0 Hbad)
      as [e [He Hcmp]].
    exists e. split; [exact He | ].
    unfold compare_cell. unfold k1 at 1. rewrite (at_unique P1 r1 i HU1 Hr1).
    cbn [bind]. rewrite Hk1c. unfold at_.
    rewrite (@rows_labelled_congr P2 k1 (fst r2) (key_eqb_sym _ _ Hk1)).
    rewrite (rows_labelled_unique P2 r2 HU2 Hr2). cbn [bind].
    unfold r2 at 1. cbn [snd].
    rewrite (@prepared_cell (columns other) checked row i c Hic).
    unfold cell_verdict. exact Hcmp. }
  destruct Hcell as [e1 [He1 Hcell]].
  set (index := filter (contains (keys P2)) (keys P1)).
  assert (Hk1idx : In k1 index).
  { unfold index. apply filter_In. split; assumption. }
  assert (Hclass : is_number_class (class_of P1 (i, c)) = true).
  { unfold class_of, P1. cbn [fst].
    rewrite (@column_prepared one on checked i c Hic), Hnum. reflexivity. }
  assert (Hcolumn : exists e, cell_exception mode ic e
            /\ compare_column (map (class_of P1) (enumerate checked)) P1 P2
                              mode tol ic index (i, c) = Raise e).
  { destruct (@compare_column_outcome P1 P2 checked mode tol ic (i, c) HU1 HU2)
      as [[col Hcol] | Hraise].
    - apply In_enumerate. exact Hic.
    - exfalso. fold index in Hcol. unfold compare_column in Hcol. cbn [fst] in Hcol.
      rewrite (@prepared_class P1 checked i c Hic) in Hcol. cbn [bind] in Hcol.
      rewrite Hclass in Hcol.
      exact (mapM_not_Ok _ _ k1 Hk1idx Hcell Hcol).
    - exact Hraise. }
  destruct Hcolumn as [e2 [He2 Hcolumn]].
  assert (Hcols : exists e, cell_exception mode ic e
            /\ mapM (compare_column (map (class_of P1) (enumerate checked)) P1 P2
                                    mode tol ic index) (enumerate checked) = Raise e).
  { destruct (@mapM_outcome _ _
                (compare_column (map (class_of P1) (enumerate checked)) P1 P2
                                mode tol ic index)
                (enumerate checked) (cell_exception mode ic))
      as [[cols Hok] | Hraise].
    - intros x Hx. apply compare_column_outcome; assumption.
    - exfalso. apply (mapM_not_Ok _ _ (i, c)) with (e := e2) in Hok; [exact Hok | | exact Hcolumn].
      apply In_enumerate. exact Hic.
    - exact Hraise. }
  destruct Hcols as [e [He Hcols]].
  exists e. split; [ | split; [exact He | ]].
  - unfold DataFrameComparator_init. rewrite Hcheck. cbn [bind].
    rewrite (@prepare_data_Ok one other on checked R1 R2 N1 N2 Hj Hs).
    cbn [bind fst snd]. rewrite prepare_comparators_Ok. cbn [bind].
    unfold _compare, isin. rewrite loc_mask_map.
    fold P1 P2 index. rewrite Hcols. reflexivity.
  - intros Hcase Hmode. destruct He as [He | [[Hi _] | [Hm _]]];
      [exact He | congruence | contradiction].
Qed.

(** ** Repeated keys *)

Lemma filter_In_rows (f : key * list value -> bool) (df : indexed)
    (r : key * list value) :
  In r df -> f r = true -> In r (filter f df).
Proof. intros H1 H2. apply filter_In. split; assumption. Qed.

(** C2, as the code has it. There is no check for repeated keys: under a
    configuration that passes the subset check, [_prepare_data] returns
    both tables with every row kept, whether or not keys repeat, and in a
    constructed comparator every old row whose key is not in the new table
    is in [rows_deleted], every new row whose key is not in the old table
    in [rows_inserted], repeated or not. *)
Theorem repeated_keys_pass_indexing
    (one other : DataFrame) (on : list string) (subset : option (list string))
    (mode : string) (tol : float) (ic : bool) (checked : list string) :
  _check_subset (columns one) (columns other) on
                (Some (subset_or_columns subset one)) = Ok checked ->
  rectangular one = true -> rectangular other = true ->
  nodupb on = true -> nodupb checked = true ->
  _prepare_data one other on checked
  = Ok (prepared one on checked, prepared other on checked)
  /\ keys (prepared one on checked) = table_keys one on
  /\ keys (prepared other on checked) = table_keys other on
  /\ forall st : DataFrameComparator,
       DataFrameComparator_init one other on subset mode tol ic = Ok st ->
       (forall r, In r (prepared one on checked) ->
                  contains (table_keys other on) (fst r) = false ->
                  In r (rows_deleted st))
       /\ (forall r, In r (prepared other on checked) ->
                     contains (table_keys one on) (fst r) = false ->
                     In r (rows_inserted st)).
Proof.
  intros Hcheck R1 R2 N1 N2.
  pose proof Hcheck as Hinv. apply check_subset_Ok_inv in Hinv.
  destruct Hinv as [Hchecked [Hj Hs]]. rewrite <- Hchecked in Hs.
  split; [exact (@prepare_data_Ok one other on checked R1 R2 N1 N2 Hj Hs) | ].
  split; [apply keys_prepared | ]. split; [apply keys_prepared | ].
  intros st Hst.
  destruct (init_state _ _ _ _ _ _ _ Hst) as [Ha [Hb [Hk1 [Hk2 _]]]].
  destruct (init_Ok_inv _ _ _ _ _ _ _ Hst) as [Hcheck' _].
  assert (Hsub : Comparators.subset st = checked) by congruence.
  rewrite Hsub in Ha, Hb.
  rewrite rows_deleted_filter, rows_inserted_filter, Hk1, Hk2, Ha, Hb.
  split; intros r Hr Hc; apply filter_In_rows; try exact Hr; rewrite Hc; reflexivity.
Qed.

(** * Further properties of the code *)

(** ** Row verdicts and cell verdicts *)

Lemma init_fields (one0 other0 : DataFrame) (on0 : list string)
    (sub : option (list string)) (mode : string) (tol : float) (ic : bool)
    (st : DataFrameComparator) :
  DataFrameComparator_init one0 other0 on0 sub mode tol ic = Ok st ->
  one st = one0 /\ other st = other0 /\ on st = on0
  /\ number_mode st = mode /\ number_tolerance st = tol /\ ignore_case st = ic
  /\ comparators st = map (class_of (_one st)) (enumerate (subset st)).
Proof.
  intros H. pose proof (init_Ok_inv _ _ _ _ _ _ _ H) as [_ [_ [Hc _]]].
  rewrite prepare_comparators_Ok in Hc. injection Hc as Hc.
  revert H. unfold DataFrameComparator_init.
  destruct (_check_subset _ _ _ _) as [checked | | ]; cbn [bind]; try discriminate.
  destruct (_prepare_data _ _ _ _) as [[a b] | | ]; cbn [bind]; try discriminate.
  destruct (_prepare_comparators _ _) as [cmps | | ]; cbn [bind]; try discriminate.
  destruct (_compare _ _ _ _ _ _ _) as [[cmp mask] | | ]; cbn [bind]; try discriminate.
  intros H. injection H as H. subst st. cbn in *. repeat split; auto.
Qed.

Lemma Forall2_nth_error {A B : Type} (R : A -> B -> Prop) (l1 : list A)
    (l2 : list B) (j : nat) (x : A) :
  Forall2 R l1 l2 -> nth_error l1 j = Some x ->
  exists y, nth_error l2 j = Some y /\ R x y.
Proof.
  intros H. revert j. induction H as [ | a b l1 l2 Hab _ IH]; intros j Hj.
  - rewrite nth_error_nil in Hj. discriminate Hj.
  - destruct j as [ | j]; cbn in *.
    + injection Hj as Hj. subst a. eauto.
    + apply IH. exact Hj.
Qed.

(** The cell of the comparison frame at column [i] and row label number
    [j] is the verdict of [compare_cell] there. *)
Lemma compare_cells_at (sub : list string) (cmps : list comparator)
    (a b : indexed) (mode : string) (tol : float) (ic : bool)
    (cmp : Comparison) (mask : list bool) (i j : nat) (c : string) (l : key) :
  _compare sub cmps a b mode tol ic = Ok (cmp, mask) ->
  nth_error sub i = Some c ->
  nth_error (cmp_index cmp) j = Some l ->
  exists cls col v,
    nth_error cmps i = Some cls
    /\ nth_error (cmp_columns cmp) i = Some col
    /\ nth_error col j = Some v
    /\ compare_cell a b mode tol ic (is_number_class cls) i l = Ok v.
Proof.
  intros H Hi Hj. apply compare_Ok_inv in H. destruct H as [_ [_ Hcols]].
  apply mapM_Ok_Forall2 in Hcols.
  assert (He : nth_error (enumerate sub) i = Some (i, c)).
  { rewrite nth_error_enumerate, Hi. reflexivity. }
  destruct (@Forall2_nth_error _ _ _ _ _ _ _ Hcols He) as [col [Hcol Hcc]].
  unfold compare_column in Hcc. cbn [fst] in Hcc.
  destruct (nth_error cmps i) as [cls | ]; cbn [bind] in Hcc; [ | discriminate Hcc].
  apply mapM_Ok_Forall2 in Hcc.
  destruct (@Forall2_nth_error _ _ _ _ _ _ _ Hcc Hj) as [v [Hv Hcell]].
  exists cls, col, v. auto.
Qed.

Lemma py_all_true (l : list bool) : py_all l = true <-> forall b, In b l -> b = true.
Proof. unfold py_all. apply forallb_forall. Qed.

Lemma compare_columns_length (sub : list string) (cmps : list comparator)
    (a b : indexed) (mode : string) (tol : float) (ic : bool)
    (cmp : Comparison) (mask : list bool) :
  _compare sub cmps a b mode tol ic = Ok (cmp, mask) ->
  List.length (cmp_columns cmp) = List.length sub
  /\ (forall col, In col (cmp_columns cmp) ->
        List.length col = List.length (cmp_index cmp))
  /\ List.length mask = List.length (cmp_index cmp).
Proof.
  intros H. apply compare_Ok_inv in H. destruct H as [_ [Hmask Hcols]].
  split; [ | split].
  - apply mapM_Ok_length in Hcols. rewrite Hcols. unfold enumerate.
    rewrite length_combine, length_seq. apply Nat.min_id.
  - intros col Hcol. apply mapM_Ok_Forall2 in Hcols.
    apply Forall2_flip in Hcols. apply In_nth_error in Hcol. destruct Hcol as [i Hi].
    destruct (@Forall2_nth_error _ _ _ _ _ _ _ Hcols Hi) as [x [_ Hx]].
    unfold compare_column in Hx.
    destruct (nth_error cmps (fst x)); cbn [bind] in Hx; [ | discriminate Hx].
    apply mapM_Ok_length in Hx. exact Hx.
  - rewrite Hmask. apply seq_map_length.
Qed.

(** The mask at a row label is true exactly when every cell of that row of
    the comparison frame was set to true. *)
Lemma mask_at_label (sub : list string) (cmps : list comparator)
    (a b : indexed) (mode : string) (tol : float) (ic : bool)
    (cmp : Comparison) (mask : list bool) (j : nat) (l : key) :
  _compare sub cmps a b mode tol ic = Ok (cmp, mask) ->
  nth_error (cmp_index cmp) j = Some l ->
  exists m, nth_error mask j = Some m
    /\ (m = true <->
        forall i c cls, nth_error sub i = Some c -> nth_error cmps i = Some cls ->
          compare_cell a b mode tol ic (is_number_class cls) i l = Ok true).
Proof.
  intros H Hj. pose proof (@compare_columns_length _ _ _ _ _ _ _ _ _ H) as [Hlen [_ _]].
  pose proof H as Hinv. apply compare_Ok_inv in Hinv. destruct Hinv as [_ [Hmask _]].
  assert (Hlt : Nat.ltb j (List.length (cmp_index cmp)) = true).
  { apply Nat.ltb_lt. apply nth_error_Some. congruence. }
  exists (py_all (comparison_row (cmp_columns cmp) j)). split.
  { rewrite Hmask, nth_error_map, nth_error_seq, Hlt. reflexivity. }
  rewrite py_all_true. unfold comparison_row. split.
  - intros Hall i c cls Hi Hcls.
    destruct (@compare_cells_at _ _ _ _ _ _ _ _ _ _ _ _ _ H Hi Hj)
      as [cls' [col [v [Hcls' [Hcol [Hv Hcell]]]]]].
    assert (cls' = cls) by congruence. subst cls'.
    rewrite Hcell. f_equal. rewrite <- (Hall (nth j col false)).
    + symmetry. apply nth_error_nth. exact Hv.
    + apply in_map_iff. exists col. split; [reflexivity | ].
      apply nth_error_In with (n := i). exact Hcol.
  - intros Hcells bv Hb. apply in_map_iff in Hb. destruct Hb as [col [Hbv Hin]].
    apply In_nth_error in Hin. destruct Hin as [i Hi].
    assert (Hisub : exists c, nth_error sub i = Some c).
    { destruct (nth_error sub i) as [c | ] eqn:Hc; [eauto | ].
      exfalso. apply nth_error_None in Hc.
      assert (i < List.length (cmp_columns cmp)) by (apply nth_error_Some; congruence).
      lia. }
    destruct Hisub as [c Hc].
    destruct (@compare_cells_at _ _ _ _ _ _ _ _ _ _ _ _ _ H Hc Hj)
      as [cls [col' [v [Hcls [Hcol' [Hv Hcell]]]]]].
    assert (col' = col) by congruence. subst col'.
    rewrite (Hcells i c cls Hc Hcls) in Hcell. injection Hcell as Hcell. subst v.
    subst bv. apply nth_error_nth. exact Hv.
Qed.

Lemma rows_labelled_contains (df : indexed) (l : key) (r : key * list value) :
  In r (rows_labelled df l) -> contains (keys df) l = true.
Proof.
  intros H. unfold rows_labelled in H. apply filter_In in H. destruct H as [Hin Hk].
  apply contains_spec. exists (fst r). split; [ | exact Hk].
  unfold keys. apply in_map. exact Hin.
Qed.

Lemma compare_cell_rows (a b : indexed) (mode : string) (tol : float)
    (ic isnum : bool) (i : nat) (l : key) (r1 r2 : key * list value) :
  rows_labelled a l = [r1] -> rows_labelled b l = [r2] ->
  compare_cell a b mode tol ic isnum i l
  = cell_verdict mode tol ic isnum (nth i (snd r1) VNone) (nth i (snd r2) VNone).
Proof.
  intros H1 H2. unfold compare_cell, at_. rewrite H1. cbn [bind].
  rewrite (@rows_labelled_contains b l r2) by (rewrite H2; left; reflexivity).
  rewrite H2. reflexivity.
Qed.

Lemma single_row_is (df : indexed) (l : key) (r r' : key * list value) :
  rows_labelled df l = [r] -> In r' df -> key_eqb l (fst r') = true -> r = r'.
Proof.
  intros H Hin Hk.
  assert (Hr' : In r' (rows_labelled df l)).
  { unfold rows_labelled. apply filter_In. split; assumption. }
  rewrite H in Hr'. destruct Hr' as [Heq | []]. exact Heq.
Qed.

Lemma is_number_class_of (df : indexed) (i : nat) (c : string) :
  is_number_class (class_of df (i, c)) = numeric_column (column df i).
Proof. unfold class_of. cbn [fst]. destruct (numeric_column _); reflexivity. Qed.

Lemma label_verdict (one0 other0 : DataFrame) (on0 : list string)
    (sub : option (list string)) (mode : string) (tol : float) (ic : bool)
    (st : DataFrameComparator) (j : nat) (l : key) (r1 r2 : key * list value) :
  DataFrameComparator_init one0 other0 on0 sub mode tol ic = Ok st ->
  nth_error (cmp_index (_comparison st)) j = Some l ->
  In r1 (_one st) -> In r2 (_other st) ->
  key_eqb l (fst r1) = true -> key_eqb l (fst r2) = true ->
  exists m, nth_error (_mask st) j = Some m
    /\ (m = true <-> cells_all_equal st r1 r2).
Proof.
  intros Hinit Hj H1 H2 Hk1 Hk2.
  destruct (init_Ok_inv _ _ _ _ _ _ _ Hinit) as [_ [_ [_ Hc]]].
  destruct (init_fields _ _ _ _ _ _ _ Hinit) as [_ [_ [_ [Hm [Ht [Hi Hcmps]]]]]].
  destruct (@init_single_rows _ _ _ _ _ _ _ st l Hinit (nth_error_In _ _ Hj))
    as [[r Hr] [r' Hr']].
  assert (r = r1) by (apply (@single_row_is (_one st) l); assumption). subst r.
  assert (r' = r2) by (apply (@single_row_is (_other st) l); assumption). subst r'.
  destruct (@mask_at_label _ _ _ _ _ _ _ _ _ j l Hc Hj) as [m [Hmj Hiff]].
  exists m. split; [exact Hmj | ]. rewrite Hiff. unfold cells_all_equal.
  rewrite Hm, Ht, Hi. split.
  - intros H i c Hic.
    rewrite <- (is_number_class_of (_one st) i c).
    rewrite <- (@compare_cell_rows _ _ mode tol ic _ i l r1 r2 Hr Hr').
    apply (H i c). { exact Hic. }
    rewrite Hcmps. apply prepared_class. exact Hic.
  - intros H i c cls Hic Hcls.
    rewrite Hcmps, (@prepared_class (_one st) _ i c Hic) in Hcls.
    injection Hcls as Hcls. subst cls.
    rewrite (@compare_cell_rows _ _ mode tol ic _ i l r1 r2 Hr Hr').
    rewrite is_number_class_of. exact (H i c Hic).
Qed.

Lemma In_selected_rows (df : indexed) (idx : list key) (m : list bool)
    (r : key * list value) :
  In r (flat_map (rows_labelled df) (loc_mask idx m)) <->
  exists j l, nth_error idx j = Some l /\ nth_error m j = Some true
              /\ In r df /\ key_eqb l (fst r) = true.
Proof.
  rewrite in_flat_map. split.
  - intros [l [Hl Hr]]. apply In_loc_mask in Hl. destruct Hl as [j [Hj Hm]].
    unfold rows_labelled in Hr. apply filter_In in Hr. destruct Hr as [Hin Hk].
    exists j, l. auto.
  - intros [j [l [Hj [Hm [Hin Hk]]]]]. exists l. split.
    + apply In_loc_mask. eauto.
    + unfold rows_labelled. apply filter_In. auto.
Qed.

(** An old row and the new row of the same key, when no key cell of the old
    table is a missing value: the old row is in
    [rows_in_common] exactly when every compared cell of the pair is judged
    equal by the comparator of its column; otherwise, and only then, the
    old row is in [rows_before_update] and the new row in
    [rows_after_update]. *)
Theorem row_verdict_from_cells
    (one0 other0 : DataFrame) (on0 : list string) (sub : option (list string))
    (mode : string) (tol : float) (ic : bool) (st : DataFrameComparator)
    (r1 r2 : key * list value) :
  DataFrameComparator_init one0 other0 on0 sub mode tol ic = Ok st ->
  no_missing_key (table_keys one0 on0) = true ->
  In r1 (_one st) -> In r2 (_other st) ->
  key_eqb (fst r1) (fst r2) = true ->
  exists common before after : indexed,
    rows_in_common st = Ok common
    /\ rows_before_update st = Ok before
    /\ rows_after_update st = Ok after
    /\ (In r1 common <-> cells_all_equal st r1 r2)
    /\ (In r1 before <-> ~ cells_all_equal st r1 r2)
    /\ (In r2 after <-> ~ cells_all_equal st r1 r2).
Proof.
  intros Hinit Hkeys H1 H2 Hk.
  destruct (init_state _ _ _ _ _ _ _ Hinit) as [_ [_ [Hk1 [_ [Hidx Hlen]]]]].
  rewrite <- Hk1 in Hkeys.
  destruct (common_partitions st Hidx Hkeys) as [Hcom [Hbef Haft]].
  eexists _, _, _. split; [exact Hcom | ]. split; [exact Hbef | ].
  split; [exact Haft | ].
  assert (Hin : In (fst r1) (cmp_index (_comparison st))).
  { rewrite Hidx. apply filter_In. split.
    - unfold keys. apply in_map. exact H1.
    - apply contains_spec. exists (fst r2). split; [ | exact Hk].
      unfold keys. apply in_map. exact H2. }
  apply In_nth_error in Hin. destruct Hin as [j0 Hj0].
  destruct (@label_verdict _ _ _ _ _ _ _ st j0 (fst r1) r1 r2 Hinit Hj0 H1 H2
              (key_eqb_refl _) Hk) as [m0 [Hm0 Hiff0]].
  assert (Hany : forall j l m,
             nth_error (cmp_index (_comparison st)) j = Some l ->
             nth_error (_mask st) j = Some m ->
             key_eqb l (fst r1) = true ->
             (m = true <-> cells_all_equal st r1 r2)).
  { intros j l m Hj Hm Hl.
    destruct (@label_verdict _ _ _ _ _ _ _ st j l r1 r2 Hinit Hj H1 H2 Hl
                (key_eqb_trans _ _ _ Hl Hk)) as [m' [Hm' Hiff]].
    assert (m' = m) by congruence. subst m'. exact Hiff. }
  assert (Hneg : forall j, nth_error (map negb (_mask st)) j = Some true <->
                           nth_error (_mask st) j = Some false).
  { intros j. rewrite nth_error_map.
    destruct (nth_error (_mask st) j) as [[ | ] | ]; cbn; split;
      intros E; try discriminate E; reflexivity. }
  split; [ | split].
  - rewrite In_selected_rows. split.
    + intros [j [l [Hj [Hm [_ Hl]]]]]. apply (Hany j l true Hj Hm Hl). reflexivity.
    + intros Hall. exists j0, (fst r1). repeat split; try assumption.
      * apply Hiff0 in Hall. subst m0. exact Hm0.
      * apply key_eqb_refl.
  - rewrite In_selected_rows. split.
    + intros [j [l [Hj [Hm [_ Hl]]]]] Hall. apply Hneg in Hm.
      apply (Hany j l false Hj Hm Hl) in Hall. discriminate Hall.
    + intros Hnot. exists j0, (fst r1). repeat split; try assumption.
      * apply Hneg. destruct m0; [ | exact Hm0].
        exfalso. apply Hnot. apply Hiff0. reflexivity.
      * apply key_eqb_refl.
  - rewrite In_selected_rows. split.
    + intros [j [l [Hj [Hm [_ Hl]]]]] Hall. apply Hneg in Hm.
      assert (Hl1 : key_eqb l (fst r1) = true).
      { exact (key_eqb_trans _ _ _ Hl (key_eqb_sym _ _ Hk)). }
      apply (Hany j l false Hj Hm Hl1) in Hall. discriminate Hall.
    + intros Hnot. exists j0, (fst r1). repeat split; try assumption.
      apply Hneg. destruct m0; [ | exact Hm0].
      exfalso. apply Hnot. apply Hiff0. reflexivity.
Qed.

(** ** The counts of [abstract] *)

Lemma length_filter_split {A : Type} (f : A -> bool) (l : list A) :
  List.length (filter f l) + List.length (filter (fun x => negb (f x)) l)
  = List.length l.
Proof.
  induction l as [ | a l IH]; cbn; [reflexivity | ].
  destruct (f a); cbn; lia.
Qed.

Lemma length_loc_mask_split {A : Type} (l : list A) (m : list bool) :
  List.length m = List.length l ->
  List.length (loc_mask l m) + List.length (loc_mask l (map negb m))
  = List.length l.
Proof.
  revert m. induction l as [ | a l IH]; intros [ | b m] Hlen; try discriminate Hlen;
    [reflexivity | ].
  injection Hlen as Hlen. cbn [map]. rewrite !loc_mask_cons.
  specialize (IH m Hlen). destruct b; cbn [negb List.length]; lia.
Qed.

Lemma length_selected (df : indexed) (labels : list key) :
  (forall l, In l labels -> exists r, rows_labelled df l = [r]) ->
  List.length (flat_map (rows_labelled df) labels) = List.length labels.
Proof.
  induction labels as [ | l labels IH]; intros H; [reflexivity | ].
  cbn [flat_map]. destruct (H l (or_introl eq_refl)) as [r Hr].
  rewrite Hr. cbn. f_equal. apply IH. intros l' Hl'. apply H. right. exact Hl'.
Qed.

(** Counting the pairs of a label and a row that match, by labels and by
    rows. *)
Lemma count_matches_cons (df : indexed) (a : key) (idx : list key) :
  List.length (flat_map (fun r => filter (fun l => key_eqb l (fst r)) (a :: idx)) df)
  = List.length (rows_labelled df a)
    + List.length (flat_map (fun r => filter (fun l => key_eqb l (fst r)) idx) df).
Proof.
  unfold rows_labelled. induction df as [ | r df IH]; [reflexivity | ].
  cbn [flat_map]. rewrite !length_app, IH. cbn [filter].
  destruct (key_eqb a (fst r)); cbn [List.length]; lia.
Qed.

Lemma count_matches (df : indexed) (idx : list key) :
  List.length (flat_map (rows_labelled df) idx)
  = List.length (flat_map (fun r => filter (fun l => key_eqb l (fst r)) idx) df).
Proof.
  induction idx as [ | a idx IH].
  - cbn. induction df as [ | r df IHdf]; [reflexivity | exact IHdf].
  - rewrite count_matches_cons, <- IH. cbn [flat_map]. apply length_app.
Qed.

Lemma count_unique (idx : list key) (k : key) :
  unique_keys idx = true ->
  List.length (filter (fun l => key_eqb l k) idx)
  = if contains idx k then 1 else 0.
Proof.
  induction idx as [ | a idx IH]; intros Hu; [reflexivity | ].
  cbn [unique_keys] in Hu. apply andb_true_iff in Hu. destruct Hu as [Ha Hu].
  apply negb_true_iff in Ha. specialize (IH Hu).
  rewrite contains_cons. cbn [filter]. rewrite (key_eqb_comm k a).
  destruct (key_eqb a k) eqn:Hak; cbn [orb List.length].
  - rewrite IH, <- (contains_congr idx _ _ Hak), Ha. reflexivity.
  - exact IH.
Qed.

Lemma count_rows_in (df : indexed) (idx : list key) :
  unique_keys idx = true ->
  List.length (flat_map (fun r => filter (fun l => key_eqb l (fst r)) idx) df)
  = List.length (filter (fun r => contains idx (fst r)) df).
Proof.
  intros Hu. induction df as [ | r df IH]; [reflexivity | ].
  cbn [flat_map filter]. rewrite length_app, IH, (count_unique idx (fst r) Hu).
  destruct (contains idx (fst r)); reflexivity.
Qed.

Lemma unique_of_single (f : key -> bool) (K : list key) :
  (forall l, In l (filter f K) -> List.length (filter (key_eqb l) K) <= 1) ->
  unique_keys (filter f K) = true.
Proof.
  induction K as [ | a K IH]; intros H; [reflexivity | ].
  assert (HK : forall l, In l (filter f K) -> List.length (filter (key_eqb l) K) <= 1).
  { intros l Hl. assert (Hl' : In l (filter f (a :: K))).
    { cbn [filter]. destruct (f a); [right | ]; exact Hl. }
    specialize (H l Hl'). cbn [filter] in H.
    destruct (key_eqb l a); cbn [List.length] in H; lia. }
  cbn [filter]. destruct (f a) eqn:Hfa; [ | exact (IH HK)].
  cbn [unique_keys]. rewrite (IH HK), andb_true_r. apply negb_true_iff.
  apply not_true_iff_false. intros Hc. apply contains_spec in Hc.
  destruct Hc as [k' [Hin Hk]]. apply filter_In in Hin. destruct Hin as [Hin _].
  assert (Ha : In a (filter f (a :: K))) by (cbn [filter]; rewrite Hfa; left; reflexivity).
  specialize (H a Ha). cbn [filter] in H. rewrite key_eqb_refl in H.
  cbn [List.length] in H.
  assert (Hk' : In k' (filter (key_eqb a) K)) by (apply filter_In; auto).
  destruct (filter (key_eqb a) K); [destruct Hk' | cbn [List.length] in H; lia].
Qed.

(** In a constructed comparator no two row labels of the comparison frame
    match. *)
Lemma index_unique (one0 other0 : DataFrame) (on0 : list string)
    (sub : option (list string)) (mode : string) (tol : float) (ic : bool)
    (st : DataFrameComparator) :
  DataFrameComparator_init one0 other0 on0 sub mode tol ic = Ok st ->
  unique_keys (cmp_index (_comparison st)) = true.
Proof.
  intros Hinit.
  destruct (init_state _ _ _ _ _ _ _ Hinit) as [_ [_ [_ [_ [Hidx _]]]]].
  rewrite Hidx. apply unique_of_single. intros l Hl. rewrite <- Hidx in Hl.
  destruct (@init_single_rows _ _ _ _ _ _ _ st l Hinit Hl) as [[r Hr] _].
  rewrite <- keys_rows_labelled, Hr. cbn. lia.
Qed.

Lemma length_keys_filter (f : key -> bool) (df : indexed) :
  List.length (filter (fun r => f (fst r)) df) = List.length (filter f (keys df)).
Proof. rewrite <- keys_filter. unfold keys. rewrite length_map. reflexivity. Qed.

(** The counts that [abstract] reports add up when no key cell of the old
    table is a missing value: every old row is deleted, updated or common,
    and every new row is inserted, updated or common. *)
Theorem abstract_counts_add_up
    (one0 other0 : DataFrame) (on0 : list string) (sub : option (list string))
    (mode : string) (tol : float) (ic : bool) (st : DataFrameComparator) :
  DataFrameComparator_init one0 other0 on0 sub mode tol ic = Ok st ->
  no_missing_key (table_keys one0 on0) = true ->
  exists a : Abstract,
    abstract_data st = Ok a
    /\ abstract_old a = List.length (data one0)
    /\ abstract_new a = List.length (data other0)
    /\ abstract_old a = abstract_deleted a + abstract_updated a + abstract_common a
    /\ abstract_new a = abstract_inserted a + abstract_updated a + abstract_common a.
Proof.
  intros Hinit Hkeys.
  destruct (init_state _ _ _ _ _ _ _ Hinit) as [H1 [H2 [Hk1 [_ [Hidx Hlen]]]]].
  destruct (init_fields _ _ _ _ _ _ _ Hinit) as [Ho [Hn _]].
  rewrite <- Hk1 in Hkeys.
  destruct (common_partitions st Hidx Hkeys) as [Hcom [_ Haft]].
  pose proof (index_unique _ _ _ _ _ _ _ Hinit) as Hu.
  set (idx := cmp_index (_comparison st)) in *.
  assert (Hsingle : forall m l, In l (loc_mask idx m) ->
            (exists r, rows_labelled (_one st) l = [r])
            /\ (exists r, rows_labelled (_other st) l = [r])).
  { intros m l Hl. apply (@init_single_rows _ _ _ _ _ _ _ st l Hinit).
    exact (loc_mask_incl _ _ l Hl). }
  assert (Lcom : List.length (flat_map (rows_labelled (_one st)) (loc_mask idx (_mask st)))
                 = List.length (loc_mask idx (_mask st))).
  { apply length_selected. intros l Hl. apply (Hsingle _ l Hl). }
  assert (Laft : List.length (flat_map (rows_labelled (_other st))
                                       (loc_mask idx (map negb (_mask st))))
                 = List.length (loc_mask idx (map negb (_mask st)))).
  { apply length_selected. intros l Hl. apply (Hsingle _ l Hl). }
  pose proof (length_loc_mask_split idx (_mask st) Hlen) as Hsplit.
  assert (E1 : List.length (data one0) = List.length (_one st)).
  { rewrite H1. unfold prepared. rewrite length_map. reflexivity. }
  assert (E2 : List.length (data other0) = List.length (_other st)).
  { rewrite H2. unfold prepared. rewrite length_map. reflexivity. }
  assert (Lold : List.length (data one0)
                 = List.length idx + List.length (rows_deleted st)).
  { rewrite E1, rows_deleted_filter.
    rewrite <- (length_filter_split (fun r => contains (keys (_other st)) (fst r))
                                    (_one st)) at 1.
    f_equal. rewrite (length_keys_filter (contains (keys (_other st)))).
    rewrite Hidx. reflexivity. }
  assert (Lnew : List.length (data other0)
                 = List.length idx + List.length (rows_inserted st)).
  { rewrite E2, rows_inserted_filter.
    rewrite <- (length_filter_split (fun r => contains (keys (_one st)) (fst r))
                                    (_other st)) at 1.
    f_equal.
    rewrite (filter_ext_in (fun r => contains (keys (_one st)) (fst r))
                           (fun r => contains idx (fst r))).
    - rewrite <- (count_rows_in (_other st) idx Hu), <- count_matches.
      apply length_selected. intros l Hl.
      apply (@init_single_rows _ _ _ _ _ _ _ st l Hinit Hl).
    - intros r Hr. rewrite Hidx, contains_filter_contains.
      rewrite (contains_In (keys (_other st)) (fst r))
        by (unfold keys; apply in_map; exact Hr).
      rewrite andb_true_r. reflexivity. }
  unfold abstract_data. rewrite Haft, Hcom. cbn [bind]. eexists.
  split; [reflexivity | ].
  cbn [abstract_old abstract_new abstract_deleted abstract_updated
       abstract_inserted abstract_common].
  rewrite Ho, Hn, Lcom, Laft.
  repeat split; lia.
Qed.

(** ** Which constructions return *)

(** The comparison of two prepared frames with unique keys ends as its
    cell comparisons do: with a result when all of them return, with one of
    their exceptions otherwise. *)
Lemma compare_outcome_gen (a b : indexed) (sub : list string) (mode : string)
    (tol : float) (ic : bool) (Q : exn -> Prop) :
  unique_keys (keys a) = true -> unique_keys (keys b) = true ->
  (forall i c r1 r2,
     nth_error sub i = Some c -> In r1 a -> In r2 b ->
     key_eqb (fst r1) (fst r2) = true ->
     (exists v, cell_verdict mode tol ic (numeric_column (column a i))
                  (nth i (snd r1) VNone) (nth i (snd r2) VNone) = Ok v)
     \/ (exists e, Q e
           /\ cell_verdict mode tol ic (numeric_column (column a i))
                (nth i (snd r1) VNone) (nth i (snd r2) VNone) = Raise e)) ->
  (exists cm, _compare sub (map (class_of a) (enumerate sub)) a b mode tol ic = Ok cm)
  \/ (exists e, Q e
        /\ _compare sub (map (class_of a) (enumerate sub)) a b mode tol ic = Raise e).
Proof.
  intros Hua Hub Hcells. unfold _compare, isin. rewrite loc_mask_map.
  destruct (@mapM_outcome _ _
              (compare_column (map (class_of a) (enumerate sub)) a b mode tol ic
                              (filter (contains (keys b)) (keys a)))
              (enumerate sub) Q) as [[cols Hok] | [e [He Hr]]].
  - intros [i c] Hic. apply In_enumerate in Hic.
    unfold compare_column. cbn [fst]. rewrite (@prepared_class a sub i c Hic).
    cbn [bind]. apply mapM_outcome. intros idx Hidx.
    apply filter_In in Hidx. destruct Hidx as [Hin Hc].
    destruct (at_matching a idx i Hua (contains_In _ _ Hin)) as [r1 [Hr1 [Hk1 Ha]]].
    destruct (at_matching b idx i Hub Hc) as [r2 [Hr2 [Hk2 Hb]]].
    unfold compare_cell. rewrite Ha, Hc, Hb. cbn [bind].
    rewrite is_number_class_of. apply (Hcells i c r1 r2 Hic Hr1 Hr2).
    exact (key_eqb_trans _ _ _ (key_eqb_sym _ _ Hk1) Hk2).
  - left. rewrite Hok. cbn [bind]. eauto.
  - right. exists e. rewrite Hr. auto.
Qed.

Lemma init_from_compare (one0 other0 : DataFrame) (on0 : list string)
    (sub : option (list string)) (mode : string) (tol : float) (ic : bool)
    (checked : list string) :
  _check_subset (columns one0) (columns other0) on0
                (Some (subset_or_columns sub one0)) = Ok checked ->
  rectangular one0 = true -> rectangular other0 = true ->
  nodupb on0 = true -> nodupb checked = true ->
  DataFrameComparator_init one0 other0 on0 sub mode tol ic
  = (cm <- _compare checked
             (map (class_of (prepared one0 on0 checked)) (enumerate checked))
             (prepared one0 on0 checked) (prepared other0 on0 checked)
             mode tol ic ;;
     Ok {| one := one0; other := other0; on := on0; subset := checked;
           number_mode := mode; number_tolerance := tol; ignore_case := ic;
           _one := prepared one0 on0 checked;
           _other := prepared other0 on0 checked;
           comparators := map (class_of (prepared one0 on0 checked))
                              (enumerate checked);
           _comparison := fst cm; _mask := snd cm |}).
Proof.
  intros Hcheck R1 R2 N1 N2.
  pose proof Hcheck as Hinv. apply check_subset_Ok_inv in Hinv.
  destruct Hinv as [Hchecked [Hj Hs]]. rewrite <- Hchecked in Hs.
  unfold DataFrameComparator_init. rewrite Hcheck. cbn [bind].
  rewrite (@prepare_data_Ok one0 other0 on0 checked R1 R2 N1 N2 Hj Hs).
  cbn [bind fst snd]. rewrite prepare_comparators_Ok. reflexivity.
Qed.

(** Once the subset check has passed, on rectangular frames with unique
    keys, construction returns a comparator or raises one of the exceptions
    of a cell comparison: never [KeyError], [IndexError] or
    [AssertionError]. *)
Theorem validated_construction_outcome
    (one0 other0 : DataFrame) (on0 : list string) (sub : option (list string))
    (mode : string) (tol : float) (ic : bool) (checked : list string) :
  _check_subset (columns one0) (columns other0) on0
                (Some (subset_or_columns sub one0)) = Ok checked ->
  rectangular one0 = true -> rectangular other0 = true ->
  nodupb on0 = true -> nodupb checked = true ->
  unique_keys (table_keys one0 on0) = true ->
  unique_keys (table_keys other0 on0) = true ->
  (exists st, DataFrameComparator_init one0 other0 on0 sub mode tol ic = Ok st)
  \/ (exists e, cell_exception mode ic e
        /\ DataFrameComparator_init one0 other0 on0 sub mode tol ic = Raise e).
Proof.
  intros Hcheck R1 R2 N1 N2 U1 U2.
  rewrite (@init_from_compare one0 other0 on0 sub mode tol ic checked
             Hcheck R1 R2 N1 N2).
  destruct (@compare_outcome_gen (prepared one0 on0 checked)
              (prepared other0 on0 checked) checked mode tol ic
              (cell_exception mode ic)) as [[cm Hcm] | [e [He Hr]]].
  - rewrite keys_prepared. exact U1.
  - rewrite keys_prepared. exact U2.
  - intros i c r1 r2 _ _ _ _. apply cell_verdict_outcome.
  - left. rewrite Hcm. cbn [bind]. eauto.
  - right. exists e. rewrite Hr. auto.
Qed.

Lemma In_prepared (df : DataFrame) (on0 sub : list string) (r : key * list value) :
  In r (prepared df on0 sub) <->
  exists row, In row (data df)
    /\ r = (map (cell (columns df) row) on0, map (cell (columns df) row) sub).
Proof.
  unfold prepared. rewrite in_map_iff. split; intros [row [H1 H2]]; exists row; auto.
Qed.

Lemma construction_returns
    (one0 other0 : DataFrame) (on0 : list string) (sub : option (list string))
    (mode : string) (tol : float) (ic : bool) (checked : list string) :
  _check_subset (columns one0) (columns other0) on0
                (Some (subset_or_columns sub one0)) = Ok checked ->
  rectangular one0 = true -> rectangular other0 = true ->
  nodupb on0 = true -> nodupb checked = true ->
  unique_keys (table_keys one0 on0) = true ->
  unique_keys (table_keys other0 on0) = true ->
  (forall i c row1 row2,
     nth_error checked i = Some c ->
     In row1 (data one0) -> In row2 (data other0) ->
     key_eqb (map (cell (columns one0) row1) on0)
             (map (cell (columns other0) row2) on0) = true ->
     cell_pair_returns one0 other0 mode tol ic c row1 row2) ->
  exists st, DataFrameComparator_init one0 other0 on0 sub mode tol ic = Ok st.
Proof.
  intros Hcheck R1 R2 N1 N2 U1 U2 Hcells.
  rewrite (@init_from_compare one0 other0 on0 sub mode tol ic checked
             Hcheck R1 R2 N1 N2).
  destruct (@compare_outcome_gen (prepared one0 on0 checked)
              (prepared other0 on0 checked) checked mode tol ic
              (fun _ => False)) as [[cm Hcm] | [e [[] _]]].
  - rewrite keys_prepared. exact U1.
  - rewrite keys_prepared. exact U2.
  - intros i c r1 r2 Hic H1 H2 Hk. left.
    apply In_prepared in H1. destruct H1 as [row1 [Hrow1 E1]].
    apply In_prepared in H2. destruct H2 as [row2 [Hrow2 E2]].
    subst r1 r2. cbn [fst snd] in *.
    rewrite (@column_prepared one0 on0 checked i c Hic).
    rewrite !(@prepared_cell _ checked _ i c Hic).
    exact (Hcells i c row1 row2 Hic Hrow1 Hrow2 Hk).
  - rewrite Hcm. cbn [bind]. eauto.
Qed.

Lemma cell_returns (one0 other0 : DataFrame) (on0 : list string)
    (sub : option (list string)) (mode : string) (tol : float) (ic : bool)
    (st : DataFrameComparator) (r1 r2 : key * list value) (i : nat) (c : string) :
  DataFrameComparator_init one0 other0 on0 sub mode tol ic = Ok st ->
  In r1 (_one st) -> In r2 (_other st) ->
  key_eqb (fst r1) (fst r2) = true ->
  nth_error (subset st) i = Some c ->
  exists v, cell_verdict mode tol ic (numeric_column (column (_one st) i))
              (nth i (snd r1) VNone) (nth i (snd r2) VNone) = Ok v.
Proof.
  intros Hinit H1 H2 Hk Hic.
  destruct (init_state _ _ _ _ _ _ _ Hinit) as [_ [_ [_ [_ [Hidx _]]]]].
  destruct (init_Ok_inv _ _ _ _ _ _ _ Hinit) as [_ [_ [_ Hc]]].
  destruct (init_fields _ _ _ _ _ _ _ Hinit) as [_ [_ [_ [_ [_ [_ Hcmps]]]]]].
  assert (Hin : In (fst r1) (cmp_index (_comparison st))).
  { rewrite Hidx. apply filter_In. split.
    - unfold keys. apply in_map. exact H1.
    - apply contains_spec. exists (fst r2). split; [ | exact Hk].
      unfold keys. apply in_map. exact H2. }
  destruct (@init_single_rows _ _ _ _ _ _ _ st (fst r1) Hinit Hin) as [[r Hr] [r' Hr']].
  assert (r = r1) by (apply (@single_row_is (_one st) (fst r1)); auto using key_eqb_refl).
  assert (r' = r2) by (apply (@single_row_is (_other st) (fst r1)); auto).
  subst r r'.
  apply In_nth_error in Hin. destruct Hin as [j Hj].
  destruct (@compare_cells_at _ _ _ _ _ _ _ _ _ i j c (fst r1) Hc Hic Hj)
    as [cls [col [v [Hcls [_ [_ Hcell]]]]]].
  rewrite Hcmps, (@prepared_class (_one st) _ i c Hic) in Hcls.
  injection Hcls as Hcls. subst cls.
  rewrite (@compare_cell_rows _ _ mode tol ic _ i (fst r1) r1 r2 Hr Hr') in Hcell.
  rewrite is_number_class_of in Hcell. eauto.
Qed.

(** On validated input construction returns a comparator exactly when the
    comparison of every pair of compared cells under a common key returns:
    one cell pair that raises anywhere in the two tables fails the whole
    construction, however many rows compare well. *)
Theorem construction_returns_iff
    (one0 other0 : DataFrame) (on0 : list string) (sub : option (list string))
    (mode : string) (tol : float) (ic : bool) (checked : list string) :
  _check_subset (columns one0) (columns other0) on0
                (Some (subset_or_columns sub one0)) = Ok checked ->
  rectangular one0 = true -> rectangular other0 = true ->
  nodupb on0 = true -> nodupb checked = true ->
  unique_keys (table_keys one0 on0) = true ->
  unique_keys (table_keys other0 on0) = true ->
  ((exists st, DataFrameComparator_init one0 other0 on0 sub mode tol ic = Ok st)
   <->
   (forall i c row1 row2,
      nth_error checked i = Some c ->
      In row1 (data one0) -> In row2 (data other0) ->
      key_eqb (map (cell (columns one0) row1) on0)
              (map (cell (columns other0) row2) on0) = true ->
      cell_pair_returns one0 other0 mode tol ic c row1 row2)).
Proof.
  intros Hcheck R1 R2 N1 N2 U1 U2. split.
  - intros [st Hst] i c row1 row2 Hic Hrow1 Hrow2 Hk.
    destruct (init_state _ _ _ _ _ _ _ Hst) as [Ha [Hb _]].
    destruct (init_Ok_inv _ _ _ _ _ _ _ Hst) as [Hcheck' _].
    assert (Hsub : subset st = checked) by congruence.
    rewrite Hsub in Ha, Hb.
    set (r1 := (map (cell (columns one0) row1) on0,
                map (cell (columns one0) row1) checked) : key * list value).
    set (r2 := (map (cell (columns other0) row2) on0,
                map (cell (columns other0) row2) checked) : key * list value).
    assert (H1 : In r1 (_one st)).
    { rewrite Ha. apply In_prepared. exists row1. auto. }
    assert (H2 : In r2 (_other st)).
    { rewrite Hb. apply In_prepared. exists row2. auto. }
    rewrite <- Hsub in Hic.
    destruct (@cell_returns _ _ _ _ _ _ _ st r1 r2 i c Hst H1 H2 Hk Hic) as [v Hv].
    rewrite Hsub in Hic. rewrite Ha in Hv.
    rewrite (@column_prepared one0 on0 checked i c Hic) in Hv.
    unfold r1, r2 in Hv. cbn [snd] in Hv.
    rewrite !(@prepared_cell _ checked _ i c Hic) in Hv.
    exists v. exact Hv.
  - apply (@construction_returns one0 other0 on0 sub mode tol ic checked); assumption.
Qed.

Lemma numeric_all_float (col : list value) :
  (forall v, In v col -> is_float v = true) -> numeric_column col = true.
Proof.
  intros H. unfold numeric_column.
  assert (Hok : exists fs, astype_float64 col = Ok fs).
  { unfold astype_float64. induction col as [ | v col IH]; cbn [mapM]; [eauto | ].
    destruct v as [f | s | ];
      try (specialize (H _ (or_introl eq_refl)); discriminate H).
    cbn [py_float bind]. destruct IH as [fs Hfs].
    - intros w Hw. apply H. right. exact Hw.
    - rewrite Hfs. cbn [bind]. eauto. }
  destruct Hok as [fs Hfs]. rewrite Hfs. reflexivity.
Qed.

(** Two tables whose compared cells are all floats are always compared in
    absolute mode (in fact in any mode but the relative one): on validated
    input construction returns. *)
Theorem float_tables_absolute_mode_return
    (one0 other0 : DataFrame) (on0 : list string) (sub : option (list string))
    (mode : string) (tol : float) (ic : bool) (checked : list string) :
  _check_subset (columns one0) (columns other0) on0
                (Some (subset_or_columns sub one0)) = Ok checked ->
  rectangular one0 = true -> rectangular other0 = true ->
  nodupb on0 = true -> nodupb checked = true ->
  unique_keys (table_keys one0 on0) = true ->
  unique_keys (table_keys other0 on0) = true ->
  mode <> "relative" ->
  (forall row c, In row (data one0) -> In c checked ->
                 is_float (cell (columns one0) row c) = true) ->
  (forall row c, In row (data other0) -> In c checked ->
                 is_float (cell (columns other0) row c) = true) ->
  exists st, DataFrameComparator_init one0 other0 on0 sub mode tol ic = Ok st.
Proof.
  intros Hcheck R1 R2 N1 N2 U1 U2 Hmode F1 F2.
  apply (@construction_returns one0 other0 on0 sub mode tol ic checked);
    try assumption.
  intros i c row1 row2 Hic Hrow1 Hrow2 _. unfold cell_pair_returns.
  assert (Hc : In c checked) by (apply nth_error_In with (n := i); exact Hic).
  rewrite numeric_all_float.
  - pose proof (F1 row1 c Hrow1 Hc) as E1. pose proof (F2 row2 c Hrow2 Hc) as E2.
    destruct (cell (columns one0) row1 c) as [f | | ]; try discriminate E1.
    destruct (cell (columns other0) row2 c) as [g | | ]; try discriminate E2.
    unfold cell_verdict, NumberComparator_compare.
    cbn [nc_one nc_other tol_mode tolerance py_float bind].
    apply String.eqb_neq in Hmode. rewrite Hmode. eauto.
  - intros v Hv. apply in_map_iff in Hv. destruct Hv as [row [Hv Hrow]].
    subst v. apply F1; assumption.
Qed.

(** ** Tables without a common key *)

(** When no key of the old table is in the new table, no cell is compared:
    on frames that pass the subset check construction returns whatever the
    cells hold, every old row is in [rows_deleted], every new row in
    [rows_inserted], and the three other partitions are empty. An empty old
    table and an empty new table are cases of this. *)
Theorem disjoint_keys_all_deleted_and_inserted
    (one0 other0 : DataFrame) (on0 : list string) (sub : option (list string))
    (mode : string) (tol : float) (ic : bool) (checked : list string) :
  _check_subset (columns one0) (columns other0) on0
                (Some (subset_or_columns sub one0)) = Ok checked ->
  rectangular one0 = true -> rectangular other0 = true ->
  nodupb on0 = true -> nodupb checked = true ->
  (forall k, In k (table_keys one0 on0) ->
             contains (table_keys other0 on0) k = false) ->
  exists st,
    DataFrameComparator_init one0 other0 on0 sub mode tol ic = Ok st
    /\ rows_deleted st = prepared one0 on0 checked
    /\ rows_inserted st = prepared other0 on0 checked
    /\ rows_in_common st = Ok []
    /\ rows_before_update st = Ok []
    /\ rows_after_update st = Ok []
    /\ _mask st = [].
Proof.
  intros Hcheck R1 R2 N1 N2 Hdisj.
  rewrite (@init_from_compare one0 other0 on0 sub mode tol ic checked
             Hcheck R1 R2 N1 N2).
  set (P1 := prepared one0 on0 checked). set (P2 := prepared other0 on0 checked).
  assert (K1 : keys P1 = table_keys one0 on0) by apply keys_prepared.
  assert (K2 : keys P2 = table_keys other0 on0) by apply keys_prepared.
  assert (Hidx : filter (contains (keys P2)) (keys P1) = []).
  { apply filter_none. intros k Hk. rewrite K2. apply Hdisj. rewrite <- K1. exact Hk. }
  assert (Hdisj' : forall k, In k (keys P2) -> contains (keys P1) k = false).
  { intros k Hk. apply not_true_iff_false. intros Hc.
    apply contains_spec in Hc. destruct Hc as [k1 [Hk1 Hm]].
    rewrite K1 in Hk1. specialize (Hdisj k1 Hk1).
    apply not_true_iff_false in Hdisj. apply Hdisj.
    apply contains_spec. exists k. rewrite <- K2. split; [exact Hk | ].
    apply key_eqb_sym. exact Hm. }
  unfold _compare, isin. rewrite loc_mask_map, Hidx.
  rewrite (mapM_map _ (fun _ => @nil bool)).
  - cbn [bind fst snd List.length seq map]. eexists. split; [reflexivity | ].
    split.
    { rewrite rows_deleted_filter. cbn [_one _other]. apply filter_all.
      intros r Hr. apply negb_true_iff. rewrite K2. apply Hdisj.
      rewrite <- K1. unfold keys. apply in_map. exact Hr. }
    split.
    { rewrite rows_inserted_filter. cbn [_one _other]. apply filter_all.
      intros r Hr. apply negb_true_iff. apply Hdisj'.
      unfold keys. apply in_map. exact Hr. }
    repeat split; reflexivity.
  - intros [i c] Hic. apply In_enumerate in Hic.
    unfold compare_column. cbn [fst]. rewrite (@prepared_class P1 checked i c Hic).
    reflexivity.
Qed.

(** ** The subset check, case by case *)

Lemma keys_acceptable_bool (c1 c2 on0 l : list string) :
  Nat.ltb 0 (List.length on0) && negb (issubset on0 l)
  && issubset on0 (intersection c1 c2) = true
  <-> keys_acceptable c1 c2 on0 l.
Proof.
  unfold keys_acceptable, common_column.
  rewrite !andb_true_iff, negb_true_iff, <- not_true_iff_false.
  rewrite !issubset_spec, Nat.ltb_lt. split.
  - intros [[H1 H2] H3]. split; [ | split].
    + intros E. subst on0. cbn in H1. lia.
    + intros c Hc. apply In_intersection. exact (H3 c Hc).
    + exact H2.
  - intros [H1 [H2 H3]]. split; [split | ].
    + destruct on0; [congruence | cbn; lia].
    + exact H3.
    + intros c Hc. apply In_intersection. exact (H2 c Hc).
Qed.

Lemma subset_acceptable_bool (c1 c2 on0 l : list string) :
  negb (Nat.eqb (List.length (difference (intersection c1 c2) on0)) 0)
  && issubset l (difference (intersection c1 c2) on0) = true
  <-> subset_acceptable c1 c2 on0 l.
Proof.
  unfold subset_acceptable, common_column.
  rewrite andb_true_iff, negb_true_iff, Nat.eqb_neq, issubset_spec. split.
  - intros [H1 H2]. split.
    + destruct (difference (intersection c1 c2) on0) as [ | c d] eqn:Hd;
        [cbn in H1; congruence | ].
      exists c. assert (Hc : In c (difference (intersection c1 c2) on0)).
      { rewrite Hd. left. reflexivity. }
      apply In_difference in Hc. rewrite In_intersection in Hc. exact Hc.
    + intros c Hc. specialize (H2 c Hc). apply In_difference in H2.
      rewrite In_intersection in H2. exact H2.
  - intros [[c [Hc Hn]] H2]. split.
    + assert (Hin : In c (difference (intersection c1 c2) on0)).
      { apply In_difference. rewrite In_intersection. auto. }
      destruct (difference (intersection c1 c2) on0); [destruct Hin | discriminate].
    + intros c' Hc'. apply In_difference. rewrite In_intersection.
      exact (H2 c' Hc').
Qed.

Lemma check_subset_Ok_acceptable (c1 c2 on0 l x : list string) :
  _check_subset c1 c2 on0 (Some l) = Ok x ->
  keys_acceptable c1 c2 on0 l /\ subset_acceptable c1 c2 on0 l.
Proof.
  pose proof (keys_acceptable_bool c1 c2 on0 l) as HK.
  pose proof (subset_acceptable_bool c1 c2 on0 l) as HS.
  unfold _check_subset, bind.
  destruct (Nat.ltb 0 (List.length on0) && negb (issubset on0 l)
            && issubset on0 (intersection c1 c2)); cbn [negb]; [ | discriminate].
  destruct (Nat.eqb (List.length (difference (intersection c1 c2) on0)) 0);
    [discriminate | ].
  destruct (issubset l (difference (intersection c1 c2) on0)); cbn [negb];
    [ | discriminate].
  intros _. split; [apply HK | apply HS]; reflexivity.
Qed.

Ltac finish_cases :=
  split; [ | split; [ | split]];
  try (split; intros; try discriminate; try congruence; tauto);
  try (intros; try discriminate; congruence).

(** [_check_subset] returns exactly when the keys and the subset are
    acceptable, and then returns the subset unchanged; it raises
    [AssertionError] exactly when the keys are not acceptable (no key
    column, a key column missing from a table, or every key column inside
    the subset), and [KeyError] exactly when the keys are acceptable and the
    subset is not (a subset column that is not a common non-key column, or
    no common column besides the keys). *)
Theorem check_subset_characterised (c1 c2 on0 l : list string) :
  (_check_subset c1 c2 on0 (Some l) = Ok l
   <-> keys_acceptable c1 c2 on0 l /\ subset_acceptable c1 c2 on0 l)
  /\ (_check_subset c1 c2 on0 (Some l) = Raise AssertionError
      <-> ~ keys_acceptable c1 c2 on0 l)
  /\ (_check_subset c1 c2 on0 (Some l) = Raise KeyError
      <-> keys_acceptable c1 c2 on0 l /\ ~ subset_acceptable c1 c2 on0 l)
  /\ (forall x, _check_subset c1 c2 on0 (Some l) = Ok x -> x = l).
Proof.
  pose proof (keys_acceptable_bool c1 c2 on0 l) as HK.
  pose proof (subset_acceptable_bool c1 c2 on0 l) as HS.
  unfold _check_subset, bind.
  destruct (Nat.ltb 0 (List.length on0) && negb (issubset on0 l)
            && issubset on0 (intersection c1 c2)) eqn:Ek; cbn [negb].
  - assert (Hk : keys_acceptable c1 c2 on0 l) by (apply HK; reflexivity).
    destruct (Nat.eqb (List.length (difference (intersection c1 c2) on0)) 0) eqn:Ee;
      cbn [negb andb] in HS.
    + assert (Hs : ~ subset_acceptable c1 c2 on0 l).
      { intros Hs. apply HS in Hs. discriminate Hs. }
      finish_cases.
    + destruct (issubset l (difference (intersection c1 c2) on0)) eqn:Ei; cbn [negb].
      * assert (Hs : subset_acceptable c1 c2 on0 l) by (apply HS; reflexivity).
        finish_cases.
      * assert (Hs : ~ subset_acceptable c1 c2 on0 l).
        { intros Hs. apply HS in Hs. discriminate Hs. }
        finish_cases.
  - assert (Hk : ~ keys_acceptable c1 c2 on0 l).
    { intros Hk. apply HK in Hk. discriminate Hk. }
    finish_cases.
Qed.

(** ** Swapping the tables, shapes and row order *)

Lemma init_given_subset (one0 other0 : DataFrame) (on0 l : list string)
    (mode : string) (tol : float) (ic : bool) (st : DataFrameComparator) :
  DataFrameComparator_init one0 other0 on0 (Some l) mode tol ic = Ok st ->
  subset st = l.
Proof.
  intros H. destruct l as [ | c l].
  - rewrite init_default_subset in H by reflexivity. discriminate H.
  - destruct (init_Ok_inv _ _ _ _ _ _ _ H) as [Hc _].
    apply check_subset_Ok_inv in Hc. destruct Hc as [Hc _]. exact Hc.
Qed.

(** Comparing the new table against the old one instead: when both
    constructions return, the deleted rows of the one are the inserted rows
    of the other. *)
Theorem swapped_tables_swap_deleted_and_inserted
    (one0 other0 : DataFrame) (on0 l : list string) (mode : string)
    (tol : float) (ic : bool) (st st' : DataFrameComparator) :
  DataFrameComparator_init one0 other0 on0 (Some l) mode tol ic = Ok st ->
  DataFrameComparator_init other0 one0 on0 (Some l) mode tol ic = Ok st' ->
  rows_deleted st' = rows_inserted st
  /\ rows_inserted st' = rows_deleted st.
Proof.
  intros H H'.
  destruct (init_state _ _ _ _ _ _ _ H) as [Ha [Hb _]].
  destruct (init_state _ _ _ _ _ _ _ H') as [Ha' [Hb' _]].
  rewrite (init_given_subset _ _ _ _ _ _ _ H) in Ha, Hb.
  rewrite (init_given_subset _ _ _ _ _ _ _ H') in Ha', Hb'.
  rewrite !rows_deleted_filter, !rows_inserted_filter, Ha, Hb, Ha', Hb'.
  split; reflexivity.
Qed.

Lemma prepared_row_lengths (df : DataFrame) (on0 sub : list string)
    (r : key * list value) :
  In r (prepared df on0 sub) ->
  List.length (fst r) = List.length on0 /\ List.length (snd r) = List.length sub.
Proof.
  intros H. apply In_prepared in H. destruct H as [row [_ E]]. subst r.
  cbn [fst snd]. rewrite !length_map. auto.
Qed.

(** The shape of a constructed comparator: a non-empty subset of common
    columns that are no key columns, key columns common to both tables, one
    comparator class and one column of verdicts per compared column, one
    verdict per row label in each of them and in the mask, and in both
    prepared frames rows of one key cell per key column and one cell per
    compared column. *)
Theorem constructed_comparator_shape
    (one0 other0 : DataFrame) (on0 : list string) (sub : option (list string))
    (mode : string) (tol : float) (ic : bool) (st : DataFrameComparator) :
  DataFrameComparator_init one0 other0 on0 sub mode tol ic = Ok st ->
  subset st <> []
  /\ (forall c, In c (subset st) ->
        In c (columns one0) /\ In c (columns other0) /\ ~ In c on0)
  /\ on0 <> []
  /\ (forall c, In c on0 -> In c (columns one0) /\ In c (columns other0))
  /\ List.length (comparators st) = List.length (subset st)
  /\ List.length (cmp_columns (_comparison st)) = List.length (subset st)
  /\ (forall col, In col (cmp_columns (_comparison st)) ->
        List.length col = List.length (cmp_index (_comparison st)))
  /\ List.length (_mask st) = List.length (cmp_index (_comparison st))
  /\ (forall r, In r (_one st) \/ In r (_other st) ->
        List.length (fst r) = List.length on0
        /\ List.length (snd r) = List.length (subset st)).
Proof.
  intros Hinit.
  pose proof (init_subset_nonempty _ _ _ _ _ _ _ Hinit) as Hne.
  destruct (init_Ok_inv _ _ _ _ _ _ _ Hinit) as [Hcheck [_ [Hcmps Hc]]].
  destruct (init_state _ _ _ _ _ _ _ Hinit) as [Ha [Hb _]].
  pose proof Hcheck as Hinv. apply check_subset_Ok_inv in Hinv.
  destruct Hinv as [Hsub _].
  apply check_subset_Ok_acceptable in Hcheck. rewrite <- Hsub in Hcheck.
  destruct Hcheck as [[K1 [K2 _]] [_ S2]].
  destruct (@compare_columns_length _ _ _ _ _ _ _ _ _ Hc) as [L1 [L2 L3]].
  split; [exact Hne | ]. split.
  { intros c Hc'. destruct (S2 c Hc') as [[H1 H2] H3]. auto. }
  split; [exact K1 | ]. split; [exact K2 | ]. split.
  { apply mapM_Ok_length in Hcmps. rewrite Hcmps. unfold enumerate.
    rewrite length_combine, length_seq. apply Nat.min_id. }
  split; [exact L1 | ]. split; [exact L2 | ]. split; [exact L3 | ].
  intros r [Hr | Hr]; [rewrite Ha in Hr | rewrite Hb in Hr];
    apply (prepared_row_lengths _ _ _ _ Hr).
Qed.

Lemma selected_rows_mask (df R : indexed) (m : list bool) :
  (forall r, In r R -> rows_labelled df (fst r) = [r]) ->
  flat_map (rows_labelled df) (loc_mask (keys R) m) = loc_mask R m.
Proof.
  revert m. induction R as [ | r R IH]; intros m H.
  - destruct m; reflexivity.
  - destruct m as [ | b m]; [reflexivity | ].
    cbn [keys map]. rewrite !loc_mask_cons.
    assert (IH' : flat_map (rows_labelled df) (loc_mask (keys R) m) = loc_mask R m).
    { apply IH. intros r' Hr'. apply H. right. exact Hr'. }
    unfold keys in IH'. destruct b.
    + cbn [flat_map]. rewrite (H r (or_introl eq_refl)), IH'. reflexivity.
    + exact IH'.
Qed.

(** The old rows come out in the order of the old table: [rows_deleted] is
    the old table without the rows of common keys and, when no key cell of
    the old table is a missing value, [rows_in_common] and
    [rows_before_update] are what the mask and its complement select from
    the old rows of common keys. *)
Theorem old_rows_keep_their_order
    (one0 other0 : DataFrame) (on0 : list string) (sub : option (list string))
    (mode : string) (tol : float) (ic : bool) (st : DataFrameComparator) :
  DataFrameComparator_init one0 other0 on0 sub mode tol ic = Ok st ->
  no_missing_key (table_keys one0 on0) = true ->
  let shared := filter (fun r => contains (table_keys other0 on0) (fst r))
                       (prepared one0 on0 (subset st)) in
  rows_deleted st
  = filter (fun r => negb (contains (table_keys other0 on0) (fst r)))
           (prepared one0 on0 (subset st))
  /\ rows_in_common st = Ok (loc_mask shared (_mask st))
  /\ rows_before_update st = Ok (loc_mask shared (map negb (_mask st)))
  /\ List.length (_mask st) = List.length shared.
Proof.
  intros Hinit Hkeys shared.
  destruct (init_state _ _ _ _ _ _ _ Hinit) as [Ha [_ [Hk1 [Hk2 [Hidx Hlen]]]]].
  rewrite <- Hk1 in Hkeys.
  destruct (common_partitions st Hidx Hkeys) as [Hcom [Hbef _]].
  assert (Hshared : cmp_index (_comparison st) = keys shared).
  { rewrite Hidx. unfold shared. rewrite <- Ha, <- Hk2.
    symmetry. apply (keys_filter (contains (keys (_other st)))). }
  assert (Hrows : forall r, In r shared -> rows_labelled (_one st) (fst r) = [r]).
  { intros r Hr.
    assert (Hr1 : In r (_one st)).
    { unfold shared in Hr. apply filter_In in Hr. rewrite Ha. tauto. }
    assert (Hl : In (fst r) (cmp_index (_comparison st))).
    { rewrite Hshared. unfold keys. apply in_map. exact Hr. }
    destruct (@init_single_rows _ _ _ _ _ _ _ st (fst r) Hinit Hl) as [[r' Hr'] _].
    rewrite Hr'. f_equal.
    apply (@single_row_is (_one st) (fst r)); auto using key_eqb_refl. }
  split; [rewrite rows_deleted_filter, Ha, Hk2; reflexivity | ].
  rewrite Hcom, Hbef, Hshared, !(selected_rows_mask (_one st) shared _ Hrows).
  repeat split. rewrite Hlen, Hshared. unfold keys. apply length_map.
Qed.

(** ** The number comparator, further *)

Lemma binary_normalize_abs_opp (m e : Z) :
  SFabs (binary_normalize b64_prec b64_emax (- m) e false)
  = SFabs (binary_normalize b64_prec b64_emax m e false).
Proof.
  destruct m as [ | p | p]; cbn [Z.opp binary_normalize]; [reflexivity | | ];
    unfold binary_round;
    destruct (shl_align p e _) as [mz ez];
    rewrite !binary_round_aux_abs; reflexivity.
Qed.

Lemma fabs_fsub_sym (a b : float) : fabs (fsub a b) = fabs (fsub b a).
Proof.
  unfold fabs, fsub, SFsub.
  destruct a as [sa | sa | | sa ma ea], b as [sb | sb | | sb mb eb];
    try destruct sa; try destruct sb; try reflexivity.
  all: rewrite (Z.min_comm eb ea);
    rewrite <- binary_normalize_abs_opp; f_equal; f_equal; cbn [cond_Zopp]; lia.
Qed.

Lemma flt_trans (x y z : float) :
  flt x y = true -> flt y z = true -> flt x z = true.
Proof.
  unfold flt, SFltb.
  destruct x as [sx | sx | | sx mx ex], y as [sy | sy | | sy my ey],
           z as [sz | sz | | sz mz ez];
    try destruct sx; try destruct sy; try destruct sz; cbn;
    try discriminate; try reflexivity.
  all: change (Pos.compare_cont Eq) with Pos.compare.
  all: destruct (Z.compare_spec ex ey), (Z.compare_spec ey ez), (Z.compare_spec ex ez);
       destruct (Pos.compare_spec mx my), (Pos.compare_spec my mz),
                (Pos.compare_spec mx mz);
       cbn; try discriminate; try reflexivity; try lia.
Qed.

Lemma flt_abs_positive (x t : float) : flt (fabs x) t = true -> flt fzero t = true.
Proof.
  unfold flt, SFltb, fabs, fzero.
  destruct x as [sx | sx | | sx mx ex], t as [st | st | | st mt et];
    try destruct st; cbn; try discriminate; try reflexivity.
Qed.

Lemma py_max_abs_comm (a b : float) :
  is_nan a = false -> is_nan b = false ->
  py_max (fabs a) (fabs b) = py_max (fabs b) (fabs a).
Proof.
  unfold py_max, flt, SFltb, fabs.
  destruct a as [sa | sa | | sa ma ea], b as [sb | sb | | sb mb eb];
    try discriminate; intros _ _; cbn; try reflexivity.
  change (Pos.compare_cont Eq) with Pos.compare.
  destruct (Z.compare_spec ea eb), (Z.compare_spec eb ea);
    destruct (Pos.compare_spec ma mb), (Pos.compare_spec mb ma);
    cbn; subst; try reflexivity; try lia.
Qed.

(** A value against itself in absolute mode: equal exactly when the value
    is finite and the tolerance is above zero. Infinities and NaN are not
    equal to themselves, and under tolerance 0 nothing is. *)
Theorem absolute_self_comparison (a t : float) :
  absolutely_compare a a t = is_finite a && flt fzero t.
Proof.
  unfold absolutely_compare. destruct (is_finite a) eqn:Hf.
  - rewrite (fsub_diag a Hf). reflexivity.
  - destruct a as [s | s | | s m e]; try discriminate Hf.
    + destruct s; reflexivity.
    + reflexivity.
Qed.

(** The absolute comparison does not depend on the order of its two
    values. *)
Theorem absolute_compare_symmetric (a b t : float) :
  absolutely_compare a b t = absolutely_compare b a t.
Proof. unfold absolutely_compare. rewrite fabs_fsub_sym. reflexivity. Qed.

(** Raising the tolerance keeps equal values equal in absolute mode. *)
Theorem absolute_tolerance_monotone (a b t t' : float) :
  absolutely_compare a b t = true ->
  flt t t' = true ->
  absolutely_compare a b t' = true.
Proof. unfold absolutely_compare. apply flt_trans. Qed.

(** Under a tolerance that is not above zero (zero, negative or NaN) the
    absolute comparison never answers equal, and the relative comparison
    answers equal for two zeros only. *)
Theorem tolerance_not_above_zero (a b t : float) :
  flt fzero t = false ->
  absolutely_compare a b t = false
  /\ (forall r, relatively_compare a b t = Ok r -> r = is_zero a && is_zero b).
Proof.
  intros Ht.
  assert (Hno : forall x, flt (fabs x) t = false).
  { intros x. apply not_true_iff_false. intros H.
    apply flt_abs_positive in H. congruence. }
  split; [apply Hno | ].
  unfold relatively_compare. rewrite guard_both_zero.
  destruct (is_zero a && is_zero b); [intros r H; congruence | ].
  unfold py_truediv. destruct (feq _ fzero); cbn [bind]; [discriminate | ].
  intros r H. injection H as H. rewrite Hno in H. congruence.
Qed.

(** On numbers the relative comparison does not depend on the order of its
    two values. (With NaN it does: NaN against a zero returns "not equal",
    a zero against NaN raises.) *)
Theorem relative_compare_symmetric (a b t : float) :
  is_nan a = false -> is_nan b = false ->
  relatively_compare a b t = relatively_compare b a t
  /\ (forall s, relatively_compare fnan (S754_zero s) t = Ok false).
Proof.
  intros Ha Hb. split.
  - rewrite !relatively_compare_returns
      by (rewrite ?Ha, ?Hb; apply andb_false_r).
    rewrite (andb_comm (is_zero a)), fabs_fsub_sym, (py_max_abs_comm a b Ha Hb).
    reflexivity.
  - intros s. destruct s; reflexivity.
Qed.

(** ** The string comparator *)

Lemma feq_sym (x y : float) : feq x y = feq y x.
Proof.
  assert (H : forall u v, feq u v = true -> feq v u = true).
  { intros u v Huv.
    assert (Hs : float_same u v) by (apply float_match_same; rewrite Huv; reflexivity).
    apply float_same_sym, float_match_same in Hs.
    destruct (feq v u); [reflexivity | ].
    destruct u, v; cbn in Hs; try discriminate Hs. discriminate Huv. }
  destruct (feq x y) eqn:Exy, (feq y x) eqn:Eyx; try reflexivity.
  - apply H in Exy. congruence.
  - apply H in Eyx. congruence.
Qed.

Lemma py_eq_sym (a b : value) : py_eq a b = py_eq b a.
Proof.
  destruct a as [f | s | ], b as [g | t | ]; cbn; try reflexivity.
  - apply feq_sym.
  - apply String.eqb_sym.
Qed.

(** The string comparator raises in one situation only: case is ignored
    and one of the two values is no string; the exception is then
    [AttributeError]. Otherwise it returns a verdict. *)
Theorem string_compare_raises_iff (one_val other_val : value) (ic : bool) :
  let self := {| sc_one := one_val; sc_other := other_val; sc_ignore_case := ic |} in
  (StringComparator_compare self = Raise AttributeError
   <-> ic = true /\ is_str one_val && is_str other_val = false)
  /\ ((exists b, StringComparator_compare self = Ok b)
      <-> ic = false \/ is_str one_val && is_str other_val = true)
  /\ (forall e, StringComparator_compare self = Raise e -> e = AttributeError)
  /\ StringComparator_compare self <> OutOfModel.
Proof.
  unfold StringComparator_compare. cbn [sc_one sc_other sc_ignore_case].
  destruct ic; [destruct one_val as [f | s | ], other_val as [g | t | ] | ];
    cbn; (split; [split | split; [split | split]]);
    first [ solve [intros H; discriminate H]
          | solve [intros [_ H]; discriminate H]
          | solve [intros [H _]; discriminate H]
          | solve [intros [b H]; discriminate H]
          | solve [intros [H | H]; discriminate H]
          | solve [intros _; split; reflexivity]
          | solve [intros _; reflexivity]
          | solve [intros _; right; reflexivity]
          | solve [intros _; left; reflexivity]
          | solve [intros _; eexists; reflexivity]
          | solve [intros e H; congruence] ].
Qed.

(** Swapping the two values of a string comparison changes nothing: the
    same verdict, or the same exception. *)
Theorem string_compare_symmetric (one_val other_val : value) (ic : bool) :
  StringComparator_compare
    {| sc_one := one_val; sc_other := other_val; sc_ignore_case := ic |}
  = StringComparator_compare
      {| sc_one := other_val; sc_other := one_val; sc_ignore_case := ic |}.
Proof.
  unfold StringComparator_compare. cbn [sc_one sc_other sc_ignore_case].
  destruct ic.
  - destruct one_val as [f | s | ], other_val as [g | t | ]; cbn; try reflexivity.
    rewrite String.eqb_sym. reflexivity.
  - rewrite py_eq_sym. reflexivity.
Qed.

(** ** Column classes and the mode string *)

Lemma numeric_column_converts (col : list value) :
  numeric_column col = forallb converts col.
Proof.
  unfold numeric_column, astype_float64.
  induction col as [ | v col IH]; cbn [mapM forallb]; [reflexivity | ].
  destruct v as [f | s | ]; cbn [py_float converts bind andb].
  - rewrite <- IH. destruct (mapM _ col); reflexivity.
  - destruct (float_of_str s); cbn [bind andb]; [ | reflexivity].
    rewrite <- IH. destruct (mapM _ col); reflexivity.
  - rewrite <- IH. destruct (mapM _ col); reflexivity.
Qed.

(** The class of a compared column is decided by the old table alone: the
    number comparator when every old cell of the column is a float, [None]
    or a string that [float()] reads (so also when the old table has no
    row), the string comparator otherwise. The new table has no say. *)
Theorem classification_by_old_table
    (one0 other0 : DataFrame) (on0 : list string) (sub : option (list string))
    (mode : string) (tol : float) (ic : bool) (st : DataFrameComparator)
    (i : nat) (c : string) :
  DataFrameComparator_init one0 other0 on0 sub mode tol ic = Ok st ->
  nth_error (subset st) i = Some c ->
  nth_error (comparators st) i
  = Some (if forallb converts (map (fun row => cell (columns one0) row c) (data one0))
          then NumberComparatorClass else StringComparatorClass).
Proof.
  intros Hinit Hic.
  destruct (init_fields _ _ _ _ _ _ _ Hinit) as [_ [_ [_ [_ [_ [_ Hcmps]]]]]].
  destruct (init_state _ _ _ _ _ _ _ Hinit) as [Ha _].
  rewrite Hcmps, (@prepared_class (_one st) _ i c Hic).
  unfold class_of. cbn [fst]. rewrite Ha at 1.
  rewrite (@column_prepared one0 on0 _ i c Hic), numeric_column_converts.
  reflexivity.
Qed.

Lemma mapM_ext {A B : Type} (f g : A -> result B) (l : list A) :
  (forall x, f x = g x) -> mapM f l = mapM g l.
Proof.
  intros H. induction l as [ | x l IH]; cbn [mapM]; [reflexivity | ].
  rewrite H, IH. reflexivity.
Qed.

Lemma compare_mode_not_relative (sub : list string) (cmps : list comparator)
    (a b : indexed) (mode : string) (tol : float) (ic : bool) :
  mode <> "relative" ->
  _compare sub cmps a b mode tol ic = _compare sub cmps a b "absolute" tol ic.
Proof.
  intros Hmode. apply String.eqb_neq in Hmode. unfold _compare.
  set (index := loc_mask (keys a) (isin (keys a) (keys b))).
  rewrite (mapM_ext
             (compare_column cmps a b mode tol ic index)
             (compare_column cmps a b "absolute" tol ic index)); [reflexivity | ].
  intros x. unfold compare_column.
  destruct (nth_error cmps (fst x)) as [cls | ]; cbn [bind]; [ | reflexivity].
  apply mapM_ext. intros idx. unfold compare_cell.
  destruct (at_ a idx (fst x)) as [v1 | | ]; cbn [bind]; try reflexivity.
  destruct (if contains (keys b) idx then at_ b idx (fst x) else Ok VNone)
    as [v2 | | ]; cbn [bind]; try reflexivity.
  unfold cell_verdict, NumberComparator_compare.
  cbn [nc_one nc_other tol_mode tolerance]. rewrite Hmode. reflexivity.
Qed.

(** The mode string is never checked against [TOLERANCE_MODES]: any string
    but ["relative"] is taken for the absolute mode. Construction under
    such a mode ends as under ["absolute"], with the same exception or with
    the same five partitions. *)
Theorem unknown_mode_is_absolute
    (one0 other0 : DataFrame) (on0 : list string) (sub : option (list string))
    (mode : string) (tol : float) (ic : bool) :
  mode <> "relative" ->
  match DataFrameComparator_init one0 other0 on0 sub mode tol ic,
        DataFrameComparator_init one0 other0 on0 sub "absolute" tol ic with
  | Ok st, Ok st' =>
      rows_deleted st = rows_deleted st'
      /\ rows_inserted st = rows_inserted st'
      /\ rows_in_common st = rows_in_common st'
      /\ rows_before_update st = rows_before_update st'
      /\ rows_after_update st = rows_after_update st'
  | Raise e, Raise e' => e = e'
  | OutOfModel, OutOfModel => True
  | _, _ => False
  end.
Proof.
  intros Hmode. unfold DataFrameComparator_init.
  destruct (_check_subset _ _ _ _) as [checked | e | ]; cbn [bind]; auto.
  destruct (_prepare_data _ _ _ _) as [[a b] | e | ]; cbn [bind fst snd]; auto.
  destruct (_prepare_comparators _ _) as [cmps | e | ]; cbn [bind]; auto.
  rewrite (compare_mode_not_relative checked cmps a b tol ic Hmode).
  destruct (_compare _ _ _ _ _ _ _) as [[cmp mask] | e | ]; cbn [bind]; auto.
Qed.

(** ** Missing values *)

(** NaN is never equal to anything, itself included: with NaN on either
    side the absolute comparison answers "not equal", and so does the
    relative comparison whenever it returns. *)
Theorem nan_never_equal (a b t : float) :
  is_nan a || is_nan b = true ->
  absolutely_compare a b t = false
  /\ (forall r, relatively_compare a b t = Ok r -> r = false).
Proof.
  intros Hnan.
  assert (Hsub : fsub a b = fnan).
  { destruct a, b; try discriminate Hnan; reflexivity. }
  split.
  - unfold absolutely_compare. rewrite Hsub. reflexivity.
  - unfold relatively_compare. rewrite guard_both_zero.
    assert (Hz : is_zero a && is_zero b = false).
    { destruct a, b; try discriminate Hnan; reflexivity. }
    rewrite Hz, Hsub. unfold py_truediv.
    destruct (feq _ fzero); cbn [bind]; [discriminate | ].
    intros r H. injection H as H. subst r.
    destruct (py_max (fabs a) (fabs b)); reflexivity.
Qed.

(** [None] in the old table passes the classification of a column as
    numeric but not the comparison: when such a cell sits under a common
    key, construction on validated input raises. *)
Theorem none_in_numeric_column_aborts
    (one0 other0 : DataFrame) (on0 : list string) (sub : option (list string))
    (mode : string) (tol : float) (ic : bool) (checked : list string)
    (i : nat) (c : string) (row1 row2 : list value) :
  _check_subset (columns one0) (columns other0) on0
                (Some (subset_or_columns sub one0)) = Ok checked ->
  rectangular one0 = true -> rectangular other0 = true ->
  nodupb on0 = true -> nodupb checked = true ->
  unique_keys (table_keys one0 on0) = true ->
  unique_keys (table_keys other0 on0) = true ->
  nth_error checked i = Some c ->
  forallb converts (map (fun row => cell (columns one0) row c) (data one0)) = true ->
  In row1 (data one0) -> In row2 (data other0) ->
  cell (columns one0) row1 c = VNone ->
  key_eqb (map (cell (columns one0) row1) on0)
          (map (cell (columns other0) row2) on0) = true ->
  exists e, cell_exception mode ic e
    /\ DataFrameComparator_init one0 other0 on0 sub mode tol ic = Raise e.
Proof.
  intros Hcheck R1 R2 N1 N2 U1 U2 Hic Hnum Hrow1 Hrow2 Hnone Hk.
  destruct (DataFrameComparator_init one0 other0 on0 sub mode tol ic)
    as [st | e | ] eqn:Hinit.
  - exfalso.
    destruct (init_state _ _ _ _ _ _ _ Hinit) as [Ha [Hb _]].
    destruct (init_Ok_inv _ _ _ _ _ _ _ Hinit) as [Hcheck' _].
    assert (Hsub : subset st = checked) by congruence.
    rewrite Hsub in Ha, Hb.
    set (r1 := (map (cell (columns one0) row1) on0,
                map (cell (columns one0) row1) checked) : key * list value).
    set (r2 := (map (cell (columns other0) row2) on0,
                map (cell (columns other0) row2) checked) : key * list value).
    assert (H1 : In r1 (_one st)).
    { rewrite Ha. apply In_prepared. exists row1. auto. }
    assert (H2 : In r2 (_other st)).
    { rewrite Hb. apply In_prepared. exists row2. auto. }
    rewrite <- Hsub in Hic.
    destruct (@cell_returns _ _ _ _ _ _ _ st r1 r2 i c Hinit H1 H2 Hk Hic) as [v Hv].
    rewrite Hsub in Hic. rewrite Ha in Hv.
    rewrite (@column_prepared one0 on0 checked i c Hic) in Hv.
    rewrite numeric_column_converts, Hnum in Hv.
    unfold r1 in Hv. cbn [snd] in Hv.
    rewrite (@prepared_cell _ checked _ i c Hic), Hnone in Hv.
    discriminate Hv.
  - exists e. split; [ | reflexivity].
    rewrite (@init_from_compare one0 other0 on0 sub mode tol ic checked
               Hcheck R1 R2 N1 N2) in Hinit.
    destruct (@compare_outcome_gen (prepared one0 on0 checked)
                (prepared other0 on0 checked) checked mode tol ic
                (cell_exception mode ic)) as [[cm Hcm] | [e' [He' Hr]]].
    + rewrite keys_prepared. exact U1.
    + rewrite keys_prepared. exact U2.
    + intros i' c' r1 r2 _ _ _ _. apply cell_verdict_outcome.
    + rewrite Hcm in Hinit. discriminate Hinit.
    + rewrite Hr in Hinit. cbn [bind] in Hinit. congruence.
  - exfalso.
    rewrite (@init_from_compare one0 other0 on0 sub mode tol ic checked
               Hcheck R1 R2 N1 N2) in Hinit.
    destruct (@compare_outcome_gen (prepared one0 on0 checked)
                (prepared other0 on0 checked) checked mode tol ic
                (cell_exception mode ic)) as [[cm Hcm] | [e' [He' Hr]]].
    + rewrite keys_prepared. exact U1.
    + rewrite keys_prepared. exact U2.
    + intros i' c' r1 r2 _ _ _ _. apply cell_verdict_outcome.
    + rewrite Hcm in Hinit. discriminate Hinit.
    + rewrite Hr in Hinit. discriminate Hinit.
Qed.

(** ** The updated pair, by cell verdicts *)

Lemma bounded_search (P : nat -> bool) (n : nat) :
  (forall i, i < n -> P i = true) \/ (exists i, i < n /\ P i = false).
Proof.
  induction n as [ | n [IH | [i [Hi Hf]]]].
  - left. intros i Hi. lia.
  - destruct (P n) eqn:Hn.
    + left. intros i Hi. destruct (Nat.eq_dec i n); [subst; exact Hn | apply IH; lia].
    + right. exists n. split; [lia | exact Hn].
  - right. exists i. split; [lia | exact Hf].
Qed.

(** Among cell verdicts that were all returned, either all are true or one
    is false. *)
Lemma some_cell_unequal (sub : list string) (V : nat -> result bool) :
  (forall i c, nth_error sub i = Some c -> exists v, V i = Ok v) ->
  ~ (forall i c, nth_error sub i = Some c -> V i = Ok true) ->
  exists i c, nth_error sub i = Some c /\ V i = Ok false.
Proof.
  intros Hret Hnot.
  destruct (bounded_search
              (fun i => match V i with Ok false => false | _ => true end)
              (List.length sub)) as [Hall | [i [Hi Hf]]].
  - exfalso. apply Hnot. intros i c Hic.
    assert (Hi : i < List.length sub) by (apply nth_error_Some; congruence).
    specialize (Hall i Hi). destruct (Hret i c Hic) as [v Hv].
    rewrite Hv in *. destruct v; [reflexivity | discriminate Hall].
  - destruct (nth_error sub i) as [c | ] eqn:Hc.
    + exists i, c. split; [exact Hc | ].
      destruct (V i) as [[ | ] | | ]; try discriminate Hf. reflexivity.
    + apply nth_error_None in Hc. lia.
Qed.

(** After a successful construction on an old table without missing
    key cells, [rows_before_update] and [rows_after_update] have the same
    keys and list them row by row in the same order; these keys are the
    keys of an old row and of a new row for which the comparator of some
    compared column judges the two cells unequal. *)
Theorem updated_pair_shares_keys
    (one0 other0 : DataFrame) (on0 : list string) (sub : option (list string))
    (mode : string) (tol : float) (ic : bool) (st : DataFrameComparator) :
  DataFrameComparator_init one0 other0 on0 sub mode tol ic = Ok st ->
  no_missing_key (table_keys one0 on0) = true ->
  exists before after : indexed,
    rows_before_update st = Ok before
    /\ rows_after_update st = Ok after
    /\ (forall k : key, has_key before k = has_key after k)
    /\ Forall2 (fun b a => key_eqb (fst b) (fst a) = true) before after
    /\ (forall k : key,
          has_key before k = true <->
          exists (row1 row2 : list value) (c : string),
            In row1 (data one0) /\ In row2 (data other0)
            /\ key_eqb k (map (cell (columns one0) row1) on0) = true
            /\ key_eqb k (map (cell (columns other0) row2) on0) = true
            /\ In c (subset st)
            /\ cell_verdict mode tol ic
                 (numeric_column
                    (map (fun r => cell (columns one0) r c) (data one0)))
                 (cell (columns one0) row1 c) (cell (columns other0) row2 c)
               = Ok false).
Proof.
  intros Hinit Hkeys.
  destruct (init_state _ _ _ _ _ _ _ Hinit) as [Ha [Hb [Hk1 [Hk2 [Hidx Hlen]]]]].
  destruct (init_fields _ _ _ _ _ _ _ Hinit) as [_ [_ [_ [Hm [Ht [Hi _]]]]]].
  rewrite <- Hk1 in Hkeys.
  destruct (common_partitions st Hidx Hkeys) as [_ [Hbef Haft]].
  assert (Hneg : forall j, nth_error (map negb (_mask st)) j = Some true <->
                           nth_error (_mask st) j = Some false).
  { intros j. rewrite nth_error_map.
    destruct (nth_error (_mask st) j) as [[ | ] | ]; cbn; split;
      intros E; try discriminate E; reflexivity. }
  eexists _, _. split; [exact Hbef | ]. split; [exact Haft | ].
  split; [ | split].
  - intros k. rewrite !(@has_key_selected st _ _ k Hidx) by auto. reflexivity.
  - apply selected_rows_aligned. intros l Hl.
    apply (init_single_rows _ _ _ _ _ _ _ l Hinit).
    exact (loc_mask_incl _ _ l Hl).
  - intros k. rewrite (@has_key_selected st _ _ k Hidx) by auto.
    rewrite contains_spec. split.
    + intros [l [Hl Hkl]].
      apply In_loc_mask in Hl. destruct Hl as [j [Hj Hmj]]. apply Hneg in Hmj.
      destruct (@init_single_rows _ _ _ _ _ _ _ st l Hinit (nth_error_In _ _ Hj))
        as [[r1 Hr1] [r2 Hr2]].
      assert (H1 : In r1 (rows_labelled (_one st) l)) by (rewrite Hr1; left; reflexivity).
      assert (H2 : In r2 (rows_labelled (_other st) l)) by (rewrite Hr2; left; reflexivity).
      pose proof (rows_labelled_In _ _ _ H1) as K1.
      pose proof (rows_labelled_In _ _ _ H2) as K2.
      unfold rows_labelled in H1, H2. apply filter_In in H1. apply filter_In in H2.
      destruct H1 as [H1 _]. destruct H2 as [H2 _].
      destruct (@label_verdict _ _ _ _ _ _ _ st j l r1 r2 Hinit Hj H1 H2 K1 K2)
        as [m [Hmj' Hiff]].
      assert (m = false) by congruence. subst m.
      assert (K12 : key_eqb (fst r1) (fst r2) = true).
      { exact (key_eqb_trans _ _ _ (key_eqb_sym _ _ K1) K2). }
      destruct (@some_cell_unequal (subset st)
                  (fun i => cell_verdict mode tol ic
                              (numeric_column (column (_one st) i))
                              (nth i (snd r1) VNone) (nth i (snd r2) VNone)))
        as [i [c [Hic Hv]]].
      { intros i c Hic. exact (@cell_returns _ _ _ _ _ _ _ st r1 r2 i c
                                 Hinit H1 H2 K12 Hic). }
      { intros Hall.
        assert (Hno : false = true); [ | discriminate Hno].
        apply Hiff. unfold cells_all_equal. rewrite Hm, Ht, Hi. exact Hall. }
      rewrite Ha in H1. rewrite Hb in H2.
      apply In_prepared in H1. apply In_prepared in H2.
      destruct H1 as [row1 [Hrow1 E1]]. destruct H2 as [row2 [Hrow2 E2]].
      exists row1, row2, c.
      rewrite Ha in Hv. rewrite (@column_prepared one0 on0 _ i c Hic) in Hv.
      rewrite E1, E2 in Hv. cbn [snd] in Hv.
      rewrite !(@prepared_cell _ (subset st) _ i c Hic) in Hv.
      rewrite E1 in K1. rewrite E2 in K2. cbn [fst] in K1, K2.
      repeat split; try assumption.
      * exact (key_eqb_trans _ _ _ Hkl K1).
      * exact (key_eqb_trans _ _ _ Hkl K2).
      * apply nth_error_In with (n := i). exact Hic.
    + intros [row1 [row2 [c [Hrow1 [Hrow2 [K1 [K2 [Hc Hv]]]]]]]].
      apply In_nth_error in Hc. destruct Hc as [i Hic].
      set (r1 := (map (cell (columns one0) row1) on0,
                  map (cell (columns one0) row1) (subset st)) : key * list value).
      set (r2 := (map (cell (columns other0) row2) on0,
                  map (cell (columns other0) row2) (subset st)) : key * list value).
      assert (H1 : In r1 (_one st)).
      { rewrite Ha. apply In_prepared. exists row1. auto. }
      assert (H2 : In r2 (_other st)).
      { rewrite Hb. apply In_prepared. exists row2. auto. }
      assert (K12 : key_eqb (fst r1) (fst r2) = true).
      { exact (key_eqb_trans _ _ _ (key_eqb_sym _ _ K1) K2). }
      assert (Hin : In (fst r1) (cmp_index (_comparison st))).
      { rewrite Hidx. apply filter_In. split.
        - unfold keys. apply in_map. exact H1.
        - apply contains_spec. exists (fst r2). split; [ | exact K12].
          unfold keys. apply in_map. exact H2. }
      apply In_nth_error in Hin. destruct Hin as [j Hj].
      destruct (@label_verdict _ _ _ _ _ _ _ st j (fst r1) r1 r2 Hinit Hj H1 H2
                  (key_eqb_refl _) K12) as [m [Hmj Hiff]].
      exists (fst r1). split; [ | exact K1].
      apply In_loc_mask. exists j. split; [exact Hj | ]. apply Hneg.
      destruct m; [ | exact Hmj]. exfalso.
      assert (Hall : cells_all_equal st r1 r2) by (apply Hiff; reflexivity).
      specialize (Hall i c Hic). rewrite Hm, Ht, Hi in Hall.
      rewrite Ha in Hall. rewrite (@column_prepared one0 on0 _ i c Hic) in Hall.
      unfold r1, r2 in Hall. cbn [snd] in Hall.
      rewrite !(@prepared_cell _ (subset st) _ i c Hic) in Hall.
      congruence.
Qed.

End Comparators.


(** * Concrete runs *)

Lemma keys_are_partitioned_witness :
  exists st : DataFrameComparator,
    unique_keys (table_keys sample_old ["ID"]) = true
    /\ unique_keys (table_keys sample_new ["ID"]) = true
    /\ no_missing_key (table_keys sample_old ["ID"]) = true
    /\ DataFrameComparator_init sample_float_of_str sample_lower
         sample_old sample_new ["ID"] (Some ["Name"; "Age"])
         "absolute" default_tolerance false = Ok st
    /\ has_key (rows_deleted st) [num 1] = true
    /\ has_key (rows_inserted st) [num 5] = true
    /\ exists common before after : indexed,
         rows_in_common st = Ok common
         /\ rows_before_update st = Ok before
         /\ rows_after_update st = Ok after
         /\ has_key common [num 2] = negb (has_key before [num 2])
         /\ has_key before [num 3] = has_key after [num 3].
Proof.
  eexists. split; [vm_compute; reflexivity | ].
  split; [vm_compute; reflexivity | ].
  split; [vm_compute; reflexivity | ].
  split; [vm_compute; reflexivity | ].
  match goal with
  | |- has_key (rows_deleted ?st) _ = true /\ _ =>
      destruct (@keys_are_partitioned sample_float_of_str sample_lower
                  sample_old sample_new ["ID"] (Some ["Name"; "Age"])
                  "absolute" default_tolerance false st)
        as [common [before [after [Hc [Hb [Ha [_ [_ Hk]]]]]]]];
        [vm_compute; reflexivity | vm_compute; reflexivity
        | vm_compute; reflexivity | vm_compute; reflexivity | ]
  end.
  split.
  { apply (Hk [num 1]); vm_compute; reflexivity. }
  split.
  { apply (Hk [num 5]); vm_compute; reflexivity. }
  exists common, before, after.
  split; [exact Hc | ]. split; [exact Hb | ]. split; [exact Ha | ].
  split.
  - apply (Hk [num 2]); vm_compute; reflexivity.
  - apply (Hk [num 3]); vm_compute; reflexivity.
Defined.

(** C1 at a key that is a missing value. The one row of the table has the
    key [None]; the key is in both tables and unique and construction
    returns. [rows_in_common], which selects with the labels, raises
    [ValueError], and the updated pair is empty: the common key is in no
    partition. Against a table that lacks the key, [rows_deleted], which
    selects with a boolean mask, returns the same row without harm. *)
Lemma missing_key_in_no_partition :
  unique_keys (table_keys unlabelled ["key"]) = true
  /\ contains (table_keys unlabelled ["key"]) [VNone] = true
  /\ (exists st : DataFrameComparator,
        DataFrameComparator_init sample_float_of_str sample_lower
          unlabelled unlabelled ["key"] (Some ["val"])
          "absolute" default_tolerance false = Ok st
        /\ has_key (rows_deleted st) [VNone] = false
        /\ has_key (rows_inserted st) [VNone] = false
        /\ rows_in_common st = Raise ValueError
        /\ rows_before_update st = Ok []
        /\ rows_after_update st = Ok [])
  /\ (exists st : DataFrameComparator,
        DataFrameComparator_init sample_float_of_str sample_lower
          unlabelled single_row ["key"] (Some ["val"])
          "absolute" default_tolerance false = Ok st
        /\ rows_deleted st = [([VNone], [num 20])]).
Proof.
  split; [vm_compute; reflexivity | ]. split; [vm_compute; reflexivity | ].
  split.
  - eexists. split; [vm_compute; reflexivity | ].
    repeat split; vm_compute; reflexivity.
  - eexists. split; vm_compute; reflexivity.
Qed.

(** C9 at a key that is a missing value. The row of key [None] differs
    between the two tables and construction returns with a false verdict
    for it; reading either half of the updated pair raises [ValueError]. *)
Lemma missing_key_updated_pair_raises :
  exists st : DataFrameComparator,
    DataFrameComparator_init sample_float_of_str sample_lower
      unlabelled unlabelled_new ["key"] (Some ["val"])
      "absolute" default_tolerance false = Ok st
    /\ _mask st = [false]
    /\ rows_before_update st = Raise ValueError
    /\ rows_after_update st = Raise ValueError.
Proof.
  eexists. split; [vm_compute; reflexivity | ].
  repeat split; vm_compute; reflexivity.
Qed.

(** C8, as the spec has it, fails when another cell fails first: the age
    is numeric in the old table and a word in the new one, but the name,
    compared before it with case ignored, is NaN in the new table, and
    construction raises [AttributeError], which is no conversion error. *)
Lemma earlier_cell_raises_first :
  numeric_column sample_float_of_str
    (map (fun r => cell (columns nameless_old) r "Age") (data nameless_old)) = true
  /\ py_float sample_float_of_str
       (cell (columns nameless_new) [num 2; VFloat fnan; VStr "unknown"] "Age")
     = Raise ValueError
  /\ DataFrameComparator_init sample_float_of_str sample_lower
       nameless_old nameless_new ["ID"] (Some ["Name"; "Age"])
       "absolute" default_tolerance true = Raise AttributeError
  /\ ~ conversion_error AttributeError.
Proof.
  split; [vm_compute; reflexivity | ]. split; [vm_compute; reflexivity | ].
  split; [vm_compute; reflexivity | ].
  intros [H | H]; discriminate H.
Qed.



Lemma overlapping_subset_rejected_witness :
  In "ID" ["ID"; "Name"] /\ In "ID" ["ID"]
  /\ exists e : exn,
       (e = AssertionError \/ e = KeyError)
       /\ _check_subset (columns sample_old) (columns sample_new) ["ID"]
                        (Some ["ID"; "Name"]) = Raise e
       /\ DataFrameComparator_init sample_float_of_str sample_lower
            sample_old sample_new ["ID"] (Some ["ID"; "Name"])
            "absolute" default_tolerance false = Raise e.
Proof.
  split; [simpl; auto | ]. split; [simpl; auto | ].
  apply (@overlapping_subset_rejected sample_float_of_str sample_lower
           sample_old sample_new ["ID"] ["ID"; "Name"]
           "absolute" default_tolerance false "ID"); simpl; auto.
Defined.

Lemma omitted_subset_rejected_witness :
  ["ID"] <> []
  /\ (forall c, In c ["ID"] -> In c (columns sample_old))
  /\ DataFrameComparator_init sample_float_of_str sample_lower
       sample_old sample_new ["ID"] None "absolute" default_tolerance false
     = Raise AssertionError.
Proof.
  assert (H1 : ["ID"] <> @nil string) by discriminate.
  assert (H2 : forall c, In c ["ID"] -> In c (columns sample_old)).
  { intros c [Hc | []]. subst c. simpl. auto. }
  split; [exact H1 | ]. split; [exact H2 | ].
  apply (@omitted_subset_rejected sample_float_of_str sample_lower
           sample_old sample_new ["ID"] "absolute" default_tolerance false H1 H2).
Defined.

Lemma updated_pair_shares_keys_witness :
  exists st : DataFrameComparator,
    DataFrameComparator_init sample_float_of_str sample_lower
      sample_old sample_new ["ID"] (Some ["Name"; "Age"])
      "absolute" default_tolerance false = Ok st
    /\ no_missing_key (table_keys sample_old ["ID"]) = true
    /\ exists before after : indexed,
         rows_before_update st = Ok before
         /\ rows_after_update st = Ok after
         /\ (forall k : key, has_key before k = has_key after k)
         /\ Forall2 (fun b a => key_eqb (fst b) (fst a) = true) before after
         /\ has_key before [num 3] = true
         /\ has_key after [num 3] = true.
Proof.
  eexists. split; [vm_compute; reflexivity | ].
  split; [vm_compute; reflexivity | ].
  match goal with
  | |- exists before after, rows_before_update ?st = _ /\ _ =>
      destruct (@updated_pair_shares_keys sample_float_of_str sample_lower
                  sample_old sample_new ["ID"] (Some ["Name"; "Age"])
                  "absolute" default_tolerance false st)
        as [before [after [Hb [Ha [Hk [Hrows Hcells]]]]]];
        [vm_compute; reflexivity | vm_compute; reflexivity | ]
  end.
  assert (H3 : has_key before [num 3] = true).
  { apply Hcells.
    exists [num 3; VStr "Charlie"; num 35], [num 3; VStr "Charlie"; num 36; num 312],
           "Age".
    repeat split; try (vm_compute; reflexivity); simpl; auto. }
  exists before, after. rewrite <- Hk. auto 10.
Defined.

(** C5, as the spec has it, fails under tolerance 0: the one row of the
    table, compared with itself, is reported as updated, because
    [|20 - 20| < 0] does not hold. *)
Lemma zero_tolerance_self_comparison :
  unique_keys (table_keys single_row ["key"]) = true
  /\ exists st : DataFrameComparator,
       DataFrameComparator_init sample_float_of_str sample_lower
         single_row single_row ["key"] (Some ["val"]) "absolute" fzero false
       = Ok st
       /\ rows_in_common st = Ok []
       /\ rows_before_update st = Ok [([num 2], [num 20])]
       /\ rows_after_update st = Ok [([num 2], [num 20])].
Proof.
  split; [vm_compute; reflexivity | ].
  eexists. split; [vm_compute; reflexivity | ].
  repeat split; vm_compute; reflexivity.
Qed.

(** The same happens under the default tolerance to a row whose cell is
    NaN. *)
Lemma missing_value_self_comparison :
  exists st : DataFrameComparator,
    DataFrameComparator_init sample_float_of_str sample_lower
      missing_value missing_value ["key"] (Some ["val"])
      "absolute" default_tolerance false
    = Ok st
    /\ rows_in_common st = Ok []
    /\ rows_before_update st = Ok [([num 2], [VFloat fnan])].
Proof.
  eexists. split; [vm_compute; reflexivity | ].
  split; vm_compute; reflexivity.
Qed.

Lemma sample_old_self_equal :
  self_equal_cells sample_float_of_str sample_lower
    sample_old ["Name"; "Age"] "absolute" default_tolerance false.
Proof.
  intros i c row Hi Hrow.
  destruct i as [ | [ | [ | i]]]; cbn in Hi; try discriminate Hi;
    injection Hi as Hi; subst c;
    cbn in Hrow; destruct Hrow as [Hr | [Hr | [Hr | [Hr | []]]]]; subst row;
    vm_compute; reflexivity.
Defined.

Lemma self_comparison_all_common_witness :
  _check_subset (columns sample_old) (columns sample_old) ["ID"]
                (Some (subset_or_columns (Some ["Name"; "Age"]) sample_old))
  = Ok ["Name"; "Age"]
  /\ unique_keys (table_keys sample_old ["ID"]) = true
  /\ no_missing_key (table_keys sample_old ["ID"]) = true
  /\ exists st : DataFrameComparator,
       DataFrameComparator_init sample_float_of_str sample_lower
         sample_old sample_old ["ID"] (Some ["Name"; "Age"])
         "absolute" default_tolerance false = Ok st
       /\ _one st = prepared sample_old ["ID"] ["Name"; "Age"]
       /\ rows_deleted st = []
       /\ rows_inserted st = []
       /\ rows_before_update st = Ok []
       /\ rows_after_update st = Ok []
       /\ rows_in_common st = Ok (_one st).
Proof.
  split; [vm_compute; reflexivity | ]. split; [vm_compute; reflexivity | ].
  split; [vm_compute; reflexivity | ].
  apply (@self_comparison_all_common sample_float_of_str sample_lower
           sample_old ["ID"] (Some ["Name"; "Age"])
           "absolute" default_tolerance false ["Name"; "Age"]).
  - vm_compute; reflexivity.
  - vm_compute; reflexivity.
  - vm_compute; reflexivity.
  - vm_compute; reflexivity.
  - vm_compute; reflexivity.
  - vm_compute; reflexivity.
  - exact sample_old_self_equal.
Defined.

(** C2, as the spec has it, fails: the old table carries the key 1 twice,
    construction goes through, and both rows are reported as deleted. *)
Lemma repeated_keys_accepted :
  unique_keys (table_keys repeated_old ["key"]) = false
  /\ exists st : DataFrameComparator,
       DataFrameComparator_init sample_float_of_str sample_lower
         repeated_old repeated_new ["key"] (Some ["val"])
         "absolute" default_tolerance false = Ok st
       /\ rows_deleted st = [([num 1], [num 10]); ([num 1], [num 11])]
       /\ rows_inserted st = [([num 3], [num 30])]
       /\ rows_in_common st = Ok [([num 2], [num 20])].
Proof.
  split; [vm_compute; reflexivity | ].
  eexists. split; [vm_compute; reflexivity | ].
  repeat split; vm_compute; reflexivity.
Qed.

Lemma repeated_keys_pass_indexing_witness :
  _check_subset (columns repeated_old) (columns repeated_new) ["key"]
                (Some (subset_or_columns (Some ["val"]) repeated_old))
  = Ok ["val"]
  /\ rectangular repeated_old = true
  /\ rectangular repeated_new = true
  /\ unique_keys (table_keys repeated_old ["key"]) = false
  /\ _prepare_data repeated_old repeated_new ["key"] ["val"]
     = Ok (prepared repeated_old ["key"] ["val"],
           prepared repeated_new ["key"] ["val"])
  /\ keys (prepared repeated_old ["key"] ["val"])
     = table_keys repeated_old ["key"].
Proof.
  split; [vm_compute; reflexivity | ]. split; [vm_compute; reflexivity | ].
  split; [vm_compute; reflexivity | ]. split; [vm_compute; reflexivity | ].
  destruct (@repeated_keys_pass_indexing sample_float_of_str sample_lower
              repeated_old repeated_new ["key"] (Some ["val"])
              "absolute" default_tolerance false ["val"])
    as [Hp [Hk _]]; try (vm_compute; reflexivity).
  split; [exact Hp | exact Hk].
Defined.

(** C3, as the spec has it, fails: with the empty subset the constructor
    raises on the two sample frames, whose key column is common to both. *)
Lemma empty_subset_rejected :
  issubset ["ID"] (intersection (columns sample_old) (columns sample_new)) = true
  /\ DataFrameComparator_init sample_float_of_str sample_lower
       sample_old sample_new ["ID"] (Some [])
       "absolute" default_tolerance false
     = Raise AssertionError
  /\ ~ exists st : DataFrameComparator,
         DataFrameComparator_init sample_float_of_str sample_lower
           sample_old sample_new ["ID"] (Some [])
           "absolute" default_tolerance false = Ok st.
Proof.
  split; [vm_compute; reflexivity | ].
  assert (H : DataFrameComparator_init sample_float_of_str sample_lower
                sample_old sample_new ["ID"] (Some [])
                "absolute" default_tolerance false = Raise AssertionError)
    by (vm_compute; reflexivity).
  split; [exact H | ]. intros [st Hst]. rewrite H in Hst. discriminate Hst.
Qed.

Lemma non_numeric_value_aborts_witness :
  _check_subset (columns drift_old) (columns drift_new) ["ID"]
                (Some (subset_or_columns (Some ["Age"]) drift_old))
  = Ok ["Age"]
  /\ numeric_column sample_float_of_str
       (map (fun r => cell (columns drift_old) r "Age") (data drift_old)) = true
  /\ In [num 3; VStr "unknown"] (data drift_new)
  /\ py_float sample_float_of_str
       (cell (columns drift_new) [num 3; VStr "unknown"] "Age") = Raise ValueError
  /\ exists e : exn,
       DataFrameComparator_init sample_float_of_str sample_lower
         drift_old drift_new ["ID"] (Some ["Age"])
         "absolute" default_tolerance false = Raise e
       /\ conversion_error e.
Proof.
  split; [vm_compute; reflexivity | ]. split; [vm_compute; reflexivity | ].
  split; [simpl; auto | ]. split; [vm_compute; reflexivity | ].
  destruct (@non_numeric_value_aborts sample_float_of_str sample_lower
              drift_old drift_new ["ID"] (Some ["Age"])
              "absolute" default_tolerance false ["Age"]
              0 "Age" [num 3; VStr "unknown"] ValueError)
    as [_ [e [He [_ Hconv]]]]; try (vm_compute; reflexivity).
  - simpl. auto.
  - exists e. split; [exact He | ]. apply Hconv; [reflexivity | discriminate].
Defined.

Lemma empty_subset_is_omitted_subset_witness :
  exists st : DataFrameComparator,
    DataFrameComparator_init sample_float_of_str sample_lower
      sample_old sample_new ["ID"] (Some ["Name"; "Age"])
      "absolute" default_tolerance false = Ok st
    /\ subset st <> []
    /\ DataFrameComparator_init sample_float_of_str sample_lower
         sample_old sample_new ["ID"] (Some [])
         "absolute" default_tolerance false
       = DataFrameComparator_init sample_float_of_str sample_lower
           sample_old sample_new ["ID"] None
           "absolute" default_tolerance false.
Proof.
  eexists. split; [vm_compute; reflexivity | ].
  destruct (@empty_subset_is_omitted_subset sample_float_of_str sample_lower
              sample_old sample_new ["ID"] "absolute" default_tolerance false)
    as [_ [Hsame Hne]].
  split; [ | exact Hsame].
  apply (Hne (Some ["Name"; "Age"])). vm_compute; reflexivity.
Defined.

(** ** Runs of the further properties *)

Lemma row_verdict_from_cells_witness :
  exists st : DataFrameComparator,
    DataFrameComparator_init sample_float_of_str sample_lower
      sample_old sample_new ["ID"] (Some ["Name"; "Age"])
      "absolute" default_tolerance false = Ok st
    /\ no_missing_key (table_keys sample_old ["ID"]) = true
    /\ In ([num 3], [VStr "Charlie"; num 35]) (_one st)
    /\ In ([num 3], [VStr "Charlie"; num 36]) (_other st)
    /\ exists common before after : indexed,
         rows_in_common st = Ok common
         /\ rows_before_update st = Ok before
         /\ rows_after_update st = Ok after
         /\ In ([num 3], [VStr "Charlie"; num 35]) before
         /\ In ([num 3], [VStr "Charlie"; num 36]) after
         /\ ~ In ([num 3], [VStr "Charlie"; num 35]) common.
Proof.
  eexists. split; [vm_compute; reflexivity | ].
  split; [vm_compute; reflexivity | ].
  split; [vm_compute; auto | ]. split; [vm_compute; auto | ].
  match goal with
  | |- exists common before after : indexed, rows_in_common ?st = _ /\ _ =>
      destruct (@row_verdict_from_cells sample_float_of_str sample_lower
                  sample_old sample_new ["ID"] (Some ["Name"; "Age"])
                  "absolute" default_tolerance false st
                  ([num 3], [VStr "Charlie"; num 35])
                  ([num 3], [VStr "Charlie"; num 36]))
        as [common [before [after [Hc [Hb [Ha [Hin [Hbef Haft]]]]]]]];
        [vm_compute; reflexivity | vm_compute; reflexivity
        | vm_compute; auto | vm_compute; auto
        | vm_compute; reflexivity | ];
      assert (Hne : ~ @cells_all_equal sample_float_of_str sample_lower st
                        ([num 3], [VStr "Charlie"; num 35])
                        ([num 3], [VStr "Charlie"; num 36]))
  end.
  { intros Hall. specialize (Hall 1 "Age" eq_refl).
    vm_compute in Hall. discriminate Hall. }
  exists common, before, after.
  split; [exact Hc | ]. split; [exact Hb | ]. split; [exact Ha | ].
  split; [apply Hbef; exact Hne | ]. split; [apply Haft; exact Hne | ].
  intros Hcommon. apply Hne. apply Hin. exact Hcommon.
Defined.

Lemma abstract_counts_add_up_witness :
  exists (st : DataFrameComparator) (a : Abstract),
    DataFrameComparator_init sample_float_of_str sample_lower
      sample_old sample_new ["ID"] (Some ["Name"; "Age"])
      "absolute" default_tolerance false = Ok st
    /\ no_missing_key (table_keys sample_old ["ID"]) = true
    /\ abstract_data st = Ok a
    /\ abstract_old a = 4 /\ abstract_new a = 4
    /\ abstract_old a = abstract_deleted a + abstract_updated a + abstract_common a
    /\ abstract_new a = abstract_inserted a + abstract_updated a + abstract_common a.
Proof.
  eexists.
  match goal with
  | |- exists a : Abstract, _ = Ok ?st /\ _ =>
      destruct (@abstract_counts_add_up sample_float_of_str sample_lower
                  sample_old sample_new ["ID"] (Some ["Name"; "Age"])
                  "absolute" default_tolerance false st)
        as [a [Ha [Ho [Hn [Hold Hnew]]]]];
        [vm_compute; reflexivity | vm_compute; reflexivity | ];
      exists a
  end.
  split; [vm_compute; reflexivity | ]. split; [vm_compute; reflexivity | ].
  split; [exact Ha | ].
  split; [exact Ho | ]. split; [exact Hn | ]. split; [exact Hold | exact Hnew].
Defined.

Lemma validated_construction_outcome_witness :
  _check_subset (columns drift_old) (columns drift_new) ["ID"]
                (Some (subset_or_columns (Some ["Age"]) drift_old)) = Ok ["Age"]
  /\ unique_keys (table_keys drift_old ["ID"]) = true
  /\ unique_keys (table_keys drift_new ["ID"]) = true
  /\ ((exists st, DataFrameComparator_init sample_float_of_str sample_lower
                    drift_old drift_new ["ID"] (Some ["Age"])
                    "relative" default_tolerance true = Ok st)
      \/ (exists e, cell_exception "relative" true e
            /\ DataFrameComparator_init sample_float_of_str sample_lower
                 drift_old drift_new ["ID"] (Some ["Age"])
                 "relative" default_tolerance true = Raise e)).
Proof.
  split; [vm_compute; reflexivity | ]. split; [vm_compute; reflexivity | ].
  split; [vm_compute; reflexivity | ].
  apply (@validated_construction_outcome sample_float_of_str sample_lower
           drift_old drift_new ["ID"] (Some ["Age"])
           "relative" default_tolerance true ["Age"]);
    vm_compute; reflexivity.
Defined.

Lemma construction_returns_iff_witness :
  _check_subset (columns drift_old) (columns drift_new) ["ID"]
                (Some (subset_or_columns (Some ["Age"]) drift_old)) = Ok ["Age"]
  /\ ~ cell_pair_returns sample_float_of_str sample_lower drift_old drift_new
         "absolute" default_tolerance false "Age"
         [num 3; num 35] [num 3; VStr "unknown"]
  /\ ~ exists st, DataFrameComparator_init sample_float_of_str sample_lower
                    drift_old drift_new ["ID"] (Some ["Age"])
                    "absolute" default_tolerance false = Ok st.
Proof.
  split; [vm_compute; reflexivity | ].
  assert (Hno : ~ cell_pair_returns sample_float_of_str sample_lower
                    drift_old drift_new "absolute" default_tolerance false "Age"
                    [num 3; num 35] [num 3; VStr "unknown"]).
  { intros [v Hv]. vm_compute in Hv. discriminate Hv. }
  split; [exact Hno | ].
  intros Hst. apply Hno.
  apply (proj1 (@construction_returns_iff sample_float_of_str sample_lower
                  drift_old drift_new ["ID"] (Some ["Age"])
                  "absolute" default_tolerance false ["Age"]
                  ltac:(vm_compute; reflexivity) ltac:(vm_compute; reflexivity)
                  ltac:(vm_compute; reflexivity) ltac:(vm_compute; reflexivity)
                  ltac:(vm_compute; reflexivity) ltac:(vm_compute; reflexivity)
                  ltac:(vm_compute; reflexivity)) Hst 0 "Age");
    [reflexivity | simpl; auto | simpl; auto | vm_compute; reflexivity].
Defined.

Lemma float_tables_absolute_mode_return_witness :
  _check_subset (columns single_row) (columns repeated_new) ["key"]
                (Some (subset_or_columns (Some ["val"]) single_row)) = Ok ["val"]
  /\ "absolute" <> "relative"
  /\ forallb (fun row => is_float (cell (columns single_row) row "val"))
             (data single_row) = true
  /\ forallb (fun row => is_float (cell (columns repeated_new) row "val"))
             (data repeated_new) = true
  /\ exists st, DataFrameComparator_init sample_float_of_str sample_lower
                  single_row repeated_new ["key"] (Some ["val"])
                  "absolute" default_tolerance false = Ok st.
Proof.
  split; [vm_compute; reflexivity | ]. split; [discriminate | ].
  split; [vm_compute; reflexivity | ]. split; [vm_compute; reflexivity | ].
  apply (@float_tables_absolute_mode_return sample_float_of_str sample_lower
           single_row repeated_new ["key"] (Some ["val"])
           "absolute" default_tolerance false ["val"]);
    try (vm_compute; reflexivity).
  - discriminate.
  - intros row c Hrow Hc. simpl in Hrow, Hc.
    destruct Hc as [<- | []]. destruct Hrow as [<- | []]. reflexivity.
  - intros row c Hrow Hc. simpl in Hrow, Hc.
    destruct Hc as [<- | []]. destruct Hrow as [<- | [<- | []]]; reflexivity.
Defined.

Lemma disjoint_keys_all_deleted_and_inserted_witness :
  _check_subset (columns single_row) (columns apart_new) ["key"]
                (Some (subset_or_columns (Some ["val"]) single_row)) = Ok ["val"]
  /\ forallb (fun k => negb (contains (table_keys apart_new ["key"]) k))
             (table_keys single_row ["key"]) = true
  /\ exists st,
       DataFrameComparator_init sample_float_of_str sample_lower
         single_row apart_new ["key"] (Some ["val"])
         "relative" default_tolerance true = Ok st
       /\ rows_deleted st = prepared single_row ["key"] ["val"]
       /\ rows_inserted st = prepared apart_new ["key"] ["val"]
       /\ rows_in_common st = Ok []
       /\ rows_before_update st = Ok []
       /\ rows_after_update st = Ok []
       /\ _mask st = [].
Proof.
  split; [vm_compute; reflexivity | ]. split; [vm_compute; reflexivity | ].
  apply (@disjoint_keys_all_deleted_and_inserted sample_float_of_str sample_lower
           single_row apart_new ["key"] (Some ["val"])
           "relative" default_tolerance true ["val"]);
    try (vm_compute; reflexivity).
  intros k Hk. simpl in Hk. destruct Hk as [<- | []]. vm_compute. reflexivity.
Defined.

Lemma swapped_tables_swap_deleted_and_inserted_witness :
  exists st st' : DataFrameComparator,
    DataFrameComparator_init sample_float_of_str sample_lower
      sample_old sample_new ["ID"] (Some ["Name"; "Age"])
      "absolute" default_tolerance false = Ok st
    /\ DataFrameComparator_init sample_float_of_str sample_lower
         sample_new sample_old ["ID"] (Some ["Name"; "Age"])
         "absolute" default_tolerance false = Ok st'
    /\ rows_deleted st' = rows_inserted st
    /\ rows_inserted st' = rows_deleted st.
Proof.
  do 2 eexists. split; [vm_compute; reflexivity | ].
  split; [vm_compute; reflexivity | ].
  apply (@swapped_tables_swap_deleted_and_inserted
           sample_float_of_str sample_lower
           sample_old sample_new ["ID"] ["Name"; "Age"]
           "absolute" default_tolerance false); vm_compute; reflexivity.
Defined.

Lemma constructed_comparator_shape_witness :
  exists st : DataFrameComparator,
    DataFrameComparator_init sample_float_of_str sample_lower
      sample_old sample_new ["ID"] (Some ["Name"; "Age"])
      "absolute" default_tolerance false = Ok st
    /\ subset st <> []
    /\ List.length (comparators st) = List.length (subset st)
    /\ List.length (cmp_columns (_comparison st)) = List.length (subset st)
    /\ List.length (_mask st) = List.length (cmp_index (_comparison st)).
Proof.
  eexists. split; [vm_compute; reflexivity | ].
  match goal with
  | |- subset ?st <> [] /\ _ =>
      destruct (@constructed_comparator_shape sample_float_of_str sample_lower
                  sample_old sample_new ["ID"] (Some ["Name"; "Age"])
                  "absolute" default_tolerance false st)
        as [Hne [_ [_ [_ [Hcls [Hcols [_ [Hmask _]]]]]]]];
        [vm_compute; reflexivity | ]
  end.
  split; [exact Hne | ]. split; [exact Hcls | ]. split; [exact Hcols | exact Hmask].
Defined.

Lemma old_rows_keep_their_order_witness :
  exists st : DataFrameComparator,
    DataFrameComparator_init sample_float_of_str sample_lower
      sample_old sample_new ["ID"] (Some ["Name"; "Age"])
      "absolute" default_tolerance false = Ok st
    /\ no_missing_key (table_keys sample_old ["ID"]) = true
    /\ rows_deleted st
       = filter (fun r => negb (contains (table_keys sample_new ["ID"]) (fst r)))
                (prepared sample_old ["ID"] (subset st))
    /\ List.length (_mask st)
       = List.length
           (filter (fun r => contains (table_keys sample_new ["ID"]) (fst r))
                   (prepared sample_old ["ID"] (subset st))).
Proof.
  eexists. split; [vm_compute; reflexivity | ].
  split; [vm_compute; reflexivity | ].
  match goal with
  | |- rows_deleted ?st = _ /\ _ =>
      destruct (@old_rows_keep_their_order sample_float_of_str sample_lower
                  sample_old sample_new ["ID"] (Some ["Name"; "Age"])
                  "absolute" default_tolerance false st)
        as [Hdel [_ [_ Hlen]]];
        [vm_compute; reflexivity | vm_compute; reflexivity | ]
  end.
  split; [exact Hdel | exact Hlen].
Defined.

Lemma absolute_tolerance_monotone_witness :
  absolutely_compare (float_of_Z 35) (float_of_Z 36) (float_of_Z 2) = true
  /\ flt (float_of_Z 2) (float_of_Z 3) = true
  /\ absolutely_compare (float_of_Z 35) (float_of_Z 36) (float_of_Z 3) = true.
Proof.
  split; [vm_compute; reflexivity | ]. split; [vm_compute; reflexivity | ].
  apply (@absolute_tolerance_monotone (float_of_Z 35) (float_of_Z 36)
           (float_of_Z 2) (float_of_Z 3)); vm_compute; reflexivity.
Defined.

Lemma tolerance_not_above_zero_witness :
  flt fzero fzero = false
  /\ absolutely_compare (float_of_Z 1) (float_of_Z 1) fzero = false
  /\ relatively_compare (float_of_Z 1) (float_of_Z 1) fzero = Ok false.
Proof.
  split; [vm_compute; reflexivity | ].
  destruct (@tolerance_not_above_zero (float_of_Z 1) (float_of_Z 1) fzero)
    as [Habs Hrel]; [vm_compute; reflexivity | ].
  split; [exact Habs | ].
  destruct (relatively_compare (float_of_Z 1) (float_of_Z 1) fzero)
    as [r | e | ] eqn:Hr; try (vm_compute in Hr; discriminate Hr).
  rewrite (Hrel r eq_refl). reflexivity.
Defined.

Lemma relative_compare_symmetric_witness :
  is_nan (float_of_Z 35) = false /\ is_nan (float_of_Z 36) = false
  /\ relatively_compare (float_of_Z 35) (float_of_Z 36) default_tolerance
     = relatively_compare (float_of_Z 36) (float_of_Z 35) default_tolerance.
Proof.
  split; [reflexivity | ]. split; [reflexivity | ].
  apply (@relative_compare_symmetric (float_of_Z 35) (float_of_Z 36)
           default_tolerance); reflexivity.
Defined.

Lemma classification_by_old_table_witness :
  exists st : DataFrameComparator,
    DataFrameComparator_init sample_float_of_str sample_lower
      sample_old sample_new ["ID"] (Some ["Name"; "Age"])
      "absolute" default_tolerance false = Ok st
    /\ nth_error (subset st) 0 = Some "Name"
    /\ nth_error (comparators st) 0 = Some StringComparatorClass.
Proof.
  eexists. split; [vm_compute; reflexivity | ].
  split; [vm_compute; reflexivity | ].
  match goal with
  | |- nth_error (comparators ?st) 0 = _ =>
      rewrite (@classification_by_old_table sample_float_of_str sample_lower
                 sample_old sample_new ["ID"] (Some ["Name"; "Age"])
                 "absolute" default_tolerance false st 0 "Name"
                 ltac:(vm_compute; reflexivity) ltac:(vm_compute; reflexivity))
  end.
  vm_compute. reflexivity.
Defined.

Lemma unknown_mode_is_absolute_witness :
  "Relative" <> "relative"
  /\ exists st st' : DataFrameComparator,
       DataFrameComparator_init sample_float_of_str sample_lower
         sample_old sample_new ["ID"] (Some ["Name"; "Age"])
         "Relative" default_tolerance false = Ok st
       /\ DataFrameComparator_init sample_float_of_str sample_lower
            sample_old sample_new ["ID"] (Some ["Name"; "Age"])
            "absolute" default_tolerance false = Ok st'
       /\ rows_in_common st = rows_in_common st'
       /\ rows_after_update st = rows_after_update st'.
Proof.
  split; [discriminate | ].
  do 2 eexists. split; [vm_compute; reflexivity | ].
  split; [vm_compute; reflexivity | ].
  assert (Hmode : "Relative" <> "relative") by discriminate.
  pose proof (@unknown_mode_is_absolute sample_float_of_str sample_lower
                sample_old sample_new ["ID"] (Some ["Name"; "Age"])
                "Relative" default_tolerance false Hmode) as H.
  vm_compute in H. destruct H as [_ [_ [Hc [_ Ha]]]].
  split; vm_compute; [exact Hc | exact Ha].
Defined.

Lemma nan_never_equal_witness :
  is_nan fnan || is_nan (float_of_Z 1) = true
  /\ absolutely_compare fnan (float_of_Z 1) (float_of_Z 1) = false
  /\ absolutely_compare fnan fnan (float_of_Z 1) = false.
Proof.
  split; [reflexivity | ].
  split.
  - destruct (@nan_never_equal fnan (float_of_Z 1) (float_of_Z 1)) as [H _];
      [reflexivity | exact H].
  - destruct (@nan_never_equal fnan fnan (float_of_Z 1)) as [H _];
      [reflexivity | exact H].
Defined.

Lemma none_in_numeric_column_aborts_witness :
  _check_subset (columns gap_old) (columns drift_old) ["ID"]
                (Some (subset_or_columns (Some ["Age"]) gap_old)) = Ok ["Age"]
  /\ forallb (converts sample_float_of_str)
             (map (fun row => cell (columns gap_old) row "Age") (data gap_old))
     = true
  /\ cell (columns gap_old) [num 2; VNone] "Age" = VNone
  /\ exists e, cell_exception "absolute" false e
       /\ DataFrameComparator_init sample_float_of_str sample_lower
            gap_old drift_old ["ID"] (Some ["Age"])
            "absolute" default_tolerance false = Raise e.
Proof.
  split; [vm_compute; reflexivity | ]. split; [vm_compute; reflexivity | ].
  split; [vm_compute; reflexivity | ].
  apply (@none_in_numeric_column_aborts sample_float_of_str sample_lower
           gap_old drift_old ["ID"] (Some ["Age"])
           "absolute" default_tolerance false ["Age"]
           0 "Age" [num 2; VNone] [num 2; num 30]);
    try (vm_compute; reflexivity); simpl; auto.
Defined.
